(** * Seal -> Shopify Flow proxy: a model of [server.js]

    The proxy has one decision-carrying route, [POST /flow/order-created].
    This file embeds the route and its helpers ([isValidShop], [tscEquals],
    [ensureOrderContext], [findOrderByName], [getOrderById], [tagsAdd],
    [shopifyGraphQL], [sealSearchByEmail], [sealGetById], [safeJson]) and
    states the properties of the specification over the embedding.  Of the
    seal-only variant of the server, which neither resolves the context nor
    tags, only the secret comparison [tscEq] is embedded, next to
    [tscEquals].

    Conventions.
    - A JavaScript value that comes out of [JSON.parse] (or is [undefined])
      is a [value].  Numbers are the integers that a double holds exactly
      and prints in plain decimal (ids, cycle counts); fractions are outside
      the model.  A string is the UTF-8 text of a well-formed JavaScript
      string, so [Buffer.from(s, 'utf8')] is the string's own byte list.
    - The network is a function [fetch] from the exchanges so far (calls
      with their answers) and the call being issued to what the remote side
      answers; every asynchronous helper is a computation [M A] over that
      log which either returns or throws. *)

From Stdlib Require Import Ascii String.
From stdpp Require Import base numbers list strings gmap pretty.

Set Warnings "-register-all".
Local Open Scope string_scope.
Local Open Scope Z_scope.
Local Open Scope list_scope.

(** ** JavaScript values *)

Inductive value : Type :=
| VUndef
| VNull
| VBool (b : bool)
| VNum (n : Z)
| VStr (s : string)
| VArr (items : list value)
| VObj (fields : list (string * value)).

(** [Boolean(v)]: what [!v], [v || w] and [if (v)] look at. *)
Definition truthy (v : value) : bool :=
  match v with
  | VUndef | VNull => false
  | VBool b => b
  | VNum n => negb (n =? 0)
  | VStr s => negb (String.eqb s "")
  | VArr _ | VObj _ => true
  end.

(** [a || b] *)
Definition js_or (a b : value) : value := if truthy a then a else b.

(** [a ?? b] *)
Definition js_nullish (a b : value) : value :=
  match a with
  | VUndef | VNull => b
  | _ => a
  end.

(** [a != null] (loose inequality: false for [null] and [undefined]). *)
Definition not_nullish (a : value) : bool :=
  match a with
  | VUndef | VNull => false
  | _ => true
  end.

(** Own property of a parsed object; the first binding of a key stands for
    the property. *)
Fixpoint assoc (k : string) (fields : list (string * value)) : option value :=
  match fields with
  | [] => None
  | (k', v) :: rest => if String.eqb k k' then Some v else assoc k rest
  end.

(** [v?.k] for the property names the server reads ([id], [name], [email],
    [customer], [payload], [orders], [nodes], [order], [tagsAdd], [errors],
    [data], [billing_min_cycles], [shopDomain], ...): none of them is
    defined on a built-in prototype, so only objects answer. *)
Definition prop (v : value) (k : string) : value :=
  match v with
  | VObj fields => default VUndef (assoc k fields)
  | _ => VUndef
  end.

(** [v?.[0]]: first element of an array, first character of a string,
    property ["0"] of an object. *)
Definition item0 (v : value) : value :=
  match v with
  | VArr items => default VUndef (head items)
  | VStr (String c _) => VStr (String c "")
  | VObj fields => default VUndef (assoc "0" fields)
  | _ => VUndef
  end.

(** Exceptions, by throw site.  The message text the engine or the template
    literal renders from these data is not modelled. *)
Inductive exn : Type :=
| TypeError                                   (* raised by the engine *)
| RangeError                                  (* [crypto.timingSafeEqual] *)
| SyntaxError                                 (* [resp.json()] on a malformed body *)
| FetchRejected                               (* [fetch] or the body read rejected *)
| SealSearchFailed (status : Z) (text : string)
| SealGetFailed (id : value) (status : Z) (text : string)
| ShopifyGraphQLFailed (errors : value) (status : Z).

Inductive outcome (A : Type) : Type :=
| Return (a : A)
| Throw (e : exn).
Arguments Return {A} a.
Arguments Throw {A} e.

(** [v.k] without optional chaining: a [TypeError] on [null]/[undefined]. *)
Definition prop_strict (v : value) (k : string) : outcome value :=
  match v with
  | VUndef | VNull => Throw TypeError
  | _ => Return (prop v k)
  end.

(** [String(v)] and template-literal interpolation.  An array joins its
    elements with [","] ([null] and [undefined] elements print as the empty
    string); a parsed object prints as ["[object Object]"], unless it has an
    own [toString] property: that shadows [Object.prototype.toString] with a
    non-callable value and the conversion throws a [TypeError]. *)
Fixpoint to_string (v : value) : outcome string :=
  match v with
  | VUndef => Return "undefined"
  | VNull => Return "null"
  | VBool true => Return "true"
  | VBool false => Return "false"
  | VNum n => Return (pretty n)
  | VStr s => Return s
  | VArr items =>
      let element (x : value) : outcome string :=
        match x with
        | VUndef | VNull => Return ""
        | _ => to_string x
        end in
      (fix join (l : list value) : outcome string :=
         match l with
         | [] => Return ""
         | [x] => element x
         | x :: rest =>
             match element x with
             | Throw e => Throw e
             | Return s =>
                 match join rest with
                 | Throw e => Throw e
                 | Return t => Return (s +:+ "," +:+ t)
                 end
             end
         end) items
  | VObj fields =>
      match assoc "toString" fields with
      | Some _ => Throw TypeError
      | None => Return "[object Object]"
      end
  end.

(** The computations that only throw: [let? x := o in k]. *)
Definition obind {A B : Type} (o : outcome A) (k : A -> outcome B) : outcome B :=
  match o with
  | Return a => k a
  | Throw e => Throw e
  end.

Notation "'let?' x ':=' o 'in' k" := (obind o (fun x => k))
  (at level 10, x name, o at level 100, k at level 200, only parsing).

(** [xs.map(f)] for a callback that may throw: stops at the first throw. *)
Fixpoint omap {A B : Type} (f : A -> outcome B) (xs : list A) : outcome (list B) :=
  match xs with
  | [] => Return []
  | x :: rest =>
      let? y := f x in
      let? ys := omap f rest in
      Return (y :: ys)
  end.

(** ** Shop domains: [/^[a-z0-9-]+\.myshopify\.com$/] *)

Definition label_char (c : ascii) : bool :=
  let n := N_of_ascii c in
  ((97 <=? n) && (n <=? 122) || (48 <=? n) && (n <=? 57) || (n =? 45))%N.

(** The run [[a-z0-9-]*] at the head of a string is dropped.  The character
    class excludes ["."], which the pattern demands next, so the greedy run
    is the only split the matcher can succeed with. *)
Fixpoint skip_label (s : string) : string :=
  match s with
  | String c rest => if label_char c then skip_label rest else s
  | EmptyString => EmptyString
  end.

Definition shop_regex_test (s : string) : bool :=
  match s with
  | String c rest => label_char c && String.eqb (skip_label rest) ".myshopify.com"
  | EmptyString => false
  end.

(** What the pattern says: [<label>.myshopify.com], the label a non-empty
    run of lowercase letters, digits and hyphens. *)
Fixpoint all_label (s : string) : bool :=
  match s with
  | String c rest => label_char c && all_label rest
  | EmptyString => true
  end.

Definition shop_pattern (s : string) : Prop :=
  exists label, label <> "" /\ all_label label = true /\ s = label +:+ ".myshopify.com".

(** [isValidShop(s)]: [RegExp.prototype.test] converts its argument to a
    string first. *)
Definition isValidShop (s : value) : outcome bool :=
  let? str := to_string s in
  Return (shop_regex_test str).

(** ** Constant-time comparison *)

(** [Buffer.from(s, 'utf8')] *)
Definition Buffer_from (s : string) : list ascii := list_ascii_of_string s.

(** [crypto.timingSafeEqual(A, B)]: refuses buffers of different length. *)
Definition timingSafeEqual (A B : list ascii) : outcome bool :=
  if (length A =? length B)%nat
  then Return (forallb (fun p => Ascii.eqb (fst p) (snd p)) (combine A B))
  else Throw RangeError.

(** [String(a)] for what [req.header] returns: a string or [undefined]. *)
Definition String_of_header (a : option string) : string :=
  match a with
  | Some s => s
  | None => "undefined"
  end.

(** [s || ''] on a string. *)
Definition or_empty (s : string) : string := if String.eqb s "" then "" else s.

Definition tscEquals (a : option string) (b : string) : outcome bool :=
  let A := Buffer_from (or_empty (String_of_header a)) in
  let B := Buffer_from (or_empty b) in
  if (length A =? length B)%nat then timingSafeEqual A B else Return false.

(** The comparison as the seal-only variant of the server writes it:
    [Buffer.from(String(a || ''), 'utf8')], a missing header is the empty
    string. *)
Definition tscEq (a : option string) (b : string) : outcome bool :=
  let A := Buffer_from (default "" a) in
  let B := Buffer_from b in
  if (length A =? length B)%nat then timingSafeEqual A B else Return false.

(** ** Configuration *)

Record process_env : Type := {
  SHOP_DOMAIN_UK : option string;
  SHOP_DOMAIN_EU : option string;
  SHOP_DOMAIN_US : option string;
  SEAL_SUBS_TOKEN_UK : option string;
  SEAL_SUBS_TOKEN_EU : option string;
  SEAL_SUBS_TOKEN_US : option string;
  SEAL_SUBS_SECRET_UK : option string;
  SEAL_SUBS_SECRET_EU : option string;
  SEAL_SUBS_SECRET_US : option string;
  SHOPIFY_ACCESS_TOKEN_UK : option string;
  SHOPIFY_ACCESS_TOKEN_EU : option string;
  SHOPIFY_ACCESS_TOKEN_US : option string;
  SHOPIFY_ADMIN_API_VERSION : option string;
  DEBUG_ERRORS : option string
}.

Record region : Type := {
  code : string;
  shop : option string;
  sealToken : option string;
  flowSecret : option string;
  shopifyToken : option string
}.

(** Truthiness of an environment variable: set and not empty. *)
Definition configured (o : option string) : bool :=
  match o with
  | Some s => negb (String.eqb s "")
  | None => false
  end.

Definition regions (env : process_env) : list region :=
  filter (fun r => configured (shop r) = true) [
    {| code := "UK"; shop := SHOP_DOMAIN_UK env; sealToken := SEAL_SUBS_TOKEN_UK env;
       flowSecret := SEAL_SUBS_SECRET_UK env; shopifyToken := SHOPIFY_ACCESS_TOKEN_UK env |};
    {| code := "EU"; shop := SHOP_DOMAIN_EU env; sealToken := SEAL_SUBS_TOKEN_EU env;
       flowSecret := SEAL_SUBS_SECRET_EU env; shopifyToken := SHOPIFY_ACCESS_TOKEN_EU env |};
    {| code := "US"; shop := SHOP_DOMAIN_US env; sealToken := SEAL_SUBS_TOKEN_US env;
       flowSecret := SEAL_SUBS_SECRET_US env; shopifyToken := SHOPIFY_ACCESS_TOKEN_US env |}
  ].

(** [new Map(regions.map(r => [r.shop, r]))]: entries are inserted in order,
    a later entry with the same key replaces the earlier one. *)
Definition byShop (env : process_env) : gmap string region :=
  foldl (fun m r => match shop r with
                    | Some s => <[s := r]> m
                    | None => m
                    end) ∅ (regions env).

(** [byShop.get(shopDomain)]: keys are strings, so only a string finds one. *)
Definition byShop_get (env : process_env) (shopDomain : value) : option region :=
  match shopDomain with
  | VStr s => byShop env !! s
  | _ => None
  end.

Definition api_version (env : process_env) : string :=
  default "2025-07" (SHOPIFY_ADMIN_API_VERSION env).

Definition debug_errors (env : process_env) : bool :=
  match DEBUG_ERRORS env with
  | Some s => String.eqb s "true"
  | None => false
  end.

(** ** Remote calls *)

Inductive graphql_op : Type :=
| OrderByName (q : string)                    (* orders(first: 1, query: $q) *)
| OrderById (id : value)                      (* order(id: $id) *)
| TagsAdd (id : value) (tags : list string).  (* tagsAdd(id: $id, tags: $tags) *)

Inductive call : Type :=
| SealSearch (query : string) (token : string)
    (* GET .../subscriptions?query=<query>&active-only=false&page=1;
       [query] is the text that [encodeURIComponent] escapes *)
| SealGet (id : string) (token : string)
    (* GET .../subscription?id=<id> *)
| ShopifyGraphQL (shop version token : string) (op : graphql_op).
    (* POST https://<shop>/admin/api/<version>/graphql.json *)

Record http_response : Type := {
  status : Z;
  text : string
}.

(** [resp.ok] *)
Definition ok (r : http_response) : bool := (200 <=? status r) && (status r <=? 299).

Inductive fetch_result : Type :=
| Rejected                          (* the request or the body read failed *)
| Response (r : http_response).

(** One entry of the log: a call and what came back. *)
Definition exchange : Type := call * fetch_result.

(** ** What the endpoint receives and answers *)

Record request : Type := {
  req_body : value;                 (* [req.body] after [express.json] *)
  x_flow_secret : option string     (* [req.header('X-Flow-Secret')] *)
}.

Record context : Type := {
  shopDomain : value;
  orderId : value;
  orderName : value;
  customerId : value;
  email : value
}.

Record summary : Type := {
  sub_id : value;                   (* [id] *)
  billing_min_cycles : value
}.

(** One entry of [tagResults]: what [tagsAdd] returned, or
    [{ error: e.message || '... tagging failed' }] for the caught [e]. *)
Inductive tag_result : Type :=
| Written (r : value)
| Failed (e : exn).

Inductive response_body : Type :=
| ErrorBody (error : string) (details : option exn)
    (* [{ error }], with [details] and [stack] of the caught exception
       when [DEBUG_ERRORS] is on *)
| OkBody (shop_domain order_id order_name customer_id email_ : value)
         (subscriptions : list summary)
         (order_tags : tag_result) (customer_tags : option tag_result).

Record response : Type := {
  http_status : Z;
  body : response_body
}.

(** Whether the answer written by [res.json] has a [tagResults.customer]:
    [JSON.stringify] leaves out a property that was never assigned and one
    whose value is [undefined] (what [tagsAdd] returns for an answer
    without [data]). *)
Definition customer_entry_written (customer : option tag_result) : bool :=
  match customer with
  | None | Some (Written VUndef) => false
  | Some _ => true
  end.

(** [Array.from(new Set(tags))]: insertion order, first occurrence kept. *)
Definition Array_from_Set (tags : list string) : list string :=
  fold_left (fun seen t => if bool_decide (t ∈ seen) then seen else seen ++ [t]) tags [].

(** Lines 91-94 of the handler: [{ id: d.id, billing_min_cycles:
    d.billing_min_cycles ?? null }]. *)
Definition minimal_of (d : value) : outcome summary :=
  let? i := prop_strict d "id" in
  Return {| sub_id := i; billing_min_cycles := js_nullish (prop d "billing_min_cycles") VNull |}.

(** Lines 96-99 of the handler: the id tags, then the min-cycles tags of the
    summaries whose [billing_min_cycles != null]. *)
Definition deriveTags (minimal : list summary) : outcome (list string) :=
  let? ids := omap (fun m => let? i := to_string (sub_id m) in
                             Return ("seal_sub_id_" +:+ i)) minimal in
  let? cycles := omap (fun m => let? c := to_string (billing_min_cycles m) in
                                Return ("seal_min_cycles_" +:+ c))
                      (filter (fun m => not_nullish (billing_min_cycles m) = true) minimal) in
  Return (ids ++ cycles).

(** The two callbacks of [deriveTags], named. *)
Definition id_tag (m : summary) : outcome string :=
  let? i := to_string (sub_id m) in Return ("seal_sub_id_" +:+ i).

Definition cycles_tag (m : summary) : outcome string :=
  let? c := to_string (billing_min_cycles m) in Return ("seal_min_cycles_" +:+ c).

(** [Promise.all]: the values when every promise fulfilled, otherwise a
    rejection (the model reports the first one in list order). *)
Fixpoint Promise_all {A : Type} (ps : list (outcome A)) : outcome (list A) :=
  match ps with
  | [] => Return []
  | Throw e :: _ => Throw e
  | Return a :: rest =>
      match Promise_all rest with
      | Return l => Return (a :: l)
      | Throw e => Throw e
      end
  end.

(** ** The health route and the seal-only variant: data *)

(** [GET /health] of the full server: the configured shops, and per region
    code whether the Seal and the Shopify token are set. *)
Record health_body : Type := {
  health_ok : bool;
  health_shops : list (option string);
  health_sealConfigured : list (string * bool);      (* [{ [code]: Boolean(token) }] *)
  health_shopifyConfigured : list (string * bool)
}.

Definition health (env : process_env) : health_body :=
  {| health_ok := true;
     health_shops := map shop (regions env);
     health_sealConfigured := map (fun r => (code r, configured (sealToken r))) (regions env);
     health_shopifyConfigured :=
       map (fun r => (code r, configured (shopifyToken r))) (regions env) |}.

(** The number of UTF-16 units of a string, read off its UTF-8 bytes: one
    per character, two for a character of four bytes. *)
Definition utf16_units_of_byte (c : ascii) : nat :=
  let n := N_of_ascii c in
  if (n <? 128)%N then 1%nat
  else if (n <? 192)%N then 0%nat
  else if (n <? 240)%N then 1%nat
  else 2%nat.

Fixpoint utf16_units (s : string) : nat :=
  match s with
  | String c rest => (utf16_units_of_byte c + utf16_units rest)%nat
  | EmptyString => 0%nat
  end.

(** [v.length] of a value that is neither [null] nor [undefined]. *)
Definition js_length (v : value) : value :=
  match v with
  | VArr items => VNum (Z.of_nat (length items))
  | VStr s => VNum (Z.of_nat (utf16_units s))
  | VObj fields => default VUndef (assoc "length" fields)
  | _ => VUndef
  end.

(** [s.toLowerCase()] on the letters A-Z.  No other character lowers to a
    letter of ["true"], the one text the result is compared with. *)
Definition lower_ascii (c : ascii) : ascii :=
  let n := N_of_ascii c in
  if ((65 <=? n) && (n <=? 90))%N then ascii_of_N (n + 32) else c.

Fixpoint toLowerCase (s : string) : string :=
  match s with
  | String c rest => String (lower_ascii c) (toLowerCase rest)
  | EmptyString => EmptyString
  end.

(** The seal-only variant reads the same shop, token and secret variables;
    its regions are the [regions] above with [token] for [sealToken] and
    [secret] for [flowSecret].  [debug]: [(DEBUG_ERRORS || '').toLowerCase()
    === 'true'], with ['false'] for an unset variable. *)
Definition SealOnly_debug (env : process_env) : bool :=
  String.eqb (toLowerCase (default "false" (DEBUG_ERRORS env))) "true".

(** What [errRes] may attach as [details]. *)
Inductive seal_details : Type :=
| DetailValue (v : value)            (* the offending [shopDomain], the region code *)
| DetailUpstream (text : string)     (* [text.slice(0, 500)] of this upstream body *)
| DetailStack (e : exn).             (* [e.stack || String(e)] *)

(** Truthiness of what is passed as [details]. *)
Definition details_truthy (d : seal_details) : bool :=
  match d with
  | DetailValue v => truthy v
  | DetailUpstream text => negb (String.eqb text "")
  | DetailStack _ => true
  end.

Inductive seal_body : Type :=
| SealError (error : string) (details : option seal_details)
| SealOk (shop_domain order_id email_ count subscriptions : value).

Record seal_response : Type := {
  seal_status : Z;
  seal_payload : seal_body
}.

(** [errRes(res, code, msg, details)]: [details] only in debug mode, and
    only when truthy. *)
Definition errRes (env : process_env) (code : Z) (msg : string)
    (details : option seal_details) : seal_response :=
  {| seal_status := code;
     seal_payload :=
       SealError msg
         (match details with
          | Some d => if SealOnly_debug env && details_truthy d then Some d else None
          | None => None
          end) |}.

(** [isValidShop] of the seal-only variant: [test(String(s || ''))]. *)
Definition SealOnly_isValidShop (s : value) : outcome bool :=
  let? str := to_string (js_or s (VStr "")) in
  Return (shop_regex_test str).

(** ** Sample data

    A configured UK shop, the request of the specification's end-to-end
    example, and remote sides that answer with fixed bodies.  [sample_parse]
    agrees with [JSON.parse] on the bodies those remote sides send. *)

Definition dq : string := String (ascii_of_nat 34) EmptyString.
Definition quoted (s : string) : string := dq +:+ s +:+ dq.

Definition sample_env : process_env := {|
  SHOP_DOMAIN_UK := Some "shop-uk.myshopify.com";
  SHOP_DOMAIN_EU := None;
  SHOP_DOMAIN_US := None;
  SEAL_SUBS_TOKEN_UK := Some "seal-uk";
  SEAL_SUBS_TOKEN_EU := None;
  SEAL_SUBS_TOKEN_US := None;
  SEAL_SUBS_SECRET_UK := Some "S";
  SEAL_SUBS_SECRET_EU := None;
  SEAL_SUBS_SECRET_US := None;
  SHOPIFY_ACCESS_TOKEN_UK := Some "shpat-uk";
  SHOPIFY_ACCESS_TOKEN_EU := None;
  SHOPIFY_ACCESS_TOKEN_US := None;
  SHOPIFY_ADMIN_API_VERSION := None;
  DEBUG_ERRORS := None
|}.

Definition sample_body : value :=
  VObj [("shopDomain", VStr "shop-uk.myshopify.com");
        ("orderId", VStr "gid://Order/1");
        ("orderName", VStr "#1001");
        ("customerId", VStr "gid://Customer/9");
        ("email", VStr "a@b.com")].

Definition sample_request : request :=
  {| req_body := sample_body; x_flow_secret := Some "S" |}.

(** [[{"id":77}]] *)
Definition text_stubs : string := "[{" +:+ quoted "id" +:+ ":77}]".
(** [{"id":77,"billing_min_cycles":3}] *)
Definition text_detail : string :=
  "{" +:+ quoted "id" +:+ ":77," +:+ quoted "billing_min_cycles" +:+ ":3}".
(** [{"data":{"tagsAdd":{"userErrors":[]}}}] *)
Definition text_tagged : string :=
  "{" +:+ quoted "data" +:+ ":{" +:+ quoted "tagsAdd" +:+ ":{" +:+ quoted "userErrors"
  +:+ ":[]}}}".
(** [{"data":{"orders":{"nodes":[{"id":"gid://Order/1","name":"#1001",
    "email":"new@b.com","customer":{"id":"gid://Customer/5"}}]}}}] *)
Definition text_found : string :=
  "{" +:+ quoted "data" +:+ ":{" +:+ quoted "orders" +:+ ":{" +:+ quoted "nodes" +:+ ":[{"
  +:+ quoted "id" +:+ ":" +:+ quoted "gid://Order/1" +:+ ","
  +:+ quoted "name" +:+ ":" +:+ quoted "#1001" +:+ ","
  +:+ quoted "email" +:+ ":" +:+ quoted "new@b.com" +:+ ","
  +:+ quoted "customer" +:+ ":{" +:+ quoted "id" +:+ ":" +:+ quoted "gid://Customer/5"
  +:+ "}}]}}}".
(** [{"data":{"order":null}}] *)
Definition text_no_order : string :=
  "{" +:+ quoted "data" +:+ ":{" +:+ quoted "order" +:+ ":null}}".

Definition found_order : value :=
  VObj [("id", VStr "gid://Order/1"); ("name", VStr "#1001"); ("email", VStr "new@b.com");
        ("customer", VObj [("id", VStr "gid://Customer/5")])].

Definition sample_parse (s : string) : option value :=
  if String.eqb s "[]" then Some (VArr [])
  else if String.eqb s text_stubs then Some (VArr [VObj [("id", VNum 77)]])
  else if String.eqb s text_detail
  then Some (VObj [("id", VNum 77); ("billing_min_cycles", VNum 3)])
  else if String.eqb s text_tagged
  then Some (VObj [("data", VObj [("tagsAdd", VObj [("userErrors", VArr [])])])])
  else if String.eqb s text_found
  then Some (VObj [("data", VObj [("orders", VObj [("nodes", VArr [found_order])])])])
  else if String.eqb s text_no_order
  then Some (VObj [("data", VObj [("order", VNull)])])
  else None.

Definition answer (code : Z) (t : string) : fetch_result :=
  Response {| status := code; text := t |}.

(** Every call succeeds: one subscription with three minimum cycles. *)
Definition sample_fetch (_ : list exchange) (c : call) : fetch_result :=
  match c with
  | SealSearch _ _ => answer 200 text_stubs
  | SealGet _ _ => answer 200 text_detail
  | ShopifyGraphQL _ _ _ (OrderByName _) => answer 200 text_found
  | ShopifyGraphQL _ _ _ (OrderById _) => answer 200 text_no_order
  | ShopifyGraphQL _ _ _ (TagsAdd _ _) => answer 200 text_tagged
  end.

(** The subscription search answers 200 with a page that is not JSON. *)
Definition html_search_fetch (h : list exchange) (c : call) : fetch_result :=
  match c with
  | SealSearch _ _ => answer 200 "<html>Bad gateway</html>"
  | _ => sample_fetch h c
  end.

(** The detail request is refused. *)
Definition broken_detail_fetch (h : list exchange) (c : call) : fetch_result :=
  match c with
  | SealGet _ _ => answer 503 "unavailable"
  | _ => sample_fetch h c
  end.

(** The tag write on the customer is rejected, the one on the order is not. *)
Definition broken_customer_fetch (h : list exchange) (c : call) : fetch_result :=
  match c with
  | ShopifyGraphQL _ _ _ (TagsAdd (VStr "gid://Customer/9") _) => Rejected
  | _ => sample_fetch h c
  end.

(** The admin API answers every query with a page that is not JSON. *)
Definition html_admin_fetch (h : list exchange) (c : call) : fetch_result :=
  match c with
  | ShopifyGraphQL _ _ _ _ => answer 200 "<html>Bad gateway</html>"
  | _ => sample_fetch h c
  end.

(** The UK shop with the text [undefined] as its secret. *)
Definition undefined_secret_env : process_env := {|
  SHOP_DOMAIN_UK := Some "shop-uk.myshopify.com";
  SHOP_DOMAIN_EU := None;
  SHOP_DOMAIN_US := None;
  SEAL_SUBS_TOKEN_UK := Some "seal-uk";
  SEAL_SUBS_TOKEN_EU := None;
  SEAL_SUBS_TOKEN_US := None;
  SEAL_SUBS_SECRET_UK := Some "undefined";
  SEAL_SUBS_SECRET_EU := None;
  SEAL_SUBS_SECRET_US := None;
  SHOPIFY_ACCESS_TOKEN_UK := Some "shpat-uk";
  SHOPIFY_ACCESS_TOKEN_EU := None;
  SHOPIFY_ACCESS_TOKEN_US := None;
  SHOPIFY_ADMIN_API_VERSION := None;
  DEBUG_ERRORS := None
|}.

Definition undefined_secret_region : region :=
  {| code := "UK"; shop := Some "shop-uk.myshopify.com"; sealToken := Some "seal-uk";
     flowSecret := Some "undefined"; shopifyToken := Some "shpat-uk" |}.

(** The sample request without its [X-Flow-Secret] header. *)
Definition headerless_request : request :=
  {| req_body := sample_body; x_flow_secret := None |}.

(** A request that names the order but carries no order id. *)
Definition named_order_body : value :=
  VObj [("shopDomain", VStr "shop-uk.myshopify.com");
        ("orderName", VStr "1001");
        ("customerId", VStr "gid://Customer/9");
        ("email", VStr "a@b.com")].

Definition named_order_request : request :=
  {| req_body := named_order_body; x_flow_secret := Some "S" |}.

(** The same as a partial context, what the lookup by name makes of it
    against [sample_fetch], and the log of that lookup. *)
Definition partial_by_name : context :=
  {| shopDomain := VStr "shop-uk.myshopify.com";
     orderId := VUndef;
     orderName := VStr "1001";
     customerId := VStr "gid://Customer/9";
     email := VStr "a@b.com" |}.

Definition resolved_by_name : context :=
  {| shopDomain := VStr "shop-uk.myshopify.com";
     orderId := VStr "gid://Order/1";
     orderName := VStr "#1001";
     customerId := VStr "gid://Customer/5";
     email := VStr "new@b.com" |}.

Definition by_name_log : list exchange :=
  [(ShopifyGraphQL "shop-uk.myshopify.com" "2025-07" "shpat-uk" (OrderByName "name:#1001"),
    answer 200 text_found)].

(** Two subscriptions that share three minimum cycles, and one without. *)
Definition sub_77 : summary := {| sub_id := VNum 77; billing_min_cycles := VNum 3 |}.
Definition sub_78 : summary := {| sub_id := VNum 78; billing_min_cycles := VNum 3 |}.
Definition sub_79 : summary := {| sub_id := VNum 79; billing_min_cycles := VNull |}.

(** The UK and the US variable name the same shop. *)
Definition shared_domain_env : process_env := {|
  SHOP_DOMAIN_UK := Some "shop.myshopify.com";
  SHOP_DOMAIN_EU := None;
  SHOP_DOMAIN_US := Some "shop.myshopify.com";
  SEAL_SUBS_TOKEN_UK := Some "seal-uk";
  SEAL_SUBS_TOKEN_EU := None;
  SEAL_SUBS_TOKEN_US := Some "seal-us";
  SEAL_SUBS_SECRET_UK := None;
  SEAL_SUBS_SECRET_EU := None;
  SEAL_SUBS_SECRET_US := None;
  SHOPIFY_ACCESS_TOKEN_UK := Some "shpat-uk";
  SHOPIFY_ACCESS_TOKEN_EU := None;
  SHOPIFY_ACCESS_TOKEN_US := Some "shpat-us";
  SHOPIFY_ADMIN_API_VERSION := None;
  DEBUG_ERRORS := None
|}.

Definition sample_region : region :=
  {| code := "UK"; shop := Some "shop-uk.myshopify.com"; sealToken := Some "seal-uk";
     flowSecret := Some "S"; shopifyToken := Some "shpat-uk" |}.

(** The lookup by name finds an order without customer and email; the
    fetch by id that follows returns the order under another name.
    [{"data":{"orders":{"nodes":[{"id":"gid://Order/1","name":"#1001"}]}}}]
    and [{"data":{"order":{"id":"gid://Order/1","name":"#1001-A",
    "customer":{"id":"gid://Customer/5"}}}}]. *)
Definition text_bare : string :=
  "{" +:+ quoted "data" +:+ ":{" +:+ quoted "orders" +:+ ":{" +:+ quoted "nodes" +:+ ":[{"
  +:+ quoted "id" +:+ ":" +:+ quoted "gid://Order/1" +:+ ","
  +:+ quoted "name" +:+ ":" +:+ quoted "#1001" +:+ "}]}}}".
Definition text_renamed : string :=
  "{" +:+ quoted "data" +:+ ":{" +:+ quoted "order" +:+ ":{"
  +:+ quoted "id" +:+ ":" +:+ quoted "gid://Order/1" +:+ ","
  +:+ quoted "name" +:+ ":" +:+ quoted "#1001-A" +:+ ","
  +:+ quoted "customer" +:+ ":{" +:+ quoted "id" +:+ ":" +:+ quoted "gid://Customer/5"
  +:+ "}}}}".

Definition found_bare : value :=
  VObj [("id", VStr "gid://Order/1"); ("name", VStr "#1001")].

Definition got_renamed : value :=
  VObj [("id", VStr "gid://Order/1"); ("name", VStr "#1001-A");
        ("customer", VObj [("id", VStr "gid://Customer/5")])].

Definition renamed_parse (s : string) : option value :=
  if String.eqb s text_bare
  then Some (VObj [("data", VObj [("orders", VObj [("nodes", VArr [found_bare])])])])
  else if String.eqb s text_renamed
  then Some (VObj [("data", VObj [("order", got_renamed)])])
  else sample_parse s.

Definition renamed_fetch (h : list exchange) (c : call) : fetch_result :=
  match c with
  | ShopifyGraphQL _ _ _ (OrderByName _) => answer 200 text_bare
  | ShopifyGraphQL _ _ _ (OrderById _) => answer 200 text_renamed
  | _ => sample_fetch h c
  end.

Definition partial_without_customer : context :=
  {| shopDomain := VStr "shop-uk.myshopify.com";
     orderId := VUndef;
     orderName := VStr "1001";
     customerId := VUndef;
     email := VStr "a@b.com" |}.

Definition resolved_and_renamed : context :=
  {| shopDomain := VStr "shop-uk.myshopify.com";
     orderId := VStr "gid://Order/1";
     orderName := VStr "#1001-A";
     customerId := VStr "gid://Customer/5";
     email := VStr "a@b.com" |}.

Definition renamed_log : list exchange :=
  [(ShopifyGraphQL "shop-uk.myshopify.com" "2025-07" "shpat-uk" (OrderByName "name:#1001"),
    answer 200 text_bare);
   (ShopifyGraphQL "shop-uk.myshopify.com" "2025-07" "shpat-uk"
      (OrderById (VStr "gid://Order/1")),
    answer 200 text_renamed)].

(** The admin API answers every tag write 200 with [{}]: no [data], no
    [errors]. *)
Definition dataless_parse (s : string) : option value :=
  if String.eqb s "{}" then Some (VObj []) else sample_parse s.

Definition dataless_fetch (h : list exchange) (c : call) : fetch_result :=
  match c with
  | ShopifyGraphQL _ _ _ (TagsAdd _ _) => answer 200 "{}"
  | _ => sample_fetch h c
  end.

(** The UK variable names a shop on a domain of its own. *)
Definition custom_domain_env : process_env := {|
  SHOP_DOMAIN_UK := Some "shop.example.com";
  SHOP_DOMAIN_EU := None;
  SHOP_DOMAIN_US := None;
  SEAL_SUBS_TOKEN_UK := Some "seal-uk";
  SEAL_SUBS_TOKEN_EU := None;
  SEAL_SUBS_TOKEN_US := None;
  SEAL_SUBS_SECRET_UK := Some "S";
  SEAL_SUBS_SECRET_EU := None;
  SEAL_SUBS_SECRET_US := None;
  SHOPIFY_ACCESS_TOKEN_UK := Some "shpat-uk";
  SHOPIFY_ACCESS_TOKEN_EU := None;
  SHOPIFY_ACCESS_TOKEN_US := None;
  SHOPIFY_ADMIN_API_VERSION := None;
  DEBUG_ERRORS := None
|}.

Definition custom_domain_request : request :=
  {| req_body := VObj [("shopDomain", VStr "shop.example.com");
                       ("orderId", VStr "gid://Order/1");
                       ("email", VStr "a@b.com")];
     x_flow_secret := Some "S" |}.

(** Two subscriptions, 77 and 78, both with three minimum cycles:
    [[{"id":77},{"id":78}]] and [{"id":78,"billing_min_cycles":3}]. *)
Definition text_two_stubs : string :=
  "[{" +:+ quoted "id" +:+ ":77},{" +:+ quoted "id" +:+ ":78}]".
Definition text_detail_78 : string :=
  "{" +:+ quoted "id" +:+ ":78," +:+ quoted "billing_min_cycles" +:+ ":3}".

Definition two_subs_parse (s : string) : option value :=
  if String.eqb s text_two_stubs
  then Some (VArr [VObj [("id", VNum 77)]; VObj [("id", VNum 78)]])
  else if String.eqb s text_detail_78
  then Some (VObj [("id", VNum 78); ("billing_min_cycles", VNum 3)])
  else sample_parse s.

Definition two_subs_fetch (h : list exchange) (c : call) : fetch_result :=
  match c with
  | SealSearch _ _ => answer 200 text_two_stubs
  | SealGet "78" _ => answer 200 text_detail_78
  | _ => sample_fetch h c
  end.

Definition us_region : region :=
  {| code := "US"; shop := Some "shop.myshopify.com"; sealToken := Some "seal-us";
     flowSecret := None; shopifyToken := Some "shpat-us" |}.

(** The shop domain sent as a one-element array: its text is the domain. *)
Definition array_shop_request : request :=
  {| req_body := VObj [("shopDomain", VArr [VStr "shop-uk.myshopify.com"]);
                       ("orderId", VStr "gid://Order/1");
                       ("email", VStr "a@b.com")];
     x_flow_secret := Some "S" |}.

(** Neither an order id nor an order name. *)
Definition unnamed_order_request : request :=
  {| req_body := VObj [("shopDomain", VStr "shop-uk.myshopify.com");
                       ("email", VStr "a@b.com")];
     x_flow_secret := Some "S" |}.

(** The order name sent as a number. *)
Definition numeric_name_request : request :=
  {| req_body := VObj [("shopDomain", VStr "shop-uk.myshopify.com");
                       ("orderName", VNum 1001);
                       ("email", VStr "a@b.com")];
     x_flow_secret := Some "S" |}.

(** An order id and an email, no customer id. *)
Definition partial_by_id : context :=
  {| shopDomain := VStr "shop-uk.myshopify.com";
     orderId := VStr "gid://Order/1";
     orderName := VUndef;
     customerId := VUndef;
     email := VStr "a@b.com" |}.

(** The detail request is answered 200 with an empty body. *)
Definition empty_detail_fetch (h : list exchange) (c : call) : fetch_result :=
  match c with
  | SealGet _ _ => answer 200 ""
  | _ => sample_fetch h c
  end.

(** The subscription search is answered 429. *)
Definition limited_search_fetch (h : list exchange) (c : call) : fetch_result :=
  match c with
  | SealSearch _ _ => answer 429 "Too many requests"
  | _ => sample_fetch h c
  end.

Section Server.

Variable env : process_env.
(** [JSON.parse]: [None] when it throws. *)
Variable JSON_parse : string -> option value.
(** The remote side: its answer to a call, given the exchanges so far. *)
Variable fetch : list exchange -> call -> fetch_result.

(** A computation over the log of exchanges. *)
Definition M (A : Type) : Type := list exchange -> outcome A * list exchange.

Definition ret {A : Type} (a : A) : M A := fun h => (Return a, h).
Definition throw {A : Type} (e : exn) : M A := fun h => (Throw e, h).
Definition lift {A : Type} (o : outcome A) : M A := fun h => (o, h).

Definition bind {A B : Type} (m : M A) (k : A -> M B) : M B :=
  fun h => match m h with
           | (Return a, h') => k a h'
           | (Throw e, h') => (Throw e, h')
           end.

Notation "'let*' x ':=' m 'in' k" := (bind m (fun x => k))
  (at level 10, x name, m at level 100, k at level 200, only parsing).

(** [await fetch(url, ...)] followed by the body read. *)
Definition fetch_text (c : call) : M http_response :=
  fun h => (match fetch h c with
            | Rejected => Throw FetchRejected
            | Response r => Return r
            end, h ++ [(c, fetch h c)]).

(** Calling an async function without awaiting it: its calls are issued,
    its result is kept as a settled promise. *)
Definition start {A : Type} (m : M A) : M (outcome A) :=
  fun h => let (o, h') := m h in (Return o, h').

(** [try { x = await m } catch (e) { x = { error: ... } }] *)
Definition caught (m : M value) : M tag_result :=
  fun h => match m h with
           | (Return r, h') => (Return (Written r), h')
           | (Throw e, h') => (Return (Failed e), h')
           end.

(** *** Seal helpers *)

Definition safeJson (text : string) : value :=
  match JSON_parse text with
  | Some v => v
  | None => VObj []
  end.

Definition sealSearchByEmail (email : value) (sealToken : string) : M value :=
  let* query := lift (to_string email) in
  let* resp := fetch_text (SealSearch query sealToken) in
  if negb (ok resp) then throw (SealSearchFailed (status resp) (text resp))
  else
    let data := safeJson (text resp) in
    ret (match data with
         | VArr _ => data
         | _ => js_nullish (prop data "payload") (VArr [])
         end).

Definition sealGetById (id : value) (sealToken : string) : M value :=
  let* i := lift (to_string id) in
  let* resp := fetch_text (SealGet i sealToken) in
  if negb (ok resp) then throw (SealGetFailed id (status resp) (text resp))
  else
    let json := safeJson (text resp) in
    ret (js_or (prop json "payload") json).

(** *** Shopify helpers *)

Definition shopifyGraphQL (shop : value) (token : string) (op : graphql_op) : M value :=
  let* host := lift (to_string shop) in
  let* resp := fetch_text (ShopifyGraphQL host (api_version env) token op) in
  match JSON_parse (text resp) with
  | None => throw SyntaxError
  | Some json =>
      let* errors := lift (prop_strict json "errors") in
      if negb (ok resp) || truthy errors
      then throw (ShopifyGraphQLFailed errors (status resp))
      else ret (prop json "data")
  end.

Definition findOrderByName (shop : value) (token : string) (orderName : value) : M value :=
  match orderName with
  | VStr name =>
      let q := "name:" +:+ (if String.prefix "#" name then name else "#" +:+ name) in
      let* resp := shopifyGraphQL shop token (OrderByName q) in
      ret (js_or (item0 (prop (prop resp "orders") "nodes")) VNull)
  | _ => throw TypeError       (* [orderName.startsWith] is not a function *)
  end.

Definition getOrderById (shop : value) (token : string) (orderId : value) : M value :=
  let* resp := shopifyGraphQL shop token (OrderById orderId) in
  ret (js_or (prop resp "order") VNull).

Definition tagsAdd (shop : value) (token : string) (gid : value)
    (tags : option (list string)) : M value :=
  match tags with
  | None | Some [] => ret (VObj [("skipped", VStr "no tags to add")])
  | Some tags =>
      let* r := shopifyGraphQL shop token (TagsAdd gid (Array_from_Set tags)) in
      ret (js_or (prop r "tagsAdd") r)
  end.

Definition ensureOrderContext (partial : context) (shopifyToken : string) : M context :=
  let shopDomain := shopDomain partial in
  let orderId := orderId partial in
  let orderName := orderName partial in
  let customerId := customerId partial in
  let email := email partial in
  if truthy orderId && truthy customerId && truthy email && truthy orderName
  then ret {| shopDomain := shopDomain; orderId := orderId; orderName := orderName;
              customerId := customerId; email := email |}
  else
    (* If orderId missing but orderName present, look it up *)
    let* byName :=
      (if negb (truthy orderId) && truthy orderName
       then
         let* found := findOrderByName shopDomain shopifyToken orderName in
         ret (js_or (prop found "id") orderId,
              js_or (prop (prop found "customer") "id") customerId,
              js_or (prop found "email") email,
              js_or (prop found "name") orderName)
       else ret (orderId, customerId, email, orderName)) in
    let '(orderId, customerId, email, orderName) := byName in
    (* If still missing email or customer, fetch by id *)
    if (negb (truthy email) || negb (truthy customerId) || negb (truthy orderName))
       && truthy orderId
    then
      let* got := getOrderById shopDomain shopifyToken orderId in
      ret {| shopDomain := shopDomain;
             orderId := orderId;
             orderName := js_or (prop got "name") orderName;
             email := js_or email (js_or (prop got "email")
                        (js_or (prop (prop got "customer") "email") VNull));
             customerId := js_or customerId (js_or (prop (prop got "customer") "id") VNull) |}
    else ret {| shopDomain := shopDomain; orderId := orderId; orderName := orderName;
                customerId := customerId; email := email |}.

(** *** The route [POST /flow/order-created] *)

Definition respond (code : Z) (b : response_body) : response :=
  {| http_status := code; body := b |}.

(** [subs.map(s => sealGetById(s.id, token))]: every request is issued
    before any result is awaited; reading [s.id] of a [null] element
    throws out of [map]. *)
Fixpoint start_details (subs : list value) (sealToken : string) : M (list (outcome value)) :=
  match subs with
  | [] => ret []
  | s :: rest =>
      let* id := lift (prop_strict s "id") in
      let* p := start (sealGetById id sealToken) in
      let* ps := start_details rest sealToken in
      ret (p :: ps)
  end.

(** Step 3: [await Promise.all(subs.map(...))]; [subs.map] exists only
    on an array. *)
Definition fetch_details (subs : value) (sealToken : string) : M (list value) :=
  match subs with
  | VArr items =>
      let* ps := start_details items sealToken in
      lift (Promise_all ps)
  | _ => throw TypeError
  end.

(** Step 4 and the success response (lines 101-125). *)
Definition write_tags (shopDomain : value) (shopifyToken : string) (ensured : context)
    (minimal : list summary) (tags : list string) : M response :=
  let* order := caught (tagsAdd shopDomain shopifyToken (orderId ensured) (Some tags)) in
  let* customer :=
    (if truthy (customerId ensured)
     then
       let* r := caught (tagsAdd shopDomain shopifyToken (customerId ensured) (Some tags)) in
       ret (Some r)
     else ret None) in
  ret (respond 200
         (OkBody shopDomain (orderId ensured) (orderName ensured)
                 (js_or (customerId ensured) VNull) (email ensured)
                 minimal order customer)).

(** Steps 1-3 and the tag list (lines 74-99), for a resolved region. *)
Definition lookup_and_tag (req_ctx : context) (sealToken shopifyToken : string) : M response :=
  let* ensured := ensureOrderContext req_ctx shopifyToken in
  if negb (truthy (orderId ensured))
  then ret (respond 400 (ErrorBody "orderId (gid) required or resolvable" None))
  else if negb (truthy (email ensured))
  then ret (respond 400
              (ErrorBody "email required (send via Flow or resolvable from order)" None))
  else
    let* subs := sealSearchByEmail (email ensured) sealToken in
    let* details := fetch_details subs sealToken in
    let* minimal := lift (omap minimal_of details) in
    let* tags := lift (deriveTags minimal) in
    write_tags (shopDomain req_ctx) shopifyToken ensured minimal tags.

(** The body of the [try] block. *)
Definition order_created_try (req : request) : M response :=
  let body := js_or (req_body req) (VObj []) in
  let shopDomain := prop body "shopDomain" in
  let orderId := prop body "orderId" in
  let orderName := prop body "orderName" in
  let customerId := prop body "customerId" in
  let email := prop body "email" in
  let* valid := lift (if truthy shopDomain then isValidShop shopDomain else Return false) in
  if negb valid
  then ret (respond 400 (ErrorBody "Missing or invalid shopDomain" None))
  else
    match byShop_get env shopDomain with
    | None =>
        let* name := lift (to_string shopDomain) in
        ret (respond 400 (ErrorBody ("Shop not recognized: " +:+ name) None))
    | Some region =>
        (* Optional shared-secret check *)
        let secretHdr := x_flow_secret req in
        let* bad :=
          lift (if configured (flowSecret region)
                then let? same := tscEquals secretHdr (default "" (flowSecret region)) in
                     Return (negb same)
                else Return false) in
        if bad then ret (respond 401 (ErrorBody "Bad X-Flow-Secret" None))
        else if negb (configured (sealToken region))
        then ret (respond 500 (ErrorBody "Seal token not configured for shop" None))
        else if negb (configured (shopifyToken region))
        then ret (respond 500 (ErrorBody "Shopify token not configured for shop" None))
        else
          lookup_and_tag
            {| shopDomain := shopDomain; orderId := orderId; orderName := orderName;
               customerId := customerId; email := email |}
            (default "" (sealToken region)) (default "" (shopifyToken region))
    end.

(** The route: whatever the [try] block throws becomes a 500. *)
Definition flow_order_created (req : request) (h : list exchange) :
    response * list exchange :=
  match order_created_try req h with
  | (Return res, h') => (res, h')
  | (Throw err, h') =>
      (respond 500 (ErrorBody "Server error" (if debug_errors env then Some err else None)), h')
  end.

(** *** Reading the log *)

(** Every exchange a computation adds to the log satisfies [P]. *)
Definition extends {A : Type} (P : exchange -> Prop) (m : M A) : Prop :=
  forall h, exists new, snd (m h) = h ++ new /\ Forall P new.

(** If a computation adds an exchange satisfying [Q], its outcome
    satisfies [G]. *)
Definition guarantees {A : Type} (Q : exchange -> Prop) (G : outcome A -> Prop)
    (m : M A) : Prop :=
  forall h, exists new, snd (m h) = h ++ new /\ (Exists Q new -> G (fst (m h))).

Definition throws {A : Type} (o : outcome A) : Prop := exists e, o = Throw e.

(** The calls each stage of the route issues. *)
Definition is_order_query (c : call) : Prop :=
  match c with
  | ShopifyGraphQL _ _ _ (OrderByName _) | ShopifyGraphQL _ _ _ (OrderById _) => True
  | _ => False
  end.

Definition is_seal_search (c : call) : Prop :=
  match c with
  | SealSearch _ _ => True
  | _ => False
  end.

Definition is_seal_get (c : call) : Prop :=
  match c with
  | SealGet _ _ => True
  | _ => False
  end.

(** A tag write that sends the deduplicated form of [tags]. *)
Definition sends_tags (tags : list string) (c : call) : Prop :=
  match c with
  | ShopifyGraphQL _ _ _ (TagsAdd _ sent) => sent = Array_from_Set tags
  | _ => False
  end.

(** How often a tag occurs in a list. *)
Definition occurrences (t : string) (l : list string) : nat :=
  length (filter (fun u => u = t) l).

(** The fields the route reads from the request body. *)
Definition body_field (req : request) (k : string) : value :=
  prop (js_or (req_body req) (VObj [])) k.

Definition request_context (req : request) : context :=
  {| shopDomain := body_field req "shopDomain";
     orderId := body_field req "orderId";
     orderName := body_field req "orderName";
     customerId := body_field req "customerId";
     email := body_field req "email" |}.

(** The header check of the route: no secret configured, or the header
    text (["undefined"] for a missing header) is the secret. *)
Definition secret_accepted (region : region) (req : request) : bool :=
  negb (configured (flowSecret region))
  || bool_decide (String_of_header (x_flow_secret req) = default "" (flowSecret region)).

(** What the [try]/[catch] around a tag write records for its outcome. *)
Definition settled (o : outcome value) : tag_result :=
  match o with
  | Return r => Written r
  | Throw e => Failed e
  end.

(** The two answers of the shop validation. *)
Definition invalid_shop_response : response :=
  respond 400 (ErrorBody "Missing or invalid shopDomain" None).

Definition unknown_shop_response (name : string) : response :=
  respond 400 (ErrorBody ("Shop not recognized: " +:+ name) None).

(** The route refuses the shop: one of the two answers above. *)
Definition shop_refusal (res : response) : Prop :=
  res = invalid_shop_response \/ exists name, res = unknown_shop_response name.

(** The generic failure answer of the route. *)
Definition server_error (res : response) : Prop :=
  exists details, res = respond 500 (ErrorBody "Server error" details).

(** The success answer: status 200 and the payload with the subscription
    summaries and the tag results. *)
Definition success (res : response) : Prop :=
  exists sd oi on ci em subs order customer,
    res = respond 200 (OkBody sd oi on ci em subs order customer).

Definition returns_success (o : outcome response) : Prop :=
  exists res, o = Return res /\ success res.

(** The exchanges of a tag write carry a duplicate-free tag list. *)
Definition distinct_tags (x : exchange) : Prop :=
  match fst x with
  | ShopifyGraphQL _ _ _ (TagsAdd _ tags) => NoDup tags
  | _ => True
  end.

(** A detail request that was rejected or answered outside 2xx. *)
Definition failed_detail (x : exchange) : Prop :=
  match x with
  | (SealGet _ _, Rejected) => True
  | (SealGet _ _, Response r) => ok r = false
  | _ => False
  end.

Definition is_tag_write (x : exchange) : Prop :=
  match fst x with
  | ShopifyGraphQL _ _ _ (TagsAdd _ _) => True
  | _ => False
  end.

Definition skipped : value := VObj [("skipped", VStr "no tags to add")].

(** A subscription search answered 2xx with a body [JSON.parse] refuses. *)
Definition unparseable_search_page (x : exchange) : Prop :=
  match x with
  | (SealSearch _ _, Response r) => ok r = true /\ JSON_parse (text r) = None
  | _ => False
  end.

(** The success answer for a customer without subscriptions: an empty
    list, and tag writes that were skipped. *)
Definition returns_empty_success (o : outcome response) : Prop :=
  exists sd oi on ci em customer,
    o = Return (respond 200 (OkBody sd oi on ci em [] (Written skipped) customer))
    /\ (customer = None \/ customer = Some (Written skipped)).

(** An admin-API answer whose body [JSON.parse] refuses. *)
Definition malformed_answer (x : exchange) : Prop :=
  match x with
  | (ShopifyGraphQL _ _ _ _, Response r) => JSON_parse (text r) = None
  | _ => False
  end.

(** An order query of the context resolver answered with a body that
    [JSON.parse] refuses. *)
Definition malformed_order_answer (x : exchange) : Prop :=
  match x with
  | (ShopifyGraphQL _ _ _ (OrderByName _), Response r) => JSON_parse (text r) = None
  | (ShopifyGraphQL _ _ _ (OrderById _), Response r) => JSON_parse (text r) = None
  | _ => False
  end.

(** A tag write answered with a body that [JSON.parse] refuses. *)
Definition malformed_tag_answer (x : exchange) : Prop :=
  match x with
  | (ShopifyGraphQL _ _ _ (TagsAdd _ _), Response r) => JSON_parse (text r) = None
  | _ => False
  end.

(** The two order queries of the context resolver. *)
Definition is_by_name (x : exchange) : Prop :=
  match fst x with
  | ShopifyGraphQL _ _ _ (OrderByName _) => True
  | _ => False
  end.

Definition is_by_id (x : exchange) : Prop :=
  match fst x with
  | ShopifyGraphQL _ _ _ (OrderById _) => True
  | _ => False
  end.

(** What [sealGetById] makes of a 2xx answer: the payload of an envelope,
    or the whole body. *)
Definition unwrap_detail (r : http_response) : value :=
  js_or (prop (safeJson (text r)) "payload") (safeJson (text r)).

(** The summary of a detail record without an id. *)
Definition nameless_summary : summary :=
  {| sub_id := VUndef; billing_min_cycles := VNull |}.

(** A call that carries the credentials of region [r] to where they
    belong: the Seal token to the Seal API, the admin token to the shop's own
    host [s]. *)
Definition routed (s : string) (r : region) (x : exchange) : Prop :=
  match fst x with
  | SealSearch _ t | SealGet _ t => Some t = sealToken r
  | ShopifyGraphQL host version t _ =>
      host = s /\ version = api_version env /\ Some t = shopifyToken r
  end.

(** The request passed validation, resolution, the secret check and the
    credential checks for shop [s] and region [r]. *)
Definition admitted (req : request) (s : string) (r : region) : Prop :=
  body_field req "shopDomain" = VStr s
  /\ shop_pattern s
  /\ byShop env !! s = Some r
  /\ secret_accepted r req = true
  /\ configured (sealToken r) = true
  /\ configured (shopifyToken r) = true.

(** The order in which the route talks to the two APIs. *)
Definition in_phases (new : list exchange) : Prop :=
  exists queries searches details writes,
    new = queries ++ searches ++ details ++ writes
    /\ Forall (fun x => is_order_query (fst x)) queries /\ (length queries <= 2)%nat
    /\ Forall (fun x => is_seal_search (fst x)) searches /\ (length searches <= 1)%nat
    /\ Forall (fun x => is_seal_get (fst x)) details
    /\ Forall is_tag_write writes /\ (length writes <= 2)%nat.

(** *** The seal-only variant: [POST /flow/order-created] *)

(** [safeJson] of the seal-only variant: [null] for a body that does not
    parse. *)
Definition SealOnly_safeJson (txt : string) : value :=
  match JSON_parse txt with
  | Some v => v
  | None => VNull
  end.

(** [timedFetch] and the body read: a request that is aborted after the
    timeout is a rejected one. *)
Definition timedFetch (c : call) : M http_response := fetch_text c.

(** The search of the seal-only route and its answer (the lines after the
    checks). *)
Definition SealOnly_search (shopDomain orderId email : value) (token : string) :
    M seal_response :=
  let* query := lift (to_string email) in
  let* r := timedFetch (SealSearch query token) in
  if negb (ok r)
  then ret (errRes env (status r) "Seal search error" (Some (DetailUpstream (text r))))
  else
    (* API may return an array or { payload: [...] } *)
    let parsed := js_nullish (SealOnly_safeJson (text r)) (VObj []) in
    let items := match parsed with
                 | VArr _ => parsed
                 | _ => js_nullish (prop parsed "payload") (VArr [])
                 end in
    ret {| seal_status := 200;
           seal_payload := SealOk shopDomain orderId email (js_length items) items |}.

(** The header check of the seal-only route. *)
Definition SealOnly_secret_accepted (region : region) (req : request) : bool :=
  negb (configured (flowSecret region))
  || bool_decide (default "" (x_flow_secret req) = default "" (flowSecret region)).

(** The body of the [try] block of the seal-only route. *)
Definition SealOnly_try (req : request) : M seal_response :=
  let body := js_or (req_body req) (VObj []) in
  let shopDomain := prop body "shopDomain" in
  let orderId := prop body "orderId" in
  let email := prop body "email" in
  let* valid :=
    lift (if truthy shopDomain then SealOnly_isValidShop shopDomain else Return false) in
  if negb valid
  then ret (errRes env 400 "Missing/invalid shopDomain" (Some (DetailValue shopDomain)))
  else
    match byShop_get env shopDomain with
    | None =>
        let* name := lift (to_string shopDomain) in
        ret (errRes env 400 ("Shop not recognized: " +:+ name) None)
    | Some region =>
        (* optional shared-secret check *)
        let* bad :=
          lift (if configured (flowSecret region)
                then let? same := tscEq (x_flow_secret req) (default "" (flowSecret region)) in
                     Return (negb same)
                else Return false) in
        if bad then ret (errRes env 401 "Bad X-Flow-Secret" None)
        else if negb (truthy email) then ret (errRes env 400 "Missing email" None)
        else if negb (configured (sealToken region))
        then ret (errRes env 500 "Seal token not configured for shop"
                    (Some (DetailValue (VStr (code region)))))
        else SealOnly_search shopDomain orderId email (default "" (sealToken region))
    end.

(** The seal-only route: whatever the [try] block throws becomes a 500. *)
Definition SealOnly_flow_order_created (req : request) (h : list exchange) :
    seal_response * list exchange :=
  match SealOnly_try req h with
  | (Return res, h') => (res, h')
  | (Throw e, h') => (errRes env 500 "Server error" (Some (DetailStack e)), h')
  end.

(** * Properties *)

(** ** Values *)

Example to_string_array :
  to_string (VArr [VNum 1; VNull; VStr "a"; VArr [VNum 2; VNum 3]]) = Return "1,,a,2,3".
Proof. vm_compute. reflexivity. Qed.

Example to_string_own_toString :
  to_string (VArr [VNum 1; VObj [("toString", VNum 1)]]) = Throw TypeError.
Proof. reflexivity. Qed.

Lemma js_or_left (a b : value) : truthy a = true -> js_or a b = a.
Proof. intros Ha. unfold js_or. now rewrite Ha. Qed.

Lemma js_or_right (a b : value) : truthy a = false -> js_or a b = b.
Proof. intros Ha. unfold js_or. now rewrite Ha. Qed.

Lemma js_or_truthy_l (a b : value) : truthy a = true -> truthy (js_or a b) = true.
Proof. intros Ha. now rewrite js_or_left. Qed.

Lemma js_or_truthy_r (a b : value) : truthy b = true -> truthy (js_or a b) = true.
Proof. intros Hb. unfold js_or. destruct (truthy a) eqn:Ha; assumption. Qed.

Lemma prop_nullish (k : string) : prop VNull k = VUndef /\ prop VUndef k = VUndef.
Proof. split; reflexivity. Qed.

(** ** The secret comparison *)

Lemma or_empty_id (s : string) : or_empty s = s.
Proof.
  unfold or_empty. destruct (String.eqb s "") eqn:E; [|reflexivity].
  apply String.eqb_eq in E. now subst.
Qed.

Lemma Buffer_from_inj (s t : string) : Buffer_from s = Buffer_from t -> s = t.
Proof.
  unfold Buffer_from. intros E.
  rewrite <- (string_of_list_ascii_of_string s), <- (string_of_list_ascii_of_string t).
  now rewrite E.
Qed.

Lemma bytes_equal (A B : list ascii) :
  length A = length B ->
  forallb (fun p => Ascii.eqb (fst p) (snd p)) (combine A B) = true <-> A = B.
Proof.
  revert B. induction A as [|a A IH]; intros [|b B] Hlen; simpl in *; try discriminate.
  - tauto.
  - injection Hlen as Hlen. rewrite andb_true_iff, Ascii.eqb_eq, (IH B Hlen).
    split; [intros [-> ->]; reflexivity | intros E; now inversion E].
Qed.

(** [tscEquals] never throws, and answers whether the header text (the
    text ["undefined"] for a missing header) is the secret. *)
Lemma tscEquals_spec (a : option string) (b : string) :
  tscEquals a b = Return (bool_decide (String_of_header a = b)).
Proof.
  unfold tscEquals, timingSafeEqual. rewrite !or_empty_id.
  destruct (length (Buffer_from (String_of_header a)) =? length (Buffer_from b))%nat eqn:L.
  - apply Nat.eqb_eq in L. f_equal.
    destruct (forallb _ _) eqn:F.
    + apply bytes_equal in F; [|exact L]. apply Buffer_from_inj in F.
      symmetry. now apply bool_decide_eq_true.
    + symmetry. apply bool_decide_eq_false. intros E.
      assert (forallb (fun p => Ascii.eqb (fst p) (snd p))
                (combine (Buffer_from (String_of_header a)) (Buffer_from b)) = true) as F'
        by (apply bytes_equal; [exact L | now rewrite E]).
      congruence.
  - f_equal. symmetry. apply bool_decide_eq_false. intros E.
    rewrite E, Nat.eqb_refl in L. discriminate.
Qed.

(** The seal-only variant refuses a missing header for every secret. *)
Lemma tscEq_spec (a : option string) (b : string) :
  tscEq a b = Return (bool_decide (default "" a = b)).
Proof.
  unfold tscEq, timingSafeEqual.
  destruct (length (Buffer_from (default "" a)) =? length (Buffer_from b))%nat eqn:L.
  - apply Nat.eqb_eq in L. f_equal.
    destruct (forallb _ _) eqn:F.
    + apply bytes_equal in F; [|exact L]. apply Buffer_from_inj in F.
      symmetry. now apply bool_decide_eq_true.
    + symmetry. apply bool_decide_eq_false. intros E.
      assert (forallb (fun p => Ascii.eqb (fst p) (snd p))
                (combine (Buffer_from (default "" a)) (Buffer_from b)) = true) as F'
        by (apply bytes_equal; [exact L | now rewrite E]).
      congruence.
  - f_equal. symmetry. apply bool_decide_eq_false. intros E.
    rewrite E, Nat.eqb_refl in L. discriminate.
Qed.

Lemma tscEq_missing_header (b : string) : b <> "" -> tscEq None b = Return false.
Proof.
  intros Hb. rewrite tscEq_spec. f_equal. apply bool_decide_eq_false.
  simpl. congruence.
Qed.

(** The variant under study accepts it for one secret. *)
Lemma tscEquals_missing_header (b : string) :
  tscEquals None b = Return (bool_decide (b = "undefined")).
Proof.
  rewrite tscEquals_spec. f_equal. simpl.
  apply bool_decide_ext. split; congruence.
Qed.

(** ** The shop pattern *)

Example shop_regex_examples :
  shop_regex_test "shop-uk.myshopify.com" = true
  /\ shop_regex_test "Shop.myshopify.com" = false
  /\ shop_regex_test ".myshopify.com" = false
  /\ shop_regex_test "a.b.myshopify.com" = false
  /\ shop_regex_test "a.myshopify.com.evil.example" = false
  /\ shop_regex_test "amyshopify.com" = false.
Proof. repeat split. Qed.

Lemma skip_label_app (label rest : string) :
  all_label label = true -> skip_label (label +:+ rest) = skip_label rest.
Proof.
  induction label as [|c label IH]; simpl; [reflexivity|].
  intros H. apply andb_true_iff in H as [Hc Hl]. rewrite Hc. now apply IH.
Qed.

Lemma skip_label_split (s : string) :
  exists label, all_label label = true /\ s = label +:+ skip_label s.
Proof.
  induction s as [|c s [label [Hl Hs]]]; simpl.
  - now exists "".
  - destruct (label_char c) eqn:Hc.
    + exists (String c label). split; [simpl; now rewrite Hc, Hl|].
      change (String c label +:+ skip_label s) with (String c (label +:+ skip_label s)).
      now rewrite <- Hs.
    + now exists "".
Qed.

Lemma shop_regex_test_spec (s : string) : shop_regex_test s = true <-> shop_pattern s.
Proof.
  unfold shop_regex_test, shop_pattern. split.
  - destruct s as [|c s]; [discriminate|].
    intros H. apply andb_true_iff in H as [Hc Hs]. apply String.eqb_eq in Hs.
    destruct (skip_label_split s) as [label [Hl E]].
    exists (String c label). split; [discriminate|]. split; [simpl; now rewrite Hc, Hl|].
    change (String c label +:+ ".myshopify.com")
      with (String c (label +:+ ".myshopify.com")).
    now rewrite <- Hs, <- E.
  - intros [label (Hne & Hl & ->)].
    destruct label as [|c label]; [contradiction|].
    change (String c label +:+ ".myshopify.com")
      with (String c (label +:+ ".myshopify.com")).
    simpl in Hl. apply andb_true_iff in Hl as [Hc Hl]. rewrite Hc.
    rewrite (skip_label_app label _ Hl). reflexivity.
Qed.

(** ** Computations and the log *)

Lemma extends_ret {A : Type} (P : exchange -> Prop) (a : A) : extends P (ret a).
Proof. intros h. exists []. simpl. now rewrite app_nil_r. Qed.

Lemma extends_throw {A : Type} (P : exchange -> Prop) (e : exn) : extends P (@throw A e).
Proof. intros h. exists []. simpl. now rewrite app_nil_r. Qed.

Lemma extends_lift {A : Type} (P : exchange -> Prop) (o : outcome A) : extends P (lift o).
Proof. intros h. exists []. simpl. now rewrite app_nil_r. Qed.

Lemma extends_bind {A B : Type} (P : exchange -> Prop) (m : M A) (k : A -> M B) :
  extends P m -> (forall a, extends P (k a)) -> extends P (bind m k).
Proof.
  intros Hm Hk h. unfold bind. destruct (Hm h) as [n1 [E1 F1]].
  destruct (m h) as [[a|e] h1]; simpl in E1; subst h1.
  - destruct (Hk a (h ++ n1)) as [n2 [E2 F2]].
    exists (n1 ++ n2). rewrite E2, app_assoc. split; [reflexivity|].
    now apply Forall_app.
  - now exists n1.
Qed.

Lemma extends_fetch_text (P : exchange -> Prop) (c : call) :
  (forall r, P (c, r)) -> extends P (fetch_text c).
Proof. intros Hc h. exists [(c, fetch h c)]. split; [reflexivity|]. now repeat constructor. Qed.

Lemma extends_start {A : Type} (P : exchange -> Prop) (m : M A) :
  extends P m -> extends P (start m).
Proof.
  intros Hm h. unfold start. destruct (Hm h) as [new [E F]].
  destruct (m h) as [o h']. now exists new.
Qed.

Lemma extends_caught (P : exchange -> Prop) (m : M value) :
  extends P m -> extends P (caught m).
Proof.
  intros Hm h. unfold caught. destruct (Hm h) as [new [E F]].
  destruct (m h) as [[r|e] h']; now exists new.
Qed.

Lemma extends_weaken {A : Type} (P P' : exchange -> Prop) (m : M A) :
  (forall x, P x -> P' x) -> extends P m -> extends P' m.
Proof.
  intros HP Hm h. destruct (Hm h) as [new [E F]]. exists new. split; [exact E|].
  eapply Forall_impl; eauto.
Qed.

(** A computation that adds no exchange satisfying [Q] guarantees
    anything about them. *)
Lemma extends_guarantees {A : Type} (Q : exchange -> Prop) (G : outcome A -> Prop)
    (m : M A) :
  extends (fun x => ~ Q x) m -> guarantees Q G m.
Proof.
  intros Hm h. destruct (Hm h) as [new [E F]]. exists new. split; [exact E|].
  intros HQ. apply Exists_exists in HQ as [x [Hx Qx]].
  rewrite Forall_forall in F. now destruct (F x Hx).
Qed.

(** Once a step is bound to throw on [Q], so is the sequence. *)
Lemma guarantees_throws_bind {A B : Type} (Q : exchange -> Prop) (m : M A) (k : A -> M B) :
  guarantees Q throws m -> (forall a, guarantees Q throws (k a)) ->
  guarantees Q throws (bind m k).
Proof.
  intros Hm Hk h. unfold bind. destruct (Hm h) as [n1 [E1 G1]].
  destruct (m h) as [[a|e] h1] eqn:Em; simpl in E1, G1; subst h1.
  - destruct (Hk a (h ++ n1)) as [n2 [E2 G2]].
    exists (n1 ++ n2). rewrite E2, app_assoc. split; [reflexivity|].
    intros HQ. apply Exists_app in HQ as [HQ|HQ].
    + destruct (G1 HQ) as [e He]. discriminate.
    + exact (G2 HQ).
  - exists n1. split; [reflexivity|]. intros _. now exists e.
Qed.

(** A step that adds no [Q] passes the guarantee of what follows it, as
    long as a throw of the step itself is acceptable. *)
Lemma guarantees_after {A B : Type} (Q : exchange -> Prop) (G : outcome B -> Prop)
    (m : M A) (k : A -> M B) :
  extends (fun x => ~ Q x) m -> (forall a, guarantees Q G (k a)) ->
  guarantees Q G (bind m k).
Proof.
  intros Hm Hk h. unfold bind. destruct (Hm h) as [n1 [E1 F1]].
  assert (~ Exists Q n1) as N1.
  { intros HQ. apply Exists_exists in HQ as [x [Hx Qx]].
    rewrite Forall_forall in F1. now destruct (F1 x Hx). }
  destruct (m h) as [[a|e] h1] eqn:Em; simpl in E1; subst h1.
  - destruct (Hk a (h ++ n1)) as [n2 [E2 G2]].
    exists (n1 ++ n2). rewrite E2, app_assoc. split; [reflexivity|].
    intros HQ. apply Exists_app in HQ as [HQ|HQ]; [contradiction|exact (G2 HQ)].
  - exists n1. split; [reflexivity|]. intros HQ. contradiction.
Qed.

(** ** Deduplication *)

Lemma Set_fold_NoDup (tags seen : list string) :
  NoDup seen ->
  NoDup (fold_left (fun seen t => if bool_decide (t ∈ seen) then seen else seen ++ [t])
           tags seen).
Proof.
  revert seen. induction tags as [|t tags IH]; intros seen Hs; simpl; [exact Hs|].
  apply IH. case_bool_decide as Ht; [exact Hs|].
  apply NoDup_app. split; [exact Hs|]. split; [|apply NoDup_singleton].
  intros x Hx Hx'. apply list_elem_of_singleton in Hx'. now subst.
Qed.

Lemma Set_fold_elem (t : string) (tags seen : list string) :
  t ∈ fold_left (fun seen t => if bool_decide (t ∈ seen) then seen else seen ++ [t])
        tags seen
  <-> t ∈ seen \/ t ∈ tags.
Proof.
  clear env JSON_parse fetch.
  revert seen. induction tags as [|u tags IH]; intros seen; simpl.
  - rewrite elem_of_nil. tauto.
  - rewrite IH, elem_of_cons. case_bool_decide as Hu.
    + split; [tauto|]. intros [H|[->|H]]; tauto.
    + rewrite elem_of_app, list_elem_of_singleton. tauto.
Qed.

Lemma Array_from_Set_NoDup (tags : list string) : NoDup (Array_from_Set tags).
Proof. apply Set_fold_NoDup, NoDup_nil_2. Qed.

Lemma Array_from_Set_elem (t : string) (tags : list string) :
  t ∈ Array_from_Set tags <-> t ∈ tags.
Proof using Type.
  unfold Array_from_Set. rewrite Set_fold_elem, elem_of_nil.
  split; [intros [[]|H]; exact H|intros H; right; exact H].
Qed.

Lemma occurrences_absent (t : string) (l : list string) : t ∉ l -> occurrences t l = 0%nat.
Proof.
  unfold occurrences. induction l as [|u l IH]; intros Ht; [reflexivity|].
  apply not_elem_of_cons in Ht as [Hne Ht].
  rewrite filter_cons_False by congruence. now apply IH.
Qed.

Lemma occurrences_NoDup (t : string) (l : list string) :
  NoDup l -> t ∈ l -> occurrences t l = 1%nat.
Proof.
  unfold occurrences. induction 1 as [|u l Hu Hl IH]; intros Ht.
  - now apply elem_of_nil in Ht.
  - destruct (decide (u = t)) as [->|Hne].
    + rewrite filter_cons_True by reflexivity. simpl.
      f_equal. now apply occurrences_absent.
    + rewrite filter_cons_False by exact Hne. apply IH.
      apply elem_of_cons in Ht as [->|Ht]; [contradiction|exact Ht].
Qed.

(** ** What each helper adds to the log *)

Ltac log_step :=
  first
    [ apply extends_ret | apply extends_throw | apply extends_lift
    | apply extends_start | apply extends_caught
    | apply extends_bind; [|intros ?]
    | match goal with
      | |- extends _ (if ?b then _ else _) => destruct b
      | |- extends _ (match ?x with _ => _ end) => destruct x
      | |- extends _ (let '(_, _) := ?x in _) => destruct x
      end ].

Section Stages.

Variable P : exchange -> Prop.

Lemma shopifyGraphQL_extends (shop : value) (token : string) (op : graphql_op) :
  (forall host r, P (ShopifyGraphQL host (api_version env) token op, r)) ->
  extends P (shopifyGraphQL shop token op).
Proof.
  intros HP. unfold shopifyGraphQL.
  apply extends_bind; [apply extends_lift|intros host].
  apply extends_bind; [apply extends_fetch_text, HP|intros resp].
  repeat log_step.
Qed.

Lemma findOrderByName_extends (shop : value) (token : string) (orderName : value) :
  (forall c r, is_order_query c -> P (c, r)) ->
  extends P (findOrderByName shop token orderName).
Proof.
  intros HP. unfold findOrderByName. destruct orderName; try apply extends_throw.
  apply extends_bind; [|intros ?; apply extends_ret].
  apply shopifyGraphQL_extends. intros. now apply HP.
Qed.

Lemma getOrderById_extends (shop : value) (token : string) (orderId : value) :
  (forall c r, is_order_query c -> P (c, r)) ->
  extends P (getOrderById shop token orderId).
Proof.
  intros HP. unfold getOrderById.
  apply extends_bind; [|intros ?; apply extends_ret].
  apply shopifyGraphQL_extends. intros. now apply HP.
Qed.

Lemma ensureOrderContext_extends (partial : context) (token : string) :
  (forall c r, is_order_query c -> P (c, r)) ->
  extends P (ensureOrderContext partial token).
Proof.
  intros HP. unfold ensureOrderContext.
  destruct (_ && _); [apply extends_ret|].
  apply extends_bind.
  - destruct (_ && _); [|apply extends_ret].
    apply extends_bind; [now apply findOrderByName_extends|intros ?; apply extends_ret].
  - intros [[[i c] e] n]. destruct (_ && _); [|apply extends_ret].
    apply extends_bind; [now apply getOrderById_extends|intros ?; apply extends_ret].
Qed.

Lemma sealSearchByEmail_extends (email : value) (token : string) :
  (forall c r, is_seal_search c -> P (c, r)) ->
  extends P (sealSearchByEmail email token).
Proof.
  intros HP. unfold sealSearchByEmail.
  apply extends_bind; [apply extends_lift|intros q].
  apply extends_bind; [apply extends_fetch_text; intros; now apply HP|intros resp].
  repeat log_step.
Qed.

Lemma sealGetById_extends (id : value) (token : string) :
  (forall c r, is_seal_get c -> P (c, r)) ->
  extends P (sealGetById id token).
Proof.
  intros HP. unfold sealGetById.
  apply extends_bind; [apply extends_lift|intros q].
  apply extends_bind; [apply extends_fetch_text; intros; now apply HP|intros resp].
  repeat log_step.
Qed.

Lemma start_details_extends (subs : list value) (token : string) :
  (forall c r, is_seal_get c -> P (c, r)) ->
  extends P (start_details subs token).
Proof.
  intros HP. induction subs as [|s subs IH]; simpl; [apply extends_ret|].
  apply extends_bind; [apply extends_lift|intros id].
  apply extends_bind; [now apply extends_start, sealGetById_extends|intros p].
  apply extends_bind; [exact IH|intros ps]. apply extends_ret.
Qed.

Lemma fetch_details_extends (subs : value) (token : string) :
  (forall c r, is_seal_get c -> P (c, r)) ->
  extends P (fetch_details subs token).
Proof.
  intros HP. unfold fetch_details. destruct subs; try apply extends_throw.
  apply extends_bind; [now apply start_details_extends|intros ps; apply extends_lift].
Qed.

Lemma tagsAdd_extends (shop : value) (token : string) (gid : value) (tags : list string) :
  (forall c r, sends_tags tags c -> P (c, r)) ->
  extends P (tagsAdd shop token gid (Some tags)).
Proof.
  intros HP. unfold tagsAdd. destruct tags as [|t tags]; [apply extends_ret|].
  apply extends_bind; [|intros ?; apply extends_ret].
  apply shopifyGraphQL_extends. intros. now apply HP.
Qed.

Lemma write_tags_extends (shopDomain : value) (token : string) (ensured : context)
    (minimal : list summary) (tags : list string) :
  (forall c r, sends_tags tags c -> P (c, r)) ->
  extends P (write_tags shopDomain token ensured minimal tags).
Proof.
  intros HP. unfold write_tags.
  apply extends_bind; [now apply extends_caught, tagsAdd_extends|intros o].
  apply extends_bind; [|intros ?; apply extends_ret].
  destruct (truthy _); [|apply extends_ret].
  apply extends_bind; [now apply extends_caught, tagsAdd_extends|intros ?; apply extends_ret].
Qed.

Lemma lookup_and_tag_extends (req_ctx : context) (sealToken shopifyToken : string) :
  (forall c r, is_order_query c -> P (c, r)) ->
  (forall c r, is_seal_search c -> P (c, r)) ->
  (forall c r, is_seal_get c -> P (c, r)) ->
  (forall tags c r, sends_tags tags c -> P (c, r)) ->
  extends P (lookup_and_tag req_ctx sealToken shopifyToken).
Proof.
  intros H1 H2 H3 H4. unfold lookup_and_tag.
  apply extends_bind; [now apply ensureOrderContext_extends|intros ensured].
  destruct (negb _); [apply extends_ret|].
  destruct (negb _); [apply extends_ret|].
  apply extends_bind; [now apply sealSearchByEmail_extends|intros subs].
  apply extends_bind; [now apply fetch_details_extends|intros details].
  apply extends_bind; [apply extends_lift|intros minimal].
  apply extends_bind; [apply extends_lift|intros tags].
  apply write_tags_extends. apply H4.
Qed.

Lemma order_created_try_extends (req : request) :
  (forall c r, is_order_query c -> P (c, r)) ->
  (forall c r, is_seal_search c -> P (c, r)) ->
  (forall c r, is_seal_get c -> P (c, r)) ->
  (forall tags c r, sends_tags tags c -> P (c, r)) ->
  extends P (order_created_try req).
Proof.
  intros H1 H2 H3 H4. unfold order_created_try.
  apply extends_bind; [apply extends_lift|intros valid].
  destruct (negb valid); [apply extends_ret|].
  destruct (byShop_get _ _) as [region|].
  - apply extends_bind; [apply extends_lift|intros bad].
    destruct bad; [apply extends_ret|].
    destruct (negb _); [apply extends_ret|].
    destruct (negb _); [apply extends_ret|].
    now apply lookup_and_tag_extends.
  - apply extends_bind; [apply extends_lift|intros name]. apply extends_ret.
Qed.

End Stages.

(** ** Tag derivation *)

Lemma omap_Return_elem {A B : Type} (f : A -> outcome B) (l : list A) (ys : list B) (y : B) :
  omap f l = Return ys -> (y ∈ ys <-> exists x, x ∈ l /\ f x = Return y).
Proof.
  revert ys. induction l as [|x l IH]; simpl; intros ys E.
  - injection E as <-. split; [intros H; now apply elem_of_nil in H|].
    intros [x [H _]]. now apply elem_of_nil in H.
  - destruct (f x) as [y0|] eqn:Fx; simpl in E; [|discriminate].
    destruct (omap f l) as [ys0|]; simpl in E; [|discriminate].
    injection E as <-. rewrite elem_of_cons, (IH ys0 eq_refl). split.
    + intros [->|[x' [Hx' Fx']]].
      * exists x. split; [apply elem_of_cons; now left|exact Fx].
      * exists x'. split; [apply elem_of_cons; now right|exact Fx'].
    + intros [x' [Hx' Fx']]. apply elem_of_cons in Hx' as [->|Hx'].
      * left. congruence.
      * right. now exists x'.
Qed.

Lemma omap_Return_iff {A B : Type} (f : A -> outcome B) (l : list A) :
  (exists ys, omap f l = Return ys) <-> (forall x, x ∈ l -> exists y, f x = Return y).
Proof.
  induction l as [|x l IH]; simpl.
  - split; [intros _ x H; now apply elem_of_nil in H|]. intros _. now exists [].
  - split.
    + intros [ys E] x' Hx'.
      destruct (f x) as [y0|] eqn:Fx; simpl in E; [|discriminate].
      destruct (omap f l) as [ys0|] eqn:El; simpl in E; [|discriminate].
      apply elem_of_cons in Hx' as [->|Hx']; [now exists y0|].
      apply IH; [now exists ys0|exact Hx'].
    + intros H. destruct (H x) as [y Fx]; [apply elem_of_cons; now left|].
      destruct (proj2 IH) as [ys El].
      { intros x' Hx'. apply H, elem_of_cons. now right. }
      exists (y :: ys). now rewrite Fx, El.
Qed.

Lemma deriveTags_unfold (minimal : list summary) :
  deriveTags minimal =
  let? ids := omap id_tag minimal in
  let? cycles := omap cycles_tag
                   (filter (fun m => not_nullish (billing_min_cycles m) = true) minimal) in
  Return (ids ++ cycles).
Proof. reflexivity. Qed.

(** A tag is derived exactly when it is the id tag of a summary, or the
    min-cycles tag of one whose [billing_min_cycles] is not [null]. *)
Lemma deriveTags_elem (minimal : list summary) (tags : list string) (t : string) :
  deriveTags minimal = Return tags ->
  (t ∈ tags <->
   (exists m, m ∈ minimal /\ id_tag m = Return t) \/
   (exists m, m ∈ minimal /\ not_nullish (billing_min_cycles m) = true
              /\ cycles_tag m = Return t)).
Proof.
  rewrite deriveTags_unfold. intros E.
  destruct (omap id_tag minimal) as [ids|] eqn:Ei; simpl in E; [|discriminate].
  destruct (omap cycles_tag _) as [cycles|] eqn:Ec; simpl in E; [|discriminate].
  injection E as <-.
  rewrite elem_of_app, (omap_Return_elem _ _ _ t Ei), (omap_Return_elem _ _ _ t Ec).
  split; (intros [H|H]; [left; exact H|right]).
  - destruct H as [m [Hm Hc]]. apply list_elem_of_filter in Hm as [Hb Hm]. now exists m.
  - destruct H as [m (Hm & Hb & Hc)]. exists m. split; [|exact Hc].
    now apply list_elem_of_filter.
Qed.

(** Tags are derived unless the conversion of an id, or of a
    [billing_min_cycles] that is not [null], throws. *)
Lemma deriveTags_returns (minimal : list summary) :
  (exists tags, deriveTags minimal = Return tags) <->
  (forall m, m ∈ minimal ->
     (exists t, id_tag m = Return t) /\
     (not_nullish (billing_min_cycles m) = true -> exists t, cycles_tag m = Return t)).
Proof.
  rewrite deriveTags_unfold. split.
  - intros [tags E] m Hm.
    destruct (omap id_tag minimal) as [ids|] eqn:Ei; simpl in E; [|discriminate].
    destruct (omap cycles_tag _) as [cycles|] eqn:Ec; simpl in E; [|discriminate].
    split.
    + eapply (proj1 (omap_Return_iff id_tag minimal)); eauto.
    + intros Hb. eapply (proj1 (omap_Return_iff cycles_tag _)); eauto.
      now apply list_elem_of_filter.
  - intros H.
    destruct (proj2 (omap_Return_iff id_tag minimal)) as [ids Ei].
    { intros m Hm. now apply H. }
    destruct (proj2 (omap_Return_iff cycles_tag
                (filter (fun m => not_nullish (billing_min_cycles m) = true) minimal)))
      as [cycles Ec].
    { intros m Hm. apply list_elem_of_filter in Hm as [Hb Hm]. now apply H. }
    exists (ids ++ cycles). now rewrite Ei, Ec.
Qed.

(** C9: [tagsAdd] called with an absent or an empty tag list returns the
    "skipped" result and leaves the log as it found it (no remote call),
    whatever the shop, the token and the target id. *)
Theorem tagsAdd_without_tags_is_skipped
    (shop : value) (token : string) (gid : value) (h : list exchange) :
  tagsAdd shop token gid None h = (Return (VObj [("skipped", VStr "no tags to add")]), h)
  /\ tagsAdd shop token gid (Some []) h
      = (Return (VObj [("skipped", VStr "no tags to add")]), h).
Proof. split; reflexivity. Qed.

(** With a tag to add, the write does reach the admin API: exactly one
    exchange is logged. *)
Lemma tagsAdd_with_tags_calls
    (shop : value) (token : string) (gid : value) (t : string) (tags : list string)
    (h : list exchange) (host : string) :
  to_string shop = Return host ->
  exists r, snd (tagsAdd shop token gid (Some (t :: tags)) h)
            = h ++ [(ShopifyGraphQL host (api_version env) token
                       (TagsAdd gid (Array_from_Set (t :: tags))), r)].
Proof.
  intros Hs.
  exists (fetch h (ShopifyGraphQL host (api_version env) token
                     (TagsAdd gid (Array_from_Set (t :: tags))))).
  unfold tagsAdd, shopifyGraphQL, bind, lift, fetch_text, throw, ret. rewrite Hs.
  destruct (fetch h _) as [|r]; [reflexivity|].
  destruct (JSON_parse (text r)) as [json|]; [|reflexivity].
  destruct (prop_strict json "errors") as [errors|]; [|reflexivity].
  destruct (negb (ok r) || truthy errors); reflexivity.
Qed.

Lemma flow_order_created_extends (P : exchange -> Prop) (req : request) (h : list exchange) :
  (forall c r, is_order_query c -> P (c, r)) ->
  (forall c r, is_seal_search c -> P (c, r)) ->
  (forall c r, is_seal_get c -> P (c, r)) ->
  (forall tags c r, sends_tags tags c -> P (c, r)) ->
  exists new, snd (flow_order_created req h) = h ++ new /\ Forall P new.
Proof.
  intros H1 H2 H3 H4.
  destruct (order_created_try_extends P req H1 H2 H3 H4 h) as [new [E F]].
  exists new. split; [|exact F]. unfold flow_order_created.
  destruct (order_created_try req h) as [[res|err] h']; exact E.
Qed.

Lemma cycles_tag_3 (m : summary) :
  billing_min_cycles m = VNum 3 ->
  not_nullish (billing_min_cycles m) = true /\ cycles_tag m = Return "seal_min_cycles_3".
Proof. intros E. unfold cycles_tag. rewrite E. split; reflexivity. Qed.

(** C7: tag derivation does not depend on the order of the summaries.
    For a permutation of the list, either both derivations throw, or both
    return and the two tag lists (and the two deduplicated lists that are
    sent) have the same members.  A subscription whose detail record has
    [billing_min_cycles] absent or [null] contributes its [seal_sub_id_]
    tag and nothing else. *)
Theorem deriveTags_order_independent :
  (forall l l' : list summary,
      l ≡ₚ l' ->
      match deriveTags l, deriveTags l' with
      | Return tags, Return tags' =>
          (forall t, t ∈ tags <-> t ∈ tags')
          /\ (forall t, t ∈ Array_from_Set tags <-> t ∈ Array_from_Set tags')
      | Throw _, Throw _ => True
      | _, _ => False
      end)
  /\ (forall (d : value) (m : summary) (rest : list summary) (tags : list string),
        prop d "billing_min_cycles" = VUndef \/ prop d "billing_min_cycles" = VNull ->
        minimal_of d = Return m ->
        deriveTags (m :: rest) = Return tags ->
        exists i others,
          to_string (sub_id m) = Return i
          /\ deriveTags rest = Return others
          /\ tags = ("seal_sub_id_" +:+ i) :: others).
Proof.
  split.
  - intros l l' Hp.
    assert (forall k k' : list summary, k ≡ₚ k' ->
              (exists tags, deriveTags k = Return tags) ->
              exists tags', deriveTags k' = Return tags') as Hret.
    { intros k k' Hk Hr. apply deriveTags_returns. intros m Hm.
      apply (proj1 (deriveTags_returns k) Hr). now rewrite Hk. }
    destruct (deriveTags l) as [tags|e] eqn:E, (deriveTags l') as [tags'|e'] eqn:E'.
    + assert (forall t, t ∈ tags <-> t ∈ tags') as Hsame.
      { intros t. rewrite (deriveTags_elem _ _ t E), (deriveTags_elem _ _ t E').
        now setoid_rewrite Hp. }
      split; [exact Hsame|]. intros t. now rewrite !Array_from_Set_elem.
    + destruct (Hret l l' Hp) as [tags' Ht]; [now exists tags|]. congruence.
    + destruct (Hret l' l) as [tags Ht]; [now symmetry|now exists tags'|]. congruence.
    + exact I.
  - intros d m rest tags Hd Hm Et.
    assert (billing_min_cycles m = VNull) as Hnull.
    { unfold minimal_of in Hm. destruct (prop_strict d "id") as [i|]; [|discriminate].
      simpl in Hm. injection Hm as <-. simpl. now destruct Hd as [-> | ->]. }
    rewrite deriveTags_unfold in Et. simpl in Et.
    rewrite filter_cons_False in Et by (rewrite Hnull; discriminate).
    unfold id_tag at 1 in Et.
    destruct (to_string (sub_id m)) as [i|]; simpl in Et; [|discriminate].
    exists i. rewrite deriveTags_unfold.
    destruct (omap id_tag rest) as [ids|]; simpl in *; [|discriminate].
    destruct (omap cycles_tag _) as [cycles|]; simpl in *; [|discriminate].
    exists (ids ++ cycles). injection Et as <-. now repeat split.
Qed.

(** ** The context resolver *)

(** The resolver, stage by stage: the fast path, the lookup by name, the
    fetch by id. *)
Lemma ensureOrderContext_cases (partial : context) (token : string)
    (h h' : list exchange) (out : context) :
  ensureOrderContext partial token h = (Return out, h') ->
  (* nothing missing *)
  (truthy (orderId partial) = true /\ out = partial /\ h' = h)
  \/ exists byName h1,
       (* after the lookup by name *)
       ((truthy (orderId partial) = false /\ truthy (orderName partial) = true /\
         exists found,
           findOrderByName (shopDomain partial) token (orderName partial) h
             = (Return found, h1)
           /\ byName = {| shopDomain := shopDomain partial;
                          orderId := js_or (prop found "id") (orderId partial);
                          customerId := js_or (prop (prop found "customer") "id")
                                          (customerId partial);
                          email := js_or (prop found "email") (email partial);
                          orderName := js_or (prop found "name") (orderName partial) |})
        \/ (negb (truthy (orderId partial)) && truthy (orderName partial) = false
            /\ byName = partial /\ h1 = h))
       /\
       (* after the fetch by id *)
       ((exists got,
           getOrderById (shopDomain partial) token (orderId byName) h1 = (Return got, h')
           /\ out = {| shopDomain := shopDomain partial;
                       orderId := orderId byName;
                       orderName := js_or (prop got "name") (orderName byName);
                       email := js_or (email byName)
                                  (js_or (prop got "email")
                                     (js_or (prop (prop got "customer") "email") VNull));
                       customerId := js_or (customerId byName)
                                       (js_or (prop (prop got "customer") "id") VNull) |})
        \/ (out = byName /\ h' = h1)).
Proof.
  destruct partial as [sd oi on ci em]. unfold ensureOrderContext, bind, ret. simpl.
  destruct (truthy oi && truthy ci && truthy em && truthy on) eqn:All.
  { intros E. injection E as <- <-. left.
    apply andb_true_iff in All as [All _]. apply andb_true_iff in All as [All _].
    apply andb_true_iff in All as [All _]. now repeat split. }
  intros H. right. revert H.
  destruct (negb (truthy oi) && truthy on) eqn:ByName.
  - apply andb_true_iff in ByName as [Hoi Hon]. apply negb_true_iff in Hoi.
    destruct (findOrderByName sd token on h) as [[found|e] h1] eqn:Ef; [|discriminate].
    intros H.
    exists {| shopDomain := sd;
              orderId := js_or (prop found "id") oi;
              customerId := js_or (prop (prop found "customer") "id") ci;
              email := js_or (prop found "email") em;
              orderName := js_or (prop found "name") on |}, h1.
    split; [left; repeat split; try assumption; now exists found|].
    simpl. revert H.
    match goal with |- context [if ?c then _ else _] => destruct c end; cbv beta.
    + destruct (getOrderById sd token _ h1) as [[got|e] h2] eqn:Eg; [|discriminate].
      intros E. injection E as <- <-. left. exists got. now split.
    + intros E. injection E as <- <-. now right.
  - intros H.
    exists {| shopDomain := sd; orderId := oi; orderName := on; customerId := ci;
              email := em |}, h.
    split; [now right|]. simpl. revert H.
    match goal with |- context [if ?c then _ else _] => destruct c end; cbv beta.
    + destruct (getOrderById sd token oi h) as [[got|e] h2] eqn:Eg; [|discriminate].
      intros E. injection E as <- <-. left. exists got. now split.
    + intros E. injection E as <- <-. now right.
Qed.

(** C10: the resolver never loses information.  Whenever it returns, the
    returned context has the input's [shopDomain], and every field among
    [orderId], [orderName], [customerId], [email] that was truthy in the
    input is truthy in the output, whatever the remote side answered. *)
Theorem ensureOrderContext_keeps_known_fields
    (partial : context) (token : string) (h h' : list exchange) (out : context) :
  ensureOrderContext partial token h = (Return out, h') ->
  shopDomain out = shopDomain partial
  /\ (truthy (orderId partial) = true -> truthy (orderId out) = true)
  /\ (truthy (orderName partial) = true -> truthy (orderName out) = true)
  /\ (truthy (customerId partial) = true -> truthy (customerId out) = true)
  /\ (truthy (email partial) = true -> truthy (email out) = true).
Proof.
  intros E. apply ensureOrderContext_cases in E as [(_ & -> & _)|(byName & h1 & Hn & Hi)].
  { now repeat split. }
  assert (shopDomain byName = shopDomain partial
          /\ (truthy (orderId partial) = true -> truthy (orderId byName) = true)
          /\ (truthy (orderName partial) = true -> truthy (orderName byName) = true)
          /\ (truthy (customerId partial) = true -> truthy (customerId byName) = true)
          /\ (truthy (email partial) = true -> truthy (email byName) = true))
    as (Hsd & Hoi & Hon & Hci & Hem).
  { destruct Hn as [(_ & _ & found & _ & ->)|(_ & -> & _)]; simpl.
    - repeat split; intros; now apply js_or_truthy_r.
    - now repeat split. }
  destruct Hi as [(got & _ & ->)|[-> _]]; simpl.
  - repeat split; try assumption; intros H.
    + apply js_or_truthy_r; auto.
    + apply js_or_truthy_l; auto.
    + apply js_or_truthy_l; auto.
  - now repeat split.
Qed.

(** The resolver after a lookup by name that returned [found]: the merge
    of lines 167-170, then the fetch by id when something is still missing
    ([orderName] no longer is). *)
Lemma ensureOrderContext_by_name (partial : context) (token : string)
    (h h1 : list exchange) (found : value) :
  truthy (orderId partial) = false ->
  truthy (orderName partial) = true ->
  findOrderByName (shopDomain partial) token (orderName partial) h = (Return found, h1) ->
  ensureOrderContext partial token h =
  let orderId1 := js_or (prop found "id") (orderId partial) in
  let customerId1 := js_or (prop (prop found "customer") "id") (customerId partial) in
  let email1 := js_or (prop found "email") (email partial) in
  let orderName1 := js_or (prop found "name") (orderName partial) in
  if (negb (truthy customerId1) || negb (truthy email1)) && truthy orderId1
  then match getOrderById (shopDomain partial) token orderId1 h1 with
       | (Return got, h2) =>
           (Return {| shopDomain := shopDomain partial;
                      orderId := orderId1;
                      orderName := js_or (prop got "name") orderName1;
                      email := js_or email1
                                 (js_or (prop got "email")
                                    (js_or (prop (prop got "customer") "email") VNull));
                      customerId := js_or customerId1
                                      (js_or (prop (prop got "customer") "id") VNull) |},
            h2)
       | (Throw e, h2) => (Throw e, h2)
       end
  else (Return {| shopDomain := shopDomain partial; orderId := orderId1;
                  orderName := orderName1; customerId := customerId1;
                  email := email1 |}, h1).
Proof.
  intros Hoi Hon Ef.
  assert (truthy (js_or (prop found "name") (orderName partial)) = true) as Hname
    by now apply js_or_truthy_r.
  unfold ensureOrderContext, bind, ret. rewrite Hoi, Hon. cbn [andb negb].
  rewrite Ef. cbn [fst snd]. rewrite Hname. cbn [negb].
  rewrite orb_false_r.
  destruct (truthy (js_or (prop (prop found "customer") "id") (customerId partial)));
    destruct (truthy (js_or (prop found "email") (email partial)));
    destruct (truthy (js_or (prop found "id") (orderId partial)));
    cbn [negb orb andb]; try reflexivity;
    destruct (getOrderById _ _ _ h1) as [[got|e] h2]; reflexivity.
Qed.

(** C1, as the code has it: when [orderId] is falsy, [orderName] truthy,
    and the lookup by name returns [found], then [orderId] takes the
    lookup's id when that is truthy; [customerId] and [email] take the
    lookup's value whenever it is truthy -- also over a truthy input --
    and keep a truthy input only when the lookup's value is falsy;
    [orderName] takes the lookup's name when truthy and keeps the input
    otherwise.  The fetch by id follows exactly when [customerId] or
    [email] is still falsy after that and [orderId] is truthy; the name it
    returns, when truthy, then replaces that [orderName], which is kept
    when the fetched name is falsy. *)
Theorem lookup_by_name_wins_when_truthy
    (partial : context) (token : string) (h h1 h' : list exchange)
    (found : value) (out : context) :
  truthy (orderId partial) = false ->
  truthy (orderName partial) = true ->
  findOrderByName (shopDomain partial) token (orderName partial) h = (Return found, h1) ->
  ensureOrderContext partial token h = (Return out, h') ->
  orderId out = js_or (prop found "id") (orderId partial)
  /\ (truthy (prop (prop found "customer") "id") = true ->
      customerId out = prop (prop found "customer") "id")
  /\ (truthy (prop (prop found "customer") "id") = false ->
      truthy (customerId partial) = true -> customerId out = customerId partial)
  /\ (truthy (prop found "email") = true -> email out = prop found "email")
  /\ (truthy (prop found "email") = false ->
      truthy (email partial) = true -> email out = email partial)
  /\ (truthy (js_or (prop (prop found "customer") "id") (customerId partial)) = true
      /\ truthy (js_or (prop found "email") (email partial)) = true
      \/ truthy (orderId out) = false ->
      h' = h1
      /\ orderName out = js_or (prop found "name") (orderName partial))
  /\ (truthy (js_or (prop (prop found "customer") "id") (customerId partial)) = false
      \/ truthy (js_or (prop found "email") (email partial)) = false ->
      truthy (orderId out) = true ->
      exists got,
        getOrderById (shopDomain partial) token (orderId out) h1 = (Return got, h')
        /\ (truthy (prop got "name") = true -> orderName out = prop got "name")
        /\ (truthy (prop got "name") = false ->
            orderName out = js_or (prop found "name") (orderName partial))).
Proof.
  intros Hoi Hon Ef E.
  rewrite (ensureOrderContext_by_name partial token h h1 found Hoi Hon Ef) in E.
  cbv zeta in E.
  destruct (truthy (js_or (prop (prop found "customer") "id") (customerId partial)))
    eqn:Hci;
    destruct (truthy (js_or (prop found "email") (email partial))) eqn:Hem;
    destruct (truthy (js_or (prop found "id") (orderId partial))) eqn:Hid;
    cbn [negb orb andb] in E;
    try (destruct (getOrderById (shopDomain partial) token
                     (js_or (prop found "id") (orderId partial)) h1)
           as [[got|e] h2] eqn:Eg; [|discriminate E]);
    injection E as <- <-; cbn [orderId customerId email orderName];
    (split; [reflexivity|]);
    (split; [intros Ht; rewrite ?(js_or_left _ (customerId partial) Ht);
             rewrite ?js_or_left; try reflexivity; try assumption;
             now rewrite (js_or_left _ (customerId partial) Ht) in Hci|]);
    (split; [intros Hf Ht; rewrite ?(js_or_right _ (customerId partial) Hf);
             rewrite ?js_or_left; try reflexivity; try assumption;
             rewrite (js_or_right _ (customerId partial) Hf) in Hci; congruence|]);
    (split; [intros Ht; rewrite ?(js_or_left _ (email partial) Ht);
             rewrite ?js_or_left; try reflexivity; try assumption;
             now rewrite (js_or_left _ (email partial) Ht) in Hem|]);
    (split; [intros Hf Ht; rewrite ?(js_or_right _ (email partial) Hf);
             rewrite ?js_or_left; try reflexivity; try assumption;
             rewrite (js_or_right _ (email partial) Hf) in Hem; congruence|]);
    (split;
     [intros [[Hc He]|Ho]; try discriminate; try congruence; now split
     |intros Hmiss Ho; try congruence; try (destruct Hmiss; discriminate)]).
  all: exists got; split; [exact Eg|]; split;
    [intros Hg; now apply js_or_left|intros Hg; now apply js_or_right].
Qed.

(** ** The tagging step *)

Lemma guarantees_weaken {A : Type} (Q Q' : exchange -> Prop) (G : outcome A -> Prop)
    (m : M A) :
  (forall x, Q' x -> Q x) -> guarantees Q G m -> guarantees Q' G m.
Proof.
  intros HQ Hm h. destruct (Hm h) as [new [E Hg]]. exists new. split; [exact E|].
  intros Hx. apply Hg. apply Exists_exists in Hx as [x [Hx Qx]].
  apply Exists_exists. exists x. auto.
Qed.

Lemma guarantees_ret {A : Type} (Q : exchange -> Prop) (G : outcome A -> Prop) (a : A) :
  guarantees Q G (ret a).
Proof. apply extends_guarantees, extends_ret. Qed.

Lemma guarantees_lift_bind {A B : Type} (Q : exchange -> Prop) (G : outcome B -> Prop)
    (o : outcome A) (k : A -> M B) :
  (forall a, guarantees Q G (k a)) -> guarantees Q G (bind (lift o) k).
Proof. intros Hk. apply guarantees_after; [apply extends_lift|exact Hk]. Qed.

(** The tagging step never throws: both writes are settled into the
    response, the customer's only for a truthy customer id. *)
Lemma write_tags_result (shopDomain : value) (token : string) (ensured : context)
    (minimal : list summary) (tags : list string) (h : list exchange) :
  let order_write := tagsAdd shopDomain token (orderId ensured) (Some tags) h in
  let customer_write :=
    tagsAdd shopDomain token (customerId ensured) (Some tags) (snd order_write) in
  write_tags shopDomain token ensured minimal tags h =
  (Return (respond 200
             (OkBody shopDomain (orderId ensured) (orderName ensured)
                     (js_or (customerId ensured) VNull) (email ensured) minimal
                     (settled (fst order_write))
                     (if truthy (customerId ensured)
                      then Some (settled (fst customer_write))
                      else None))),
   if truthy (customerId ensured) then snd customer_write else snd order_write).
Proof.
  unfold write_tags, bind, caught, ret. cbv zeta.
  destruct (tagsAdd shopDomain token (orderId ensured) (Some tags) h) as [[r|e] h1];
    cbn [fst snd settled]; destruct (truthy (customerId ensured)); try reflexivity;
    destruct (tagsAdd shopDomain token (customerId ensured) (Some tags) h1) as [[r'|e'] h2];
    reflexivity.
Qed.

Lemma write_tags_guarantees (Q : exchange -> Prop) (shopDomain : value) (token : string)
    (ensured : context) (minimal : list summary) (tags : list string) :
  guarantees Q returns_success (write_tags shopDomain token ensured minimal tags).
Proof.
  intros h.
  destruct (write_tags_extends (fun _ => True) shopDomain token ensured minimal tags
              (fun _ _ _ => I) h) as [new [E _]].
  exists new. split; [exact E|]. intros _.
  rewrite write_tags_result. simpl. eexists. split; [reflexivity|].
  unfold success. now repeat eexists.
Qed.

Lemma success_status (res : response) : success res -> http_status res = 200.
Proof. intros (? & ? & ? & ? & ? & ? & ? & ? & ->). reflexivity. Qed.

(** The route arrives at the tagging step when every step before it
    returned. *)
Lemma lookup_and_tag_reaches_write_tags
    (req_ctx : context) (sealToken shopifyToken : string) (h h1 h2 h3 : list exchange)
    (ensured : context) (subs : value) (details : list value)
    (minimal : list summary) (tags : list string) :
  ensureOrderContext req_ctx shopifyToken h = (Return ensured, h1) ->
  truthy (orderId ensured) = true ->
  truthy (email ensured) = true ->
  sealSearchByEmail (email ensured) sealToken h1 = (Return subs, h2) ->
  fetch_details subs sealToken h2 = (Return details, h3) ->
  omap minimal_of details = Return minimal ->
  deriveTags minimal = Return tags ->
  lookup_and_tag req_ctx sealToken shopifyToken h
  = write_tags (shopDomain req_ctx) shopifyToken ensured minimal tags h3.
Proof.
  intros He Hoi Hem Hs Hd Hm Ht. unfold lookup_and_tag, bind, lift.
  rewrite He. cbv beta iota. rewrite Hoi, Hem. cbn [negb].
  rewrite Hs. cbv beta iota. rewrite Hd. cbv beta iota.
  rewrite Hm. cbv beta iota. now rewrite Ht.
Qed.

Lemma order_query_not_tag_write (c : call) (r : fetch_result) :
  is_order_query c -> ~ is_tag_write (c, r).
Proof. clear env JSON_parse fetch. destruct c as [| |? ? ? []]; simpl; tauto. Qed.

Lemma seal_search_not_tag_write (c : call) (r : fetch_result) :
  is_seal_search c -> ~ is_tag_write (c, r).
Proof. clear env JSON_parse fetch. destruct c as [| |? ? ? []]; simpl; tauto. Qed.

Lemma seal_get_not_tag_write (c : call) (r : fetch_result) :
  is_seal_get c -> ~ is_tag_write (c, r).
Proof. clear env JSON_parse fetch. destruct c as [| |? ? ? []]; simpl; tauto. Qed.

Lemma order_created_try_tag_write (req : request) :
  guarantees is_tag_write returns_success (order_created_try req).
Proof.
  unfold order_created_try.
  apply guarantees_lift_bind. intros valid.
  destruct (negb valid); [apply guarantees_ret|].
  destruct (byShop_get _ _) as [region|].
  2:{ apply guarantees_lift_bind. intros name. apply guarantees_ret. }
  apply guarantees_lift_bind. intros bad.
  destruct bad; [apply guarantees_ret|].
  destruct (negb _); [apply guarantees_ret|].
  destruct (negb _); [apply guarantees_ret|].
  unfold lookup_and_tag.
  apply guarantees_after.
  { apply ensureOrderContext_extends, order_query_not_tag_write. }
  intros ensured.
  destruct (negb _); [apply guarantees_ret|].
  destruct (negb _); [apply guarantees_ret|].
  apply guarantees_after.
  { apply sealSearchByEmail_extends, seal_search_not_tag_write. }
  intros subs. apply guarantees_after.
  { apply fetch_details_extends, seal_get_not_tag_write. }
  intros details. apply guarantees_lift_bind. intros minimal.
  apply guarantees_lift_bind. intros tags.
  apply write_tags_guarantees.
Qed.

(** C4: the two tag writes are independent.  In the tagging step each
    write is settled on its own -- what it returned, or the error it threw
    -- the customer's write is issued after the order's whether or not
    that one threw, the order's result stands whether or not the
    customer's throws, and the step answers 200.  For the route: once a
    tag write is in the log, the response is the success payload with
    status 200, whatever the two writes were answered. *)
Theorem tag_writes_are_independent :
  (forall (shopDomain : value) (token : string) (ensured : context)
          (minimal : list summary) (tags : list string) (h : list exchange),
      let order_write := tagsAdd shopDomain token (orderId ensured) (Some tags) h in
      let customer_write :=
        tagsAdd shopDomain token (customerId ensured) (Some tags) (snd order_write) in
      write_tags shopDomain token ensured minimal tags h =
      (Return (respond 200
                 (OkBody shopDomain (orderId ensured) (orderName ensured)
                         (js_or (customerId ensured) VNull) (email ensured) minimal
                         (settled (fst order_write))
                         (if truthy (customerId ensured)
                          then Some (settled (fst customer_write))
                          else None))),
       if truthy (customerId ensured) then snd customer_write else snd order_write))
  /\ (forall (req : request) (h : list exchange),
        exists new,
          snd (flow_order_created req h) = h ++ new
          /\ (Exists is_tag_write new -> success (fst (flow_order_created req h)))).
Proof.
  split; [exact write_tags_result|].
  intros req h. destruct (order_created_try_tag_write req h) as [new [E Hg]].
  exists new. unfold flow_order_created.
  destruct (order_created_try req h) as [[res|err] h']; simpl in *.
  - split; [exact E|]. intros Hx. destruct (Hg Hx) as [res' [Er Hs]]. congruence.
  - split; [exact E|]. intros Hx. destruct (Hg Hx) as [res' [Er Hs]]. discriminate.
Qed.

(** ** The detail fan-out *)

Lemma guarantees_throw {A : Type} (Q : exchange -> Prop) (G : outcome A -> Prop) (e : exn) :
  guarantees Q G (throw e).
Proof. apply extends_guarantees, extends_throw. Qed.

Lemma sealGetById_fails_closed (id : value) (token : string) :
  guarantees failed_detail throws (sealGetById id token).
Proof.
  intros h. unfold sealGetById, bind, lift, fetch_text, throw, ret.
  destruct (to_string id) as [i|e].
  2:{ exists []. rewrite app_nil_r. split; [reflexivity|]. intros _. now exists e. }
  exists [(SealGet i token, fetch h (SealGet i token))].
  destruct (fetch h (SealGet i token)) as [|r] eqn:Ef.
  { split; [reflexivity|]. intros _. now eexists. }
  destruct (ok r) eqn:Hok; simpl.
  - split; [reflexivity|]. intros Hx. apply Exists_cons in Hx as [Hx|Hx].
    + simpl in Hx. congruence.
    + now apply Exists_nil in Hx.
  - split; [reflexivity|]. intros _. now eexists.
Qed.

Lemma Promise_all_throws_head {A : Type} (e : exn) (ps : list (outcome A)) :
  throws (Promise_all (Throw e :: ps)).
Proof. now exists e. Qed.

Lemma Promise_all_throws_tail {A : Type} (p : outcome A) (ps : list (outcome A)) :
  throws (Promise_all ps) -> throws (Promise_all (p :: ps)).
Proof.
  intros [e He]. destruct p as [a|e']; simpl; [|now exists e'].
  rewrite He. now exists e.
Qed.

(** A failed detail request leaves a rejected promise in the list that
    [Promise.all] awaits (unless [map] itself threw before). *)
Lemma start_details_fails_closed (subs : list value) (token : string) :
  guarantees failed_detail
    (fun o => match o with
              | Return ps => throws (Promise_all ps)
              | Throw _ => True
              end)
    (start_details subs token).
Proof.
  induction subs as [|s subs IH]; intros h; simpl.
  { exists []. rewrite app_nil_r. split; [reflexivity|]. intros Hx.
    now apply Exists_nil in Hx. }
  unfold bind, lift, start, ret.
  destruct (prop_strict s "id") as [id|e].
  2:{ exists []. rewrite app_nil_r. split; [reflexivity|]. intros _. exact I. }
  destruct (sealGetById_fails_closed id token h) as [n1 [E1 G1]].
  destruct (sealGetById id token h) as [p h1]. simpl in E1, G1. subst h1.
  destruct (IH (h ++ n1)) as [n2 [E2 G2]].
  destruct (start_details subs token (h ++ n1)) as [[ps|e] h2]; simpl in E2, G2; subst h2.
  - exists (n1 ++ n2). rewrite app_assoc. split; [reflexivity|]. simpl.
    intros Hx. apply Exists_app in Hx as [Hx|Hx].
    + destruct (G1 Hx) as [e ->]. apply (Promise_all_throws_head e ps).
    + apply (Promise_all_throws_tail p ps), G2, Hx.
  - exists (n1 ++ n2). rewrite app_assoc. split; [reflexivity|]. intros _. exact I.
Qed.

Lemma fetch_details_fails_closed (subs : value) (token : string) :
  guarantees failed_detail throws (fetch_details subs token).
Proof.
  unfold fetch_details. destruct subs; try apply guarantees_throw.
  intros h. unfold bind, lift.
  destruct (start_details_fails_closed items token h) as [new [E Hg]].
  destruct (start_details items token h) as [[ps|e] h1]; simpl in E, Hg; subst h1.
  - exists new. split; [reflexivity|]. exact Hg.
  - exists new. split; [reflexivity|]. intros _. now exists e.
Qed.

Lemma order_query_not_failed_detail (c : call) (r : fetch_result) :
  is_order_query c -> ~ failed_detail (c, r).
Proof. clear env JSON_parse fetch. destruct c as [| |? ? ? []]; simpl; tauto. Qed.

Lemma seal_search_not_failed_detail (c : call) (r : fetch_result) :
  is_seal_search c -> ~ failed_detail (c, r).
Proof. clear env JSON_parse fetch. destruct c as [| |? ? ? []]; simpl; tauto. Qed.

Lemma tag_write_not_failed_detail (tags : list string) (c : call) (r : fetch_result) :
  sends_tags tags c -> ~ failed_detail (c, r).
Proof. clear env JSON_parse fetch. destruct c as [| |? ? ? []]; simpl; tauto. Qed.

Lemma guarantees_throws_lift_bind {A B : Type} (Q : exchange -> Prop)
    (o : outcome A) (k : A -> M B) :
  (forall a, guarantees Q throws (k a)) -> guarantees Q throws (bind (lift o) k).
Proof. intros Hk. apply guarantees_after; [apply extends_lift|exact Hk]. Qed.

Lemma order_created_try_failed_detail (req : request) :
  guarantees failed_detail throws (order_created_try req).
Proof.
  unfold order_created_try.
  apply guarantees_lift_bind. intros valid.
  destruct (negb valid); [apply guarantees_ret|].
  destruct (byShop_get _ _) as [region|].
  2:{ apply guarantees_lift_bind. intros name. apply guarantees_ret. }
  apply guarantees_lift_bind. intros bad.
  destruct bad; [apply guarantees_ret|].
  destruct (negb _); [apply guarantees_ret|].
  destruct (negb _); [apply guarantees_ret|].
  unfold lookup_and_tag.
  apply guarantees_after.
  { apply ensureOrderContext_extends, order_query_not_failed_detail. }
  intros ensured.
  destruct (negb _); [apply guarantees_ret|].
  destruct (negb _); [apply guarantees_ret|].
  apply guarantees_after.
  { apply sealSearchByEmail_extends, seal_search_not_failed_detail. }
  intros subs. apply guarantees_throws_bind; [apply fetch_details_fails_closed|].
  intros details. apply guarantees_lift_bind. intros minimal.
  apply guarantees_lift_bind. intros tags.
  apply extends_guarantees, write_tags_extends, tag_write_not_failed_detail.
Qed.

(** C5: one failed detail fetch fails the whole lookup.  If the log of a
    request holds a detail request that was rejected or answered outside
    2xx, the response is the generic 500 error: it carries no
    subscription list, so no success payload is built from an incomplete
    set of details. *)
Theorem failed_detail_fails_request (req : request) (h : list exchange) :
  exists new,
    snd (flow_order_created req h) = h ++ new
    /\ (Exists failed_detail new -> server_error (fst (flow_order_created req h))).
Proof.
  destruct (order_created_try_failed_detail req h) as [new [E Hg]].
  exists new. unfold flow_order_created.
  destruct (order_created_try req h) as [[res|err] h']; simpl in *.
  - split; [exact E|]. intros Hx. destruct (Hg Hx) as [e He]. discriminate.
  - split; [exact E|]. intros _. now eexists.
Qed.

(** ** Malformed bodies *)

Lemma shopifyGraphQL_malformed (shop : value) (token : string) (op : graphql_op) :
  guarantees malformed_answer throws (shopifyGraphQL shop token op).
Proof.
  intros h. unfold shopifyGraphQL, bind, lift, fetch_text, throw, ret.
  destruct (to_string shop) as [host|e].
  2:{ exists []. rewrite app_nil_r. split; [reflexivity|]. intros _. now exists e. }
  set (c := ShopifyGraphQL host (api_version env) token op).
  exists [(c, fetch h c)].
  destruct (fetch h c) as [|r] eqn:Ef.
  { split; [reflexivity|]. intros _. now eexists. }
  destruct (JSON_parse (text r)) as [json|] eqn:Ej.
  2:{ split; [reflexivity|]. intros _. now eexists. }
  assert (~ Exists malformed_answer [(c, Response r)]) as Hno.
  { intros Hx. apply Exists_cons in Hx as [Hx|Hx]; [|now apply Exists_nil in Hx].
    simpl in Hx. congruence. }
  destruct (prop_strict json "errors") as [errors|e]; [|split; [reflexivity|tauto]].
  destruct (negb (ok r) || truthy errors); (split; [reflexivity|tauto]).
Qed.

Lemma ensureOrderContext_malformed (partial : context) (token : string) :
  guarantees malformed_answer throws (ensureOrderContext partial token).
Proof.
  unfold ensureOrderContext.
  destruct (_ && _); [apply guarantees_ret|].
  apply guarantees_throws_bind.
  - destruct (_ && _); [|apply guarantees_ret].
    apply guarantees_throws_bind; [|intros ?; apply guarantees_ret].
    unfold findOrderByName. destruct (orderName partial); try apply guarantees_throw.
    apply guarantees_throws_bind; [apply shopifyGraphQL_malformed|].
    intros ?; apply guarantees_ret.
  - intros [[[i c] e] n]. destruct (_ && _); [|apply guarantees_ret].
    apply guarantees_throws_bind; [|intros ?; apply guarantees_ret].
    unfold getOrderById.
    apply guarantees_throws_bind; [apply shopifyGraphQL_malformed|].
    intros ?; apply guarantees_ret.
Qed.

Lemma malformed_order_answer_is_malformed (x : exchange) :
  malformed_order_answer x -> malformed_answer x.
Proof. destruct x as [[| |? ? ? []] [|r]]; simpl; tauto. Qed.

Lemma seal_search_not_order_answer (c : call) (r : fetch_result) :
  is_seal_search c -> ~ malformed_order_answer (c, r).
Proof. destruct c as [| |? ? ? []]; simpl; tauto. Qed.

Lemma seal_get_not_order_answer (c : call) (r : fetch_result) :
  is_seal_get c -> ~ malformed_order_answer (c, r).
Proof. destruct c as [| |? ? ? []]; simpl; tauto. Qed.

Lemma tag_write_not_order_answer (tags : list string) (c : call) (r : fetch_result) :
  sends_tags tags c -> ~ malformed_order_answer (c, r).
Proof. destruct c as [| |? ? ? []]; destruct r; simpl; tauto. Qed.

Lemma order_created_try_malformed_order (req : request) :
  guarantees malformed_order_answer throws (order_created_try req).
Proof.
  unfold order_created_try.
  apply guarantees_lift_bind. intros valid.
  destruct (negb valid); [apply guarantees_ret|].
  destruct (byShop_get _ _) as [region|].
  2:{ apply guarantees_lift_bind. intros name. apply guarantees_ret. }
  apply guarantees_lift_bind. intros bad.
  destruct bad; [apply guarantees_ret|].
  destruct (negb _); [apply guarantees_ret|].
  destruct (negb _); [apply guarantees_ret|].
  unfold lookup_and_tag.
  apply guarantees_throws_bind.
  { eapply guarantees_weaken;
      [apply malformed_order_answer_is_malformed|apply ensureOrderContext_malformed]. }
  intros ensured.
  destruct (negb _); [apply guarantees_ret|].
  destruct (negb _); [apply guarantees_ret|].
  apply guarantees_after.
  { apply sealSearchByEmail_extends, seal_search_not_order_answer. }
  intros subs. apply guarantees_after.
  { apply fetch_details_extends, seal_get_not_order_answer. }
  intros details. apply guarantees_lift_bind. intros minimal.
  apply guarantees_lift_bind. intros tags.
  apply extends_guarantees, write_tags_extends, tag_write_not_order_answer.
Qed.

Lemma order_query_not_search_page (c : call) (r : fetch_result) :
  is_order_query c -> ~ unparseable_search_page (c, r).
Proof. destruct c as [| |? ? ? []]; simpl; tauto. Qed.

Lemma seal_get_not_search_page (c : call) (r : fetch_result) :
  is_seal_get c -> ~ unparseable_search_page (c, r).
Proof. destruct c as [| |? ? ? []]; simpl; tauto. Qed.

Lemma tag_write_not_search_page (tags : list string) (c : call) (r : fetch_result) :
  sends_tags tags c -> ~ unparseable_search_page (c, r).
Proof. destruct c as [| |? ? ? []]; simpl; tauto. Qed.

(** What follows the search, for an empty list of stubs: no detail
    request, no tag, both writes skipped. *)
Lemma no_subscriptions_result (shopDomain : value) (sealToken shopifyToken : string)
    (ensured : context) (h : list exchange) :
  bind (fetch_details (VArr []) sealToken)
    (fun details =>
       bind (lift (omap minimal_of details))
         (fun minimal =>
            bind (lift (deriveTags minimal))
              (fun tags => write_tags shopDomain shopifyToken ensured minimal tags))) h
  = (Return (respond 200
               (OkBody shopDomain (orderId ensured) (orderName ensured)
                       (js_or (customerId ensured) VNull) (email ensured) []
                       (Written skipped)
                       (if truthy (customerId ensured) then Some (Written skipped)
                        else None))), h).
Proof.
  unfold bind, fetch_details, lift, write_tags, caught, ret. simpl.
  destruct (truthy (customerId ensured)); reflexivity.
Qed.

Lemma search_page_then_rest (shopDomain : value) (sealToken shopifyToken : string)
    (ensured : context) :
  guarantees unparseable_search_page returns_empty_success
    (bind (sealSearchByEmail (email ensured) sealToken)
       (fun subs =>
          bind (fetch_details subs sealToken)
            (fun details =>
               bind (lift (omap minimal_of details))
                 (fun minimal =>
                    bind (lift (deriveTags minimal))
                      (fun tags =>
                         write_tags shopDomain shopifyToken ensured minimal tags))))).
Proof.
  intros h.
  set (rest := fun subs : value => bind (fetch_details subs sealToken) _).
  assert (forall subs, extends (fun x => ~ unparseable_search_page x) (rest subs)) as Hrest.
  { intros subs. unfold rest.
    apply extends_bind; [apply fetch_details_extends, seal_get_not_search_page|].
    intros details. apply extends_bind; [apply extends_lift|]. intros minimal.
    apply extends_bind; [apply extends_lift|]. intros tags.
    apply write_tags_extends, tag_write_not_search_page. }
  unfold bind at 1. unfold sealSearchByEmail, bind, lift, fetch_text, throw, ret.
  destruct (to_string (email ensured)) as [query|e].
  2:{ exists []. rewrite app_nil_r. split; [reflexivity|]. intros Hx.
      now apply Exists_nil in Hx. }
  set (c := SealSearch query sealToken).
  destruct (fetch h c) as [|r] eqn:Ef.
  { exists [(c, Rejected)]. split; [reflexivity|]. intros Hx.
    apply Exists_cons in Hx as [Hx|Hx]; [destruct Hx|now apply Exists_nil in Hx]. }
  destruct (ok r) eqn:Hok; simpl.
  2:{ exists [(c, Response r)]. split; [reflexivity|]. intros Hx.
      apply Exists_cons in Hx as [Hx|Hx]; [|now apply Exists_nil in Hx].
      simpl in Hx. destruct Hx. congruence. }
  unfold safeJson. destruct (JSON_parse (text r)) as [data|] eqn:Ej.
  - match goal with |- context [rest ?subs ?h1] =>
      destruct (Hrest subs h1) as [n2 [E2 F2]] end.
    exists ((c, Response r) :: n2). rewrite E2, <- app_assoc. split; [reflexivity|].
    intros Hx. apply Exists_cons in Hx as [Hx|Hx].
    + simpl in Hx. destruct Hx. congruence.
    + apply Exists_exists in Hx as [x [Hx Qx]]. rewrite Forall_forall in F2.
      now destruct (F2 x Hx).
  - exists [(c, Response r)]. simpl. unfold rest. rewrite no_subscriptions_result.
    split; [reflexivity|]. intros _. simpl.
    exists shopDomain, (orderId ensured), (orderName ensured),
      (js_or (customerId ensured) VNull), (email ensured).
    eexists. split; [reflexivity|]. destruct (truthy (customerId ensured)); tauto.
Qed.

Lemma order_created_try_search_page (req : request) :
  guarantees unparseable_search_page returns_empty_success (order_created_try req).
Proof.
  unfold order_created_try.
  apply guarantees_lift_bind. intros valid.
  destruct (negb valid); [apply guarantees_ret|].
  destruct (byShop_get _ _) as [region|].
  2:{ apply guarantees_lift_bind. intros name. apply guarantees_ret. }
  apply guarantees_lift_bind. intros bad.
  destruct bad; [apply guarantees_ret|].
  destruct (negb _); [apply guarantees_ret|].
  destruct (negb _); [apply guarantees_ret|].
  unfold lookup_and_tag.
  apply guarantees_after.
  { apply ensureOrderContext_extends, order_query_not_search_page. }
  intros ensured.
  destruct (negb _); [apply guarantees_ret|].
  destruct (negb _); [apply guarantees_ret|].
  apply search_page_then_rest.
Qed.

Lemma malformed_tag_answer_is_tag_write (x : exchange) :
  malformed_tag_answer x -> is_tag_write x.
Proof.
  destruct x as [c r]. unfold malformed_tag_answer, is_tag_write.
  destruct c as [| |? ? ? []], r; simpl; intros H; try exact I; destruct H.
Qed.

(** C2, as the code has it.  A malformed body from the admin API while
    the order context is resolved fails the request with the generic 500.
    A 2xx subscription-search response whose body is not JSON is read as
    an empty result by [safeJson]: the request goes on and is answered
    200, with an empty subscription list and both tag writes skipped.  A
    malformed body in answer to a tag write is caught with that write: the
    request is answered 200. *)
Theorem malformed_bodies (req : request) (h : list exchange) :
  exists new,
    snd (flow_order_created req h) = h ++ new
    /\ (Exists malformed_order_answer new ->
        server_error (fst (flow_order_created req h)))
    /\ (Exists unparseable_search_page new ->
        returns_empty_success (Return (fst (flow_order_created req h))))
    /\ (Exists malformed_tag_answer new -> success (fst (flow_order_created req h))).
Proof.
  destruct (order_created_try_malformed_order req h) as [new [E Hg]].
  destruct (order_created_try_search_page req h) as [new' [E' Hg']].
  assert (new' = new) as -> by (rewrite E in E'; now apply app_inv_head in E').
  destruct (guarantees_weaken is_tag_write malformed_tag_answer returns_success
              (order_created_try req) malformed_tag_answer_is_tag_write
              (order_created_try_tag_write req) h) as [new'' [E'' Ht]].
  assert (new'' = new) as -> by (rewrite E in E''; now apply app_inv_head in E'').
  exists new. unfold flow_order_created.
  destruct (order_created_try req h) as [[res|err] h']; simpl in *.
  - split; [exact E|]. split; [|split; [exact Hg'|]].
    + intros Hx. destruct (Hg Hx) as [e He]. discriminate.
    + intros Hx. destruct (Ht Hx) as [res' [Er Hs]]. congruence.
  - split; [exact E|]. split; [intros _; now eexists|]. split.
    + intros Hx. destruct (Hg' Hx) as (? & ? & ? & ? & ? & ? & Hr & _). discriminate.
    + intros Hx. destruct (Ht Hx) as [res' [Er Hs]]. discriminate.
Qed.

(** ** Validation and authentication *)

Lemma length_append (a b : string) :
  String.length (a +:+ b) = (String.length a + String.length b)%nat.
Proof. induction a as [|c a IH]; simpl; [reflexivity|]. now rewrite <- IH. Qed.

Lemma shop_pattern_length (s : string) : shop_pattern s -> (15 <= String.length s)%nat.
Proof.
  intros (label & Hl & _ & ->). rewrite length_append.
  destruct label; [contradiction|]. simpl. lia.
Qed.

(** A value whose text matches the pattern is truthy. *)
Lemma truthy_of_shop_text (v : value) (s : string) :
  to_string v = Return s -> shop_pattern s -> truthy v = true.
Proof.
  intros Hs Hp. apply shop_pattern_length in Hp.
  destruct v as [| |[]|n|t|l|f]; simpl in *; try reflexivity;
    try (injection Hs as <-; simpl in Hp; lia).
  - destruct (Z.eqb_spec n 0) as [->|Hn]; [|reflexivity].
    injection Hs as <-. vm_compute in Hp. lia.
  - injection Hs as ->. destruct s; [simpl in Hp; lia|reflexivity].
Qed.

(** A missing (falsy) shop domain is refused before any call. *)
Lemma missing_shop_is_refused (req : request) (h : list exchange) :
  truthy (body_field req "shopDomain") = false ->
  flow_order_created req h = (invalid_shop_response, h).
Proof.
  intros Hf. unfold flow_order_created, order_created_try, bind, lift, ret.
  fold (body_field req "shopDomain"). now rewrite Hf.
Qed.

(** A shop domain whose text does not match the pattern is refused before
    any call. *)
Lemma malformed_shop_is_refused (req : request) (h : list exchange) (s : string) :
  to_string (body_field req "shopDomain") = Return s ->
  ~ shop_pattern s ->
  flow_order_created req h = (invalid_shop_response, h).
Proof.
  intros Hs Hp. unfold flow_order_created, order_created_try, bind, lift, ret.
  fold (body_field req "shopDomain").
  destruct (truthy (body_field req "shopDomain")); [|reflexivity].
  unfold isValidShop. rewrite Hs. simpl.
  destruct (shop_regex_test s) eqn:Ht; [|reflexivity].
  now apply shop_regex_test_spec in Ht.
Qed.

(** A well-formed domain that is not in the registry is refused with its
    own message, before any call. *)
Lemma unknown_shop_is_refused (req : request) (h : list exchange) (s : string) :
  to_string (body_field req "shopDomain") = Return s ->
  shop_pattern s ->
  byShop_get env (body_field req "shopDomain") = None ->
  flow_order_created req h = (unknown_shop_response s, h).
Proof.
  intros Hs Hp Hn. unfold flow_order_created, order_created_try, bind, lift, ret.
  fold (body_field req "shopDomain").
  rewrite (truthy_of_shop_text _ s Hs Hp).
  unfold isValidShop. rewrite Hs. simpl.
  apply shop_regex_test_spec in Hp. rewrite Hp. simpl. now rewrite Hn.
Qed.

(** C8 at the input where it fails: a [shopDomain] that is an object with
    an own [toString] property.  Converting it for the pattern test throws,
    and the route answers the generic 500, not 400; no call is made. *)
Theorem unconvertible_shop_domain_gets_500 (secret : option string) (h : list exchange) :
  flow_order_created
    {| req_body := VObj [("shopDomain", VObj [("toString", VNum 1)])];
       x_flow_secret := secret |} h
  = (respond 500 (ErrorBody "Server error"
                    (if debug_errors env then Some TypeError else None)), h).
Proof. reflexivity. Qed.

(** The route once the shop is resolved. *)
Lemma resolved_shop_route (req : request) (h : list exchange) (s : string) (r : region) :
  body_field req "shopDomain" = VStr s ->
  shop_pattern s ->
  byShop env !! s = Some r ->
  order_created_try req h =
  if negb (secret_accepted r req)
  then (Return (respond 401 (ErrorBody "Bad X-Flow-Secret" None)), h)
  else if negb (configured (sealToken r))
  then (Return (respond 500 (ErrorBody "Seal token not configured for shop" None)), h)
  else if negb (configured (shopifyToken r))
  then (Return (respond 500 (ErrorBody "Shopify token not configured for shop" None)), h)
  else lookup_and_tag (request_context req)
         (default "" (sealToken r)) (default "" (shopifyToken r)) h.
Proof.
  intros Hs Hp Hr. unfold order_created_try, bind, lift, ret.
  fold (body_field req "shopDomain") (body_field req "orderId")
       (body_field req "orderName") (body_field req "customerId")
       (body_field req "email").
  rewrite Hs.
  assert (truthy (VStr s) = true) as ->.
  { destruct Hp as (label & Hl & _ & ->). destruct label; [contradiction|reflexivity]. }
  unfold isValidShop. simpl to_string. cbn [obind].
  apply shop_regex_test_spec in Hp. rewrite Hp. cbn [negb byShop_get]. rewrite Hr.
  unfold secret_accepted. rewrite tscEquals_spec.
  destruct (configured (flowSecret r)); cbn [obind negb orb];
    [destruct (bool_decide _); cbn [negb]|];
    (try reflexivity);
    destruct (negb (configured (sealToken r))); try reflexivity;
    destruct (negb (configured (shopifyToken r))); try reflexivity;
    unfold request_context; now rewrite Hs.
Qed.

Lemma lookup_and_tag_status (req_ctx : context) (sealToken shopifyToken : string)
    (h : list exchange) (res : response) :
  fst (lookup_and_tag req_ctx sealToken shopifyToken h) = Return res ->
  http_status res = 400 \/ http_status res = 200.
Proof.
  unfold lookup_and_tag, bind, lift, ret.
  destruct (ensureOrderContext req_ctx shopifyToken h) as [[ensured|e] h1];
    [|discriminate].
  destruct (negb _); [intros E; injection E as <-; now left|].
  destruct (negb _); [intros E; injection E as <-; now left|].
  destruct (sealSearchByEmail _ _ h1) as [[subs|e] h2]; [|discriminate].
  destruct (fetch_details _ _ h2) as [[details|e] h3]; [|discriminate].
  destruct (omap minimal_of details) as [minimal|e]; [|discriminate].
  destruct (deriveTags minimal) as [tags|e]; [|discriminate].
  rewrite write_tags_result. cbn [fst]. intros E. injection E as <-. now right.
Qed.

(** A request whose header check fails is answered 401 before any call. *)
Lemma rejected_secret_gets_401 (req : request) (h : list exchange) (s : string) (r : region) :
  body_field req "shopDomain" = VStr s ->
  shop_pattern s ->
  byShop env !! s = Some r ->
  secret_accepted r req = false ->
  flow_order_created req h = (respond 401 (ErrorBody "Bad X-Flow-Secret" None), h).
Proof.
  intros Hs Hp Hr Ha. unfold flow_order_created.
  rewrite (resolved_shop_route req h s r Hs Hp Hr), Ha. reflexivity.
Qed.

(** A request whose header check succeeds is never answered 401. *)
Lemma accepted_secret_passes (req : request) (h : list exchange) (s : string) (r : region) :
  body_field req "shopDomain" = VStr s ->
  shop_pattern s ->
  byShop env !! s = Some r ->
  secret_accepted r req = true ->
  http_status (fst (flow_order_created req h)) <> 401.
Proof.
  intros Hs Hp Hr Ha. unfold flow_order_created.
  rewrite (resolved_shop_route req h s r Hs Hp Hr), Ha. cbn [negb].
  destruct (negb (configured (sealToken r))); [simpl; lia|].
  destruct (negb (configured (shopifyToken r))); [simpl; lia|].
  destruct (lookup_and_tag _ _ _ h) as [[res|e] h'] eqn:El; simpl; [|lia].
  destruct (lookup_and_tag_status (request_context req) (default "" (sealToken r))
              (default "" (shopifyToken r)) h res) as [E|E];
    [now rewrite El|rewrite E; lia|rewrite E; lia].
Qed.

(** What the header check accepts, for a region with a secret: the header
    that is the secret, and -- the missing header, when the secret is the
    text ["undefined"]. *)
Lemma secret_accepted_spec (r : region) (req : request) (secret : string) :
  flowSecret r = Some secret -> secret <> "" ->
  secret_accepted r req = true <->
  x_flow_secret req = Some secret \/ (x_flow_secret req = None /\ secret = "undefined").
Proof.
  intros Hs Hne. unfold secret_accepted, configured. rewrite Hs. simpl.
  destruct (String.eqb secret "") eqn:E; [apply String.eqb_eq in E; contradiction|].
  simpl. rewrite bool_decide_eq_true.
  destruct (x_flow_secret req) as [hdr|]; simpl.
  - split; [intros ->; now left|]. intros [E'|[E' _]]; congruence.
  - split; [intros <-; now right|]. intros [E'|[_ E']]; congruence.
Qed.

Lemma no_secret_is_accepted (r : region) (req : request) :
  configured (flowSecret r) = false -> secret_accepted r req = true.
Proof. intros Hc. unfold secret_accepted. now rewrite Hc. Qed.

(** C3 at the input where it fails: the secret of the region is the text
    ["undefined"] and the request has no [X-Flow-Secret] header.
    [String(undefined)] is that text, the comparison succeeds, and the
    request is not answered 401. *)
Theorem missing_header_passes_for_secret_undefined
    (req : request) (h : list exchange) (s : string) (r : region) :
  body_field req "shopDomain" = VStr s ->
  shop_pattern s ->
  byShop env !! s = Some r ->
  flowSecret r = Some "undefined" ->
  x_flow_secret req = None ->
  http_status (fst (flow_order_created req h)) <> 401.
Proof.
  intros Hs Hp Hr Hsec Hhdr. apply (accepted_secret_passes req h s r Hs Hp Hr).
  apply (secret_accepted_spec r req "undefined" Hsec); [discriminate|]. now right.
Qed.

(** * Further properties of the code *)

(** ** The region registry and [/health] *)

Lemma last_filter_cons (P : region -> Prop) `{forall r, Decision (P r)}
    (r : region) (l : list region) :
  last (filter P (r :: l)) =
  match last (filter P l) with
  | Some x => Some x
  | None => if decide (P r) then Some r else None
  end.
Proof.
  clear env JSON_parse fetch.
  destruct (decide (P r)) as [Hr|Hr].
  - rewrite filter_cons_True by exact Hr. now rewrite last_cons.
  - rewrite filter_cons_False by exact Hr. now destruct (last (filter P l)).
Qed.

Lemma foldl_insert_lookup (l : list region) (m : gmap string region) (s : string) :
  foldl (fun m r => match shop r with
                    | Some k => <[k := r]> m
                    | None => m
                    end) m l !! s
  = match last (filter (fun r => shop r = Some s) l) with
    | Some r => Some r
    | None => m !! s
    end.
Proof.
  clear env JSON_parse fetch.
  revert m. induction l as [|r l IH]; intros m; [reflexivity|].
  cbn [foldl]. rewrite IH, last_filter_cons.
  destruct (last (filter (fun r => shop r = Some s) l)) as [x|]; [reflexivity|].
  destruct (decide (shop r = Some s)) as [Hr|Hr].
  - rewrite Hr. apply lookup_insert_eq.
  - destruct (shop r) as [k|]; [|reflexivity].
    apply lookup_insert_ne. congruence.
Qed.


Lemma last_filter_is_Some (P : region -> Prop) `{forall r, Decision (P r)} (l : list region) :
  is_Some (last (filter P l)) <-> exists r, r ∈ l /\ P r.
Proof.
  clear env JSON_parse fetch.
  induction l as [|r l IH].
  - split; [intros [x Hx]; discriminate|intros [r [Hr _]]; now apply elem_of_nil in Hr].
  - rewrite last_filter_cons. split.
    + destruct (last (filter P l)) as [x|] eqn:El.
      * intros _. destruct (proj1 IH) as [r' [Hr' Pr']]; [now exists x|].
        exists r'. split; [now apply elem_of_cons; right|exact Pr'].
      * destruct (decide (P r)) as [Hr|Hr]; [|intros [x Hx]; discriminate].
        intros _. exists r. split; [now apply elem_of_cons; left|exact Hr].
    + intros [r' [Hr' Pr']]. destruct (last (filter P l)) as [x|] eqn:El; [now exists x|].
      apply elem_of_cons in Hr' as [->|Hr'].
      * rewrite decide_True by exact Pr'. now exists r.
      * destruct (proj2 IH) as [x Hx]; [now exists r'|discriminate].
Qed.

Lemma regions_configured (r : region) : r ∈ regions env -> configured (shop r) = true.
Proof. unfold regions. intros Hr. now apply list_elem_of_filter in Hr as [Hc _]. Qed.

Lemma byShop_lookup_spec_aux (s : string) :
  byShop env !! s = last (filter (fun r => shop r = Some s) (regions env)).
Proof.
  unfold byShop. rewrite foldl_insert_lookup.
  destruct (last _); [reflexivity|apply lookup_empty].
Qed.

(** X1: the registry answers with the last region (in the order UK, EU,
    US) whose shop variable is set to the domain asked for; a domain no
    variable names has no region, and the region found has that domain,
    which is not empty. *)
Theorem byShop_later_region_wins (s : string) :
  byShop env !! s = last (filter (fun r => shop r = Some s) (regions env))
  /\ (forall r, byShop env !! s = Some r ->
        shop r = Some s /\ s <> "" /\ r ∈ regions env).
Proof.
  split; [apply byShop_lookup_spec_aux|].
  intros r Hr. rewrite byShop_lookup_spec_aux in Hr.
  apply last_Some_elem_of in Hr. apply list_elem_of_filter in Hr as [Hs Hin].
  split; [exact Hs|]. split; [|exact Hin].
  intros ->. apply regions_configured in Hin. rewrite Hs in Hin. discriminate.
Qed.

(** ** The shop pattern and the secret comparison, once more *)

Lemma list_ascii_of_append (a b : string) :
  list_ascii_of_string (a +:+ b) = list_ascii_of_string a ++ list_ascii_of_string b.
Proof. induction a as [|c a IH]; simpl; [reflexivity|]. now rewrite <- IH. Qed.

Lemma label_has_no_dot (label : string) :
  all_label label = true ->
  Forall (fun c => label_char c = true) (list_ascii_of_string label)
  /\ filter (fun c => c = "."%char) (list_ascii_of_string label) = [].
Proof.
  induction label as [|c label IH]; simpl; [now split|].
  intros H. apply andb_true_iff in H as [Hc Hl]. destruct (IH Hl) as [Hf Hd].
  split; [now constructor|].
  rewrite filter_cons_False; [exact Hd|]. intros ->. discriminate.
Qed.

(** X3: a domain the pattern accepts is a plain host name under
    [myshopify.com]: it consists of lowercase letters, digits, hyphens and
    dots only, and has exactly two dots (so no further sub-domain, no path,
    port or user part). *)
Theorem accepted_shop_is_a_plain_host (s : string) :
  isValidShop (VStr s) = Return true ->
  Forall (fun c => label_char c = true \/ c = "."%char) (list_ascii_of_string s)
  /\ length (filter (fun c => c = "."%char) (list_ascii_of_string s)) = 2%nat
  /\ (15 <= String.length s)%nat.
Proof.
  unfold isValidShop. simpl. intros H. injection H as H.
  apply shop_regex_test_spec in H. pose proof (shop_pattern_length s H) as Hlen.
  destruct H as (label & _ & Hl & ->).
  destruct (label_has_no_dot label Hl) as [Hf Hd].
  rewrite list_ascii_of_append, filter_app, Hd. repeat split; [|exact Hlen].
  apply Forall_app. split.
  - eapply Forall_impl; [exact Hf|]. intros c Hc. now left.
  - simpl. repeat constructor; (now left) || (now right).
Qed.

(** X4: the comparison never throws -- the length guard keeps
    [timingSafeEqual] from its [RangeError] -- and for a header that is
    present it answers true exactly when header and secret are the same
    text. *)
Theorem tscEquals_is_exact (a : option string) (b : string) :
  (exists r, tscEquals a b = Return r)
  /\ (forall hdr, a = Some hdr -> (tscEquals a b = Return true <-> hdr = b)).
Proof.
  rewrite tscEquals_spec. split; [now eexists|].
  intros hdr ->. simpl. split.
  - intros E. injection E as E. now apply bool_decide_eq_true in E.
  - intros ->. f_equal. now apply bool_decide_eq_true.
Qed.

(** ** Deduplication keeps the order *)

Lemma Set_fold_fresh (l seen : list string) :
  NoDup (seen ++ l) ->
  fold_left (fun seen t => if bool_decide (t ∈ seen) then seen else seen ++ [t]) l seen
  = seen ++ l.
Proof.
  clear env JSON_parse fetch.
  revert seen. induction l as [|t l IH]; intros seen Hn; simpl; [now rewrite app_nil_r|].
  assert (t ∉ seen) as Ht.
  { apply NoDup_app in Hn as (_ & Hd & _). intros Hin. apply (Hd t Hin).
    apply elem_of_cons. now left. }
  rewrite bool_decide_eq_false_2 by exact Ht.
  rewrite IH; [now rewrite <- app_assoc|]. now rewrite <- app_assoc.
Qed.

Lemma Set_fold_prefix (l acc seen : list string) :
  (forall x, x ∈ acc -> x ∉ l) ->
  fold_left (fun seen t => if bool_decide (t ∈ seen) then seen else seen ++ [t]) l
    (acc ++ seen)
  = acc ++ fold_left (fun seen t => if bool_decide (t ∈ seen) then seen else seen ++ [t])
             l seen.
Proof.
  clear env JSON_parse fetch.
  revert seen. induction l as [|t l IH]; intros seen Hd; simpl; [reflexivity|].
  assert (t ∉ acc) as Ht.
  { intros Hin. apply (Hd t Hin), elem_of_cons. now left. }
  assert (forall x, x ∈ acc -> x ∉ l) as Hd'.
  { intros x Hx Hin. apply (Hd x Hx), elem_of_cons. now right. }
  destruct (decide (t ∈ seen)) as [Hs|Hs].
  - rewrite !bool_decide_eq_true_2; [now apply IH|exact Hs|].
    apply elem_of_app. now right.
  - rewrite !bool_decide_eq_false_2; [|exact Hs|].
    + rewrite <- app_assoc. now apply IH.
    + intros Hin. apply elem_of_app in Hin as [Hin|Hin]; contradiction.
Qed.

Lemma Set_fold_sublist (l seen : list string) :
  exists kept,
    fold_left (fun seen t => if bool_decide (t ∈ seen) then seen else seen ++ [t]) l seen
    = seen ++ kept
    /\ kept `sublist_of` l.
Proof.
  clear env JSON_parse fetch.
  revert seen. induction l as [|t l IH]; intros seen; simpl.
  - exists []. now rewrite app_nil_r.
  - case_bool_decide as Ht.
    + destruct (IH seen) as [kept [E Hs]]. exists kept. split; [exact E|].
      now apply sublist_cons.
    + destruct (IH (seen ++ [t])) as [kept [E Hs]]. exists (t :: kept).
      split; [now rewrite E, <- app_assoc|]. now apply sublist_skip.
Qed.

Lemma Array_from_Set_fresh (l : list string) : NoDup l -> Array_from_Set l = l.
Proof. intros Hn. unfold Array_from_Set. now rewrite Set_fold_fresh. Qed.

Lemma Array_from_Set_app (a b : list string) :
  NoDup a -> (forall x, x ∈ a -> x ∉ b) ->
  Array_from_Set (a ++ b) = a ++ Array_from_Set b.
Proof.
  intros Hn Hd. unfold Array_from_Set. rewrite fold_left_app.
  rewrite (Set_fold_fresh a []) by exact Hn. simpl.
  rewrite <- (app_nil_r a) at 1. now apply Set_fold_prefix.
Qed.

(** The position of a tag in [Array.from(new Set(tags))] is that of its
    first occurrence: the tags before it are those that occur before it in
    [tags]. *)
Lemma Array_from_Set_first_occurrence (l : list string) (k : nat) (u : string) :
  Array_from_Set l !! k = Some u ->
  exists pre post,
    l = pre ++ u :: post /\ (u ∉ pre)
    /\ (forall v, v ∈ take k (Array_from_Set l) <-> v ∈ pre).
Proof.
  clear env JSON_parse fetch.
  intros Hk.
  assert (u ∈ l) as Hin
    by (apply Array_from_Set_elem; now apply list_elem_of_lookup_2 in Hk).
  destruct (list_elem_of_split_l l u Hin) as (pre & post & -> & Hpre).
  exists pre, post. split; [reflexivity|]. split; [exact Hpre|].
  pose proof (Array_from_Set_NoDup (pre ++ u :: post)) as Hn.
  assert (exists kept, Array_from_Set (pre ++ u :: post)
                       = Array_from_Set pre ++ u :: kept) as [kept E].
  { unfold Array_from_Set. rewrite fold_left_app. simpl.
    rewrite bool_decide_eq_false_2
      by (intros H; now apply (Array_from_Set_elem u pre) in H).
    destruct (Set_fold_sublist post (Array_from_Set pre ++ [u])) as [kept [E _]].
    exists kept. unfold Array_from_Set in E. now rewrite E, <- app_assoc. }
  rewrite E in Hk, Hn |- *.
  assert (k = length (Array_from_Set pre)) as ->.
  { apply (NoDup_lookup _ _ _ u Hn Hk). apply list_lookup_middle. reflexivity. }
  rewrite take_app_length. intros v. apply Array_from_Set_elem.
Qed.

(** X5: a tag write with tags reaches the admin API in exactly one
    request; the tags it carries are the given tags, each once, in the
    order of their first occurrence: the tags sent before a tag are those
    that occur before its first occurrence in the given list.  They are the
    given list itself when that has no duplicates. *)
Theorem tagsAdd_sends_each_tag_once_in_order
    (shop : value) (token : string) (gid : value) (t : string) (tags : list string)
    (h : list exchange) (host : string) :
  to_string shop = Return host ->
  exists sent r,
    snd (tagsAdd shop token gid (Some (t :: tags)) h)
    = h ++ [(ShopifyGraphQL host (api_version env) token (TagsAdd gid sent), r)]
    /\ sent `sublist_of` (t :: tags)
    /\ NoDup sent
    /\ (forall u, u ∈ sent <-> u ∈ t :: tags)
    /\ (forall k u, sent !! k = Some u ->
          exists pre post,
            t :: tags = pre ++ u :: post /\ (u ∉ pre)
            /\ (forall v, v ∈ take k sent <-> v ∈ pre))
    /\ (NoDup (t :: tags) -> sent = t :: tags)
    /\ Array_from_Set sent = sent.
Proof.
  intros Hs. destruct (tagsAdd_with_tags_calls shop token gid t tags h host Hs) as [r E].
  exists (Array_from_Set (t :: tags)), r. split; [exact E|].
  pose proof (Array_from_Set_NoDup (t :: tags)) as Hn.
  split; [|split; [exact Hn|split; [|split; [|split]]]].
  - destruct (Set_fold_sublist (t :: tags) []) as [kept [Ek Hk]].
    unfold Array_from_Set. now rewrite Ek.
  - intros u. apply Array_from_Set_elem.
  - intros k u. apply Array_from_Set_first_occurrence.
  - apply Array_from_Set_fresh.
  - now apply Array_from_Set_fresh.
Qed.

(** ** The layout of the derived tags *)

Lemma omap_Forall2 {A B : Type} (f : A -> outcome B) (l : list A) (ys : list B) :
  omap f l = Return ys <-> Forall2 (fun x y => f x = Return y) l ys.
Proof.
  clear env JSON_parse fetch.
  revert ys. induction l as [|x l IH]; intros ys; simpl.
  - split; [intros E; injection E as <-; constructor|intros E; now inversion E].
  - split.
    + intros E. destruct (f x) as [y|] eqn:Fx; simpl in E; [|discriminate].
      destruct (omap f l) as [ys0|] eqn:El; simpl in E; [|discriminate].
      injection E as <-. constructor; [exact Fx|]. now apply IH.
    + intros E. inversion E as [|x' y l' ys' Fx Hrest]; subst.
      rewrite Fx. simpl. apply IH in Hrest. now rewrite Hrest.
Qed.

Lemma id_tag_not_cycles_tag (m m' : summary) (t : string) :
  id_tag m = Return t -> cycles_tag m' = Return t -> False.
Proof.
  clear env JSON_parse fetch.
  unfold id_tag, cycles_tag.
  destruct (to_string (sub_id m)) as [i|]; simpl; [|discriminate].
  destruct (to_string (billing_min_cycles m')) as [c|]; simpl; [|discriminate].
  intros E E'. rewrite <- E in E'. discriminate.
Qed.

(** X6: the derived tag list is laid out as the code builds it: first one
    [seal_sub_id_] tag per subscription, in the order of the subscriptions,
    then one [seal_min_cycles_] tag per subscription whose
    [billing_min_cycles] is not [null]; no tag of the first kind equals one
    of the second. *)
Theorem deriveTags_layout (minimal : list summary) (tags : list string) :
  deriveTags minimal = Return tags ->
  exists ids cycles,
    tags = ids ++ cycles
    /\ Forall2 (fun m t => id_tag m = Return t) minimal ids
    /\ Forall2 (fun m t => cycles_tag m = Return t)
         (filter (fun m => not_nullish (billing_min_cycles m) = true) minimal) cycles
    /\ (forall t, t ∈ ids -> t ∉ cycles)
    /\ length tags
       = (length minimal
          + length (filter (fun m => not_nullish (billing_min_cycles m) = true) minimal))%nat.
Proof.
  rewrite deriveTags_unfold. intros E.
  destruct (omap id_tag minimal) as [ids|] eqn:Ei; simpl in E; [|discriminate].
  destruct (omap cycles_tag _) as [cycles|] eqn:Ec; simpl in E; [|discriminate].
  injection E as <-. apply omap_Forall2 in Ei, Ec.
  exists ids, cycles. split; [reflexivity|]. split; [exact Ei|]. split; [exact Ec|].
  split.
  - intros t Hi Hc.
    apply list_elem_of_lookup in Hi as [i Hi], Hc as [j Hc].
    destruct (Forall2_lookup_r _ _ _ _ _ Ei Hi) as (m & _ & Hm).
    destruct (Forall2_lookup_r _ _ _ _ _ Ec Hc) as (m' & _ & Hm').
    exact (id_tag_not_cycles_tag m m' t Hm Hm').
  - rewrite length_app.
    now rewrite <- (Forall2_length _ _ _ Ei), <- (Forall2_length _ _ _ Ec).
Qed.

Lemma id_tag_numeric_inj (m m' : summary) (n n' : Z) (t : string) :
  sub_id m = VNum n -> sub_id m' = VNum n' ->
  id_tag m = Return t -> id_tag m' = Return t -> n = n'.
Proof.
  clear env JSON_parse fetch.
  unfold id_tag. intros -> ->. simpl. intros E E'. rewrite <- E in E'.
  injection E' as E'. change (pretty n' = pretty n) in E'.
  symmetry. now apply (inj pretty) in E'.
Qed.

(** X7: for subscriptions with pairwise different numeric ids,
    deduplication loses no id tag: what is sent is every id tag, in order,
    followed by the deduplicated min-cycles tags. *)
Theorem distinct_ids_keep_their_tags (minimal : list summary) (tags : list string) :
  Forall (fun m => exists n, sub_id m = VNum n) minimal ->
  NoDup (map sub_id minimal) ->
  deriveTags minimal = Return tags ->
  exists ids cycles,
    tags = ids ++ cycles
    /\ length ids = length minimal
    /\ Array_from_Set tags = ids ++ Array_from_Set cycles.
Proof.
  intros Hnum Hnd E. rewrite deriveTags_unfold in E.
  destruct (omap id_tag minimal) as [ids|] eqn:Ei; simpl in E; [|discriminate].
  destruct (omap cycles_tag _) as [cycles|] eqn:Ec; simpl in E; [|discriminate].
  injection E as <-. apply omap_Forall2 in Ei, Ec.
  exists ids, cycles. split; [reflexivity|].
  split; [now rewrite (Forall2_length _ _ _ Ei)|].
  apply Array_from_Set_app.
  - apply NoDup_alt. intros i j t Hi Hj.
    destruct (Forall2_lookup_r _ _ _ _ _ Ei Hi) as (m & Hm & Ht).
    destruct (Forall2_lookup_r _ _ _ _ _ Ei Hj) as (m' & Hm' & Ht').
    destruct (proj1 (Forall_lookup _ _) Hnum i m Hm) as [n Hn].
    destruct (proj1 (Forall_lookup _ _) Hnum j m' Hm') as [n' Hn'].
    pose proof (id_tag_numeric_inj m m' n n' t Hn Hn' Ht Ht') as <-.
    apply (proj1 (NoDup_alt _) Hnd i j (VNum n));
      rewrite list_lookup_fmap; [now rewrite Hm; simpl; rewrite Hn
                                |now rewrite Hm'; simpl; rewrite Hn'].
  - intros t Hi Hc.
    apply list_elem_of_lookup in Hi as [i Hi], Hc as [j Hc].
    destruct (Forall2_lookup_r _ _ _ _ _ Ei Hi) as (m & _ & Hm).
    destruct (Forall2_lookup_r _ _ _ _ _ Ec Hc) as (m' & _ & Hm').
    exact (id_tag_not_cycles_tag m m' t Hm Hm').
Qed.

(** ** The remote helpers *)

(** X8: [shopifyGraphQL] returns exactly when the host converts, the
    answer is 2xx, its body parses to something other than [null], and
    that has no truthy [errors]; it then returns the [data] of the body and
    has logged one exchange.  In every other case it throws. *)
Theorem shopifyGraphQL_returns_iff
    (shop : value) (token : string) (op : graphql_op) (h h' : list exchange) (v : value) :
  shopifyGraphQL shop token op h = (Return v, h') <->
  exists host r json,
    to_string shop = Return host
    /\ fetch h (ShopifyGraphQL host (api_version env) token op) = Response r
    /\ ok r = true
    /\ JSON_parse (text r) = Some json
    /\ not_nullish json = true
    /\ truthy (prop json "errors") = false
    /\ v = prop json "data"
    /\ h' = h ++ [(ShopifyGraphQL host (api_version env) token op, Response r)].
Proof.
  unfold shopifyGraphQL, bind, lift, fetch_text, throw, ret. split.
  - destruct (to_string shop) as [host|]; [|discriminate].
    destruct (fetch h _) as [|r] eqn:Ef; [discriminate|].
    destruct (JSON_parse (text r)) as [json|] eqn:Ej; [|discriminate].
    unfold prop_strict.
    destruct json as [| |b|n|s|l|f] eqn:Ejson; try discriminate;
      (destruct (ok r) eqn:Hok; cbn [negb orb]; [|discriminate]);
      match goal with |- context [truthy ?e] => destruct (truthy e) eqn:Ht end;
      try discriminate;
      intros E; injection E as <- <-;
      exists host, r; eexists; repeat split; eauto.
  - intros (host & r & json & -> & -> & Hok & -> & Hn & Ht & -> & ->).
    unfold prop_strict. destruct json; try discriminate;
      now rewrite Hok, Ht.
Qed.

(** X9: [sealSearchByEmail].  A 2xx answer is normalised to a value that is
    never [null] or [undefined]: a bare array and an envelope with a
    [payload] array give the same list, a body that does not parse the
    empty list.  An answer outside 2xx throws with the upstream status and
    body.  Either way one exchange is logged. *)
Theorem sealSearchByEmail_result
    (email : value) (sealToken query : string) (h : list exchange) (r : http_response) :
  to_string email = Return query ->
  fetch h (SealSearch query sealToken) = Response r ->
  snd (sealSearchByEmail email sealToken h) = h ++ [(SealSearch query sealToken, Response r)]
  /\ (ok r = false ->
      fst (sealSearchByEmail email sealToken h)
      = Throw (SealSearchFailed (status r) (text r)))
  /\ (ok r = true ->
      exists subs,
        fst (sealSearchByEmail email sealToken h) = Return subs
        /\ not_nullish subs = true
        /\ (forall l, JSON_parse (text r) = Some (VArr l) -> subs = VArr l)
        /\ (forall f l, JSON_parse (text r) = Some (VObj f) ->
                        assoc "payload" f = Some (VArr l) -> subs = VArr l)
        /\ (JSON_parse (text r) = None -> subs = VArr [])).
Proof.
  intros Hq Hf. unfold sealSearchByEmail, bind, lift, fetch_text, throw, ret.
  rewrite Hq, Hf. destruct (ok r) eqn:Hok; cbn [negb fst snd].
  - split; [reflexivity|]. split; [discriminate|]. intros _.
    eexists. split; [reflexivity|]. unfold safeJson.
    destruct (JSON_parse (text r)) as [data|] eqn:Ej.
    + split; [|split; [|split]].
      * destruct data as [| |b|n|s|l|f]; try reflexivity. simpl.
        destruct (assoc "payload" f) as [[]|]; reflexivity.
      * intros l E. now injection E as ->.
      * intros f l E Hp. injection E as ->. simpl. now rewrite Hp.
      * discriminate.
    + split; [reflexivity|]. split; [discriminate|]. split; [discriminate|]. reflexivity.
  - split; [reflexivity|]. split; [reflexivity|discriminate].
Qed.

Lemma sealGetById_returns (id : value) (sealToken : string) (h h' : list exchange)
    (d : value) :
  sealGetById id sealToken h = (Return d, h') ->
  exists i r,
    to_string id = Return i
    /\ fetch h (SealGet i sealToken) = Response r
    /\ ok r = true
    /\ h' = h ++ [(SealGet i sealToken, Response r)]
    /\ d = unwrap_detail r.
Proof.
  unfold sealGetById, bind, lift, fetch_text, throw, ret.
  destruct (to_string id) as [i|]; [|discriminate].
  destruct (fetch h _) as [|r] eqn:Ef; [discriminate|].
  destruct (ok r) eqn:Hok; cbn [negb]; [|discriminate].
  intros E. injection E as <- <-. exists i, r. now repeat split.
Qed.

(** X10: a 2xx detail answer that carries no subscription -- a body that
    does not parse, or an envelope whose [payload] is falsy and which has
    no [id] of its own -- is not an error: it becomes the summary
    [{ id: undefined, billing_min_cycles: null }], whose only tag is
    [seal_sub_id_undefined]. *)
Theorem detail_without_id_is_tagged_undefined
    (id : value) (sealToken i : string) (h : list exchange) (r : http_response) :
  to_string id = Return i ->
  fetch h (SealGet i sealToken) = Response r ->
  ok r = true ->
  (JSON_parse (text r) = None
   \/ exists f, JSON_parse (text r) = Some (VObj f)
                /\ truthy (prop (VObj f) "payload") = false
                /\ assoc "id" f = None
                /\ assoc "billing_min_cycles" f = None) ->
  exists d,
    sealGetById id sealToken h = (Return d, h ++ [(SealGet i sealToken, Response r)])
    /\ minimal_of d = Return nameless_summary
    /\ deriveTags [nameless_summary] = Return ["seal_sub_id_undefined"].
Proof.
  intros Hi Hf Hok Hbody.
  unfold sealGetById, bind, lift, fetch_text, throw, ret.
  rewrite Hi, Hf, Hok. cbn [negb]. eexists. split; [reflexivity|].
  split; [|reflexivity].
  unfold safeJson. destruct Hbody as [->|(f & -> & Hp & Hid & Hb)]; [reflexivity|].
  rewrite (js_or_right _ _ Hp). unfold minimal_of. simpl. now rewrite Hid, Hb.
Qed.

(** X11: [findOrderByName] looks a name up with one leading [#], whether
    or not the caller wrote it; what it returns is [null] or truthy; and a
    name that is not a string throws before any request. *)
Theorem findOrderByName_normalises_the_name
    (shop : value) (token : string) (h : list exchange) :
  (forall name, String.prefix "#" name = false ->
     findOrderByName shop token (VStr name) h
     = findOrderByName shop token (VStr ("#" +:+ name)) h)
  /\ (forall orderName found h',
        findOrderByName shop token orderName h = (Return found, h') ->
        found = VNull \/ truthy found = true)
  /\ (forall orderName, (forall name, orderName <> VStr name) ->
        findOrderByName shop token orderName h = (Throw TypeError, h)).
Proof.
  split; [|split].
  - intros name Hp. unfold findOrderByName. rewrite Hp.
    change ("#" +:+ name) with (String "#" name).
    assert (String.prefix "#" (String "#" name) = true) as ->; [|reflexivity].
    simpl. destruct (ascii_dec "#" "#"); [now destruct name|contradiction].
  - intros orderName found h'. unfold findOrderByName, bind, ret.
    destruct orderName; try discriminate.
    destruct (shopifyGraphQL shop token _ h) as [[resp|e] h1]; [|discriminate].
    intros E. injection E as <- _. unfold js_or.
    destruct (truthy (item0 _)) eqn:Ht; [now right|now left].
  - intros orderName Hn. unfold findOrderByName.
    destruct orderName; try reflexivity. now destruct (Hn s).
Qed.

(** ** The context resolver, once more *)

Lemma shopifyGraphQL_log (shop : value) (token : string) (op : graphql_op)
    (h : list exchange) :
  snd (shopifyGraphQL shop token op h) = h
  \/ exists host r,
       snd (shopifyGraphQL shop token op h)
       = h ++ [(ShopifyGraphQL host (api_version env) token op, r)].
Proof.
  unfold shopifyGraphQL, bind, lift, fetch_text, throw, ret.
  destruct (to_string shop) as [host|]; [|now left].
  right. exists host, (fetch h (ShopifyGraphQL host (api_version env) token op)).
  destruct (fetch h _) as [|r]; [reflexivity|].
  destruct (JSON_parse (text r)) as [json|]; [|reflexivity].
  destruct (prop_strict json "errors") as [errors|]; [|reflexivity].
  destruct (negb (ok r) || truthy errors); reflexivity.
Qed.

Lemma findOrderByName_log (shop : value) (token : string) (orderName : value)
    (h : list exchange) :
  exists q, snd (findOrderByName shop token orderName h) = h ++ q
            /\ (length q <= 1)%nat /\ Forall is_by_name q.
Proof.
  unfold findOrderByName. destruct orderName;
    try (exists []; rewrite app_nil_r; repeat split; [simpl; lia|constructor]).
  unfold bind, ret.
  destruct (shopifyGraphQL_log shop token
              (OrderByName ("name:" +:+ (if String.prefix "#" s then s else "#" +:+ s))) h)
    as [E|(host & r & E)];
    destruct (shopifyGraphQL shop token _ h) as [[resp|e] h1]; simpl in E; subst h1.
  - exists []. rewrite app_nil_r. repeat split; [simpl; lia|constructor].
  - exists []. rewrite app_nil_r. repeat split; [simpl; lia|constructor].
  - eexists [_]. repeat split; [simpl; lia|]. repeat constructor.
  - eexists [_]. repeat split; [simpl; lia|]. repeat constructor.
Qed.

Lemma getOrderById_log (shop : value) (token : string) (orderId : value)
    (h : list exchange) :
  exists q, snd (getOrderById shop token orderId h) = h ++ q
            /\ (length q <= 1)%nat /\ Forall is_by_id q.
Proof.
  unfold getOrderById, bind, ret.
  destruct (shopifyGraphQL_log shop token (OrderById orderId) h) as [E|(host & r & E)];
    destruct (shopifyGraphQL shop token _ h) as [[resp|e] h1]; simpl in E; subst h1.
  - exists []. rewrite app_nil_r. repeat split; [simpl; lia|constructor].
  - exists []. rewrite app_nil_r. repeat split; [simpl; lia|constructor].
  - eexists [_]. repeat split; [simpl; lia|]. repeat constructor.
  - eexists [_]. repeat split; [simpl; lia|]. repeat constructor.
Qed.

Lemma ensureOrderContext_log (partial : context) (token : string) (h : list exchange) :
  exists byName byId,
    snd (ensureOrderContext partial token h) = h ++ byName ++ byId
    /\ (length byName <= 1)%nat /\ (length byId <= 1)%nat
    /\ Forall is_by_name byName /\ Forall is_by_id byId
    /\ (truthy (orderId partial) && truthy (customerId partial)
        && truthy (email partial) && truthy (orderName partial) = true ->
        byName = [] /\ byId = [])
    /\ (negb (truthy (orderId partial)) && truthy (orderName partial) = false ->
        byName = [])
    /\ (truthy (orderId partial) = false -> truthy (orderName partial) = false ->
        byId = []).
Proof.
  unfold ensureOrderContext, bind, ret.
  destruct (truthy (orderId partial) && truthy (customerId partial)
            && truthy (email partial) && truthy (orderName partial)) eqn:All.
  { exists [], []. simpl. rewrite app_nil_r. repeat split; (lia || constructor). }
  destruct (negb (truthy (orderId partial)) && truthy (orderName partial)) eqn:ByName.
  - destruct (findOrderByName_log (shopDomain partial) token (orderName partial) h)
      as (q1 & E1 & L1 & F1).
    destruct (findOrderByName (shopDomain partial) token (orderName partial) h)
      as [[found|e] h1]; simpl in E1; subst h1.
    + match goal with |- context [if ?c then _ else _] => destruct c end; cbv beta.
      * match goal with |- context [getOrderById ?s ?t ?i ?hh] =>
          destruct (getOrderById_log s t i hh) as (q2 & E2 & L2 & F2);
          destruct (getOrderById s t i hh) as [[got|e] h2] end;
          simpl in E2; subst h2;
          exists q1, q2; cbn [snd]; rewrite <- app_assoc;
          (repeat split; try assumption; try discriminate);
          intros Hoi Hon; rewrite Hoi, Hon in ByName; discriminate.
      * exists q1, []. cbn [snd]. rewrite app_nil_r.
        repeat split; try assumption; try discriminate; try constructor; simpl; lia.
    + exists q1, []. cbn [snd]. rewrite app_nil_r.
      repeat split; try assumption; try discriminate; try constructor; simpl; lia.
  - cbv beta iota.
    match goal with |- context [if ?c then _ else _] => destruct c eqn:ById end; cbv beta.
    + destruct (getOrderById_log (shopDomain partial) token (orderId partial) h)
        as (q2 & E2 & L2 & F2).
      destruct (getOrderById (shopDomain partial) token (orderId partial) h)
        as [[got|e] h2]; simpl in E2; subst h2;
        exists [], q2; cbn [snd app];
        (repeat split; try assumption; try discriminate; try constructor; try (simpl; lia));
        intros Hoi Hon; rewrite Hoi, andb_false_r in ById; discriminate.
    + exists [], []. cbn [snd]. rewrite app_nil_r.
      repeat split; try discriminate; try constructor; simpl; lia.
Qed.

(** X12: the resolver asks the admin API at most twice, by name first and
    by id second; not at all when nothing is missing; not by name when an
    order id is given or no name is; and not at all when neither an order
    id nor a name is given. *)
Theorem ensureOrderContext_asks_at_most_twice
    (partial : context) (token : string) (h : list exchange) :
  exists byName byId,
    snd (ensureOrderContext partial token h) = h ++ byName ++ byId
    /\ (length byName <= 1)%nat /\ (length byId <= 1)%nat
    /\ Forall is_by_name byName /\ Forall is_by_id byId
    /\ (truthy (orderId partial) && truthy (customerId partial)
        && truthy (email partial) && truthy (orderName partial) = true ->
        byName = [] /\ byId = [])
    /\ (truthy (orderId partial) = true \/ truthy (orderName partial) = false ->
        byName = [])
    /\ (truthy (orderId partial) = false -> truthy (orderName partial) = false ->
        byName = [] /\ byId = []).
Proof.
  destruct (ensureOrderContext_log partial token h)
    as (q1 & q2 & E & L1 & L2 & F1 & F2 & Hall & Hn & Hi).
  exists q1, q2. do 5 (split; [assumption|]). split; [exact Hall|]. split.
  - intros [Ho|Ho]; apply Hn; rewrite Ho; [reflexivity|apply andb_false_r].
  - intros Ho Hon. split; [|now apply Hi]. apply Hn. rewrite Hon. apply andb_false_r.
Qed.

(** X13: with an order id in the request the resolver only fills gaps:
    the order id, and a customer id and an email that Flow sent, come back
    as they were sent. *)
Theorem ensureOrderContext_with_order_id_only_fills_gaps
    (partial : context) (token : string) (h h' : list exchange) (out : context) :
  truthy (orderId partial) = true ->
  ensureOrderContext partial token h = (Return out, h') ->
  orderId out = orderId partial
  /\ (truthy (customerId partial) = true -> customerId out = customerId partial)
  /\ (truthy (email partial) = true -> email out = email partial)
  /\ (truthy (customerId out) = true \/ customerId out = customerId partial
      \/ customerId out = VNull)
  /\ (truthy (email out) = true \/ email out = email partial \/ email out = VNull).
Proof.
  intros Hoi E.
  apply ensureOrderContext_cases in E as [(_ & -> & _)|(byName & h1 & Hn & Hi)].
  { repeat split; try reflexivity; right; now left. }
  destruct Hn as [(Hoi' & _)|(_ & -> & _)]; [congruence|].
  destruct Hi as [(got & _ & ->)|[-> _]]; cbn [orderId customerId email].
  - split; [reflexivity|]. split; [intros Ht; now apply js_or_left|].
    split; [intros Ht; now apply js_or_left|]. split.
    + unfold js_or. destruct (truthy (customerId partial)) eqn:Hc; [now left|].
      destruct (truthy (prop (prop got "customer") "id")) eqn:Hg; [now left|].
      right. now right.
    + unfold js_or. destruct (truthy (email partial)) eqn:Hc; [now left|].
      destruct (truthy (prop got "email")) eqn:Hg; [now left|].
      destruct (truthy (prop (prop got "customer") "email")) eqn:Hg'; [now left|].
      right. now right.
  - repeat split; try reflexivity; right; now left.
Qed.

(** ** The detail fan-out, once more *)

Lemma start_details_complete (items : list value) (sealToken : string) :
  forall (h h' : list exchange) (ps : list (outcome value)) (details : list value),
    start_details items sealToken h = (Return ps, h') ->
    Promise_all ps = Return details ->
    exists new,
      h' = h ++ new
      /\ Forall2 (fun s x => exists id i r,
                    prop_strict s "id" = Return id /\ to_string id = Return i
                    /\ x = (SealGet i sealToken, Response r) /\ ok r = true) items new
      /\ Forall2 (fun x d => exists r, snd x = Response r /\ d = unwrap_detail r) new details.
Proof.
  induction items as [|s items IH]; intros h h' ps details; simpl.
  - unfold ret. intros E. injection E as <- <-. simpl. intros E. injection E as <-.
    exists []. rewrite app_nil_r. repeat split; constructor.
  - unfold bind, lift, start, ret.
    destruct (prop_strict s "id") as [id|] eqn:Hid; [|discriminate].
    destruct (sealGetById id sealToken h) as [p h1] eqn:Eg.
    destruct (start_details items sealToken h1) as [[ps'|e] h2] eqn:Es; [|discriminate].
    intros E. injection E as <- <-. simpl.
    destruct p as [d|e]; [|discriminate].
    destruct (Promise_all ps') as [ds|e] eqn:Ep; [|discriminate].
    intros E. injection E as <-.
    destruct (sealGetById_returns id sealToken h h1 d Eg) as (i & r & Hi & Hf & Hok & -> & ->).
    destruct (IH _ _ _ _ Es Ep) as (new & -> & F1 & F2).
    exists ((SealGet i sealToken, Response r) :: new).
    split; [now rewrite <- app_assoc|]. split.
    + constructor; [|exact F1]. exists id, i, r. now repeat split.
    + constructor; [|exact F2]. now exists r.
Qed.

(** X14: when the detail fan-out returns, it is complete and in order:
    there is one logged detail request per stub, in the order of the stubs,
    for the text of the stub's [id], each answered 2xx; and the i-th detail
    is what the i-th answer unwraps to. *)
Theorem fetch_details_complete_and_ordered
    (items : list value) (sealToken : string) (h h' : list exchange) (details : list value) :
  fetch_details (VArr items) sealToken h = (Return details, h') ->
  exists new,
    h' = h ++ new
    /\ length details = length items
    /\ Forall2 (fun s x => exists id i r,
                  prop_strict s "id" = Return id /\ to_string id = Return i
                  /\ x = (SealGet i sealToken, Response r) /\ ok r = true) items new
    /\ Forall2 (fun x d => exists r, snd x = Response r /\ d = unwrap_detail r) new details.
Proof.
  unfold fetch_details, bind, lift.
  destruct (start_details items sealToken h) as [[ps|e] h1] eqn:Es; [|discriminate].
  destruct (Promise_all ps) as [ds|e] eqn:Ep; [|discriminate].
  intros E. injection E as <- <-.
  destruct (start_details_complete items sealToken h h1 ps ds Es Ep) as (new & -> & F1 & F2).
  exists new. split; [reflexivity|]. split; [|now split].
  now rewrite <- (Forall2_length _ _ _ F2), <- (Forall2_length _ _ _ F1).
Qed.

(** ** The route as a whole *)

(** Before the region is resolved the route answers 400 or throws, and
    calls nothing. *)
Lemma order_created_try_resolution (req : request) (h : list exchange) :
  (exists s r, body_field req "shopDomain" = VStr s /\ shop_pattern s
               /\ byShop env !! s = Some r)
  \/ ((forall s r, body_field req "shopDomain" = VStr s -> shop_pattern s ->
                   byShop env !! s = Some r -> False)
      /\ (order_created_try req h = (Return invalid_shop_response, h)
          \/ (exists name, order_created_try req h = (Return (unknown_shop_response name), h))
          \/ (exists e, order_created_try req h = (Throw e, h)))).
Proof.
  destruct (truthy (body_field req "shopDomain")) eqn:Ht.
  2:{ right. split.
      - intros s r Hs Hp _. rewrite (truthy_of_shop_text _ s) in Ht; [discriminate| |exact Hp].
        now rewrite Hs.
      - left. unfold order_created_try, bind, lift, ret.
        fold (body_field req "shopDomain"). now rewrite Ht. }
  destruct (to_string (body_field req "shopDomain")) as [str|e] eqn:Ts.
  2:{ right. split.
      - intros s r Hs _ _. rewrite Hs in Ts. discriminate.
      - right. right. exists e. unfold order_created_try, bind, lift, ret.
        fold (body_field req "shopDomain"). rewrite Ht. unfold isValidShop. now rewrite Ts. }
  destruct (shop_regex_test str) eqn:Hre.
  2:{ right. split.
      - intros s r Hs Hp _. rewrite Hs in Ts. injection Ts as <-.
        apply shop_regex_test_spec in Hp. congruence.
      - left. unfold order_created_try, bind, lift, ret.
        fold (body_field req "shopDomain"). rewrite Ht. unfold isValidShop.
        now rewrite Ts; simpl; rewrite Hre. }
  destruct (byShop_get env (body_field req "shopDomain")) as [r|] eqn:Hb.
  - left. destruct (body_field req "shopDomain") as [| |b|n|s|l|f]; try discriminate.
    injection Ts as ->. exists str, r. split; [reflexivity|].
    split; [now apply shop_regex_test_spec|exact Hb].
  - right. split.
    + intros s r Hs _ Hr. rewrite Hs in Hb. simpl in Hb. congruence.
    + right. left. exists str. unfold order_created_try, bind, lift, ret.
      fold (body_field req "shopDomain"). rewrite Ht. unfold isValidShop.
      rewrite Ts; simpl; rewrite Hre; simpl. now rewrite Hb.
Qed.

(** X15: a [shopDomain] that is not a string is never served, even when
    its text is the domain of a configured shop (an array holding the
    domain, say): the answer is 400 or 500, and nothing is called. *)
Theorem non_string_shop_is_never_served (req : request) (h : list exchange) :
  (forall s, body_field req "shopDomain" <> VStr s) ->
  snd (flow_order_created req h) = h
  /\ (http_status (fst (flow_order_created req h)) = 400
      \/ http_status (fst (flow_order_created req h)) = 500).
Proof.
  intros Hn. unfold flow_order_created.
  destruct (order_created_try_resolution req h)
    as [(s & r & Hs & _)|(_ & [E|[(name & E)|(e & E)]])];
    [now destruct (Hn s)|rewrite E..]; simpl; split; auto.
Qed.


(** *** Where the credentials go *)

Section Routing.

Variable P : exchange -> Prop.
Variables (s sealTok adminTok : string).
Hypothesis search_ok : forall q r, P (SealSearch q sealTok, r).
Hypothesis get_ok : forall i r, P (SealGet i sealTok, r).
Hypothesis admin_ok : forall op r, P (ShopifyGraphQL s (api_version env) adminTok op, r).

Lemma shopifyGraphQL_routes (op : graphql_op) :
  extends P (shopifyGraphQL (VStr s) adminTok op).
Proof using admin_ok.
  intros h. unfold shopifyGraphQL, bind, lift, fetch_text, throw, ret. cbn [to_string].
  exists [(ShopifyGraphQL s (api_version env) adminTok op,
           fetch h (ShopifyGraphQL s (api_version env) adminTok op))].
  split; [|repeat constructor; apply admin_ok].
  destruct (fetch h _) as [|r]; [reflexivity|].
  destruct (JSON_parse (text r)) as [json|]; [|reflexivity].
  destruct (prop_strict json "errors") as [errors|]; [|reflexivity].
  destruct (negb (ok r) || truthy errors); reflexivity.
Qed.

Lemma ensureOrderContext_routes (partial : context) :
  shopDomain partial = VStr s -> extends P (ensureOrderContext partial adminTok).
Proof using admin_ok.
  intros Hs. unfold ensureOrderContext. rewrite Hs.
  destruct (_ && _); [apply extends_ret|].
  apply extends_bind.
  - destruct (_ && _); [|apply extends_ret].
    apply extends_bind; [|intros ?; apply extends_ret].
    unfold findOrderByName. destruct (orderName partial); try apply extends_throw.
    apply extends_bind; [apply shopifyGraphQL_routes|intros ?; apply extends_ret].
  - intros [[[i c] e] n]. destruct (_ && _); [|apply extends_ret].
    apply extends_bind; [|intros ?; apply extends_ret].
    unfold getOrderById.
    apply extends_bind; [apply shopifyGraphQL_routes|intros ?; apply extends_ret].
Qed.

Lemma sealSearchByEmail_routes (email : value) :
  extends P (sealSearchByEmail email sealTok).
Proof using search_ok.
  unfold sealSearchByEmail.
  apply extends_bind; [apply extends_lift|intros q].
  apply extends_bind; [apply extends_fetch_text, search_ok|intros resp].
  destruct (negb (ok resp)); [apply extends_throw|apply extends_ret].
Qed.

Lemma fetch_details_routes (subs : value) :
  extends P (fetch_details subs sealTok).
Proof using get_ok.
  unfold fetch_details. destruct subs; try apply extends_throw.
  apply extends_bind; [|intros ps; apply extends_lift].
  induction items as [|x items IH]; simpl; [apply extends_ret|].
  apply extends_bind; [apply extends_lift|intros id].
  apply extends_bind; [|intros p; apply extends_bind; [exact IH|intros ps; apply extends_ret]].
  apply extends_start. unfold sealGetById.
  apply extends_bind; [apply extends_lift|intros i].
  apply extends_bind; [apply extends_fetch_text, get_ok|intros resp].
  destruct (negb (ok resp)); [apply extends_throw|apply extends_ret].
Qed.

Lemma write_tags_routes (ensured : context) (minimal : list summary) (tags : list string) :
  extends P (write_tags (VStr s) adminTok ensured minimal tags).
Proof using admin_ok.
  assert (forall gid, extends P (tagsAdd (VStr s) adminTok gid (Some tags))) as Htags.
  { intros gid. unfold tagsAdd. destruct tags; [apply extends_ret|].
    apply extends_bind; [apply shopifyGraphQL_routes|intros ?; apply extends_ret]. }
  unfold write_tags.
  apply extends_bind; [apply extends_caught, Htags|intros o].
  apply extends_bind; [|intros ?; apply extends_ret].
  destruct (truthy _); [|apply extends_ret].
  apply extends_bind; [apply extends_caught, Htags|intros ?; apply extends_ret].
Qed.

Lemma lookup_and_tag_routes (req_ctx : context) :
  shopDomain req_ctx = VStr s -> extends P (lookup_and_tag req_ctx sealTok adminTok).
Proof using search_ok get_ok admin_ok.
  intros Hs. unfold lookup_and_tag. rewrite Hs.
  apply extends_bind; [now apply ensureOrderContext_routes|intros ensured].
  destruct (negb _); [apply extends_ret|].
  destruct (negb _); [apply extends_ret|].
  apply extends_bind; [apply sealSearchByEmail_routes|intros subs].
  apply extends_bind; [apply fetch_details_routes|intros details].
  apply extends_bind; [apply extends_lift|intros minimal].
  apply extends_bind; [apply extends_lift|intros tags].
  apply write_tags_routes.
Qed.

End Routing.

Lemma configured_default (o : option string) : configured o = true -> Some (default "" o) = o.
Proof. destruct o; [reflexivity|discriminate]. Qed.

(** X16: the route calls a remote API only for a request it has admitted
    -- a well-formed shop domain with a region, an accepted secret, both
    tokens set -- and every call carries that region's credentials to where
    they belong: the Seal token to the Seal API, the admin token to the
    admitted shop's own host. *)
Theorem calls_are_authorised_and_routed (req : request) (h : list exchange) :
  exists new,
    snd (flow_order_created req h) = h ++ new
    /\ (new = []
        \/ exists s r, admitted req s r /\ Forall (routed s r) new).
Proof.
  assert (forall o : outcome response * list exchange,
             snd (match o with
                  | (Return res, h') => (res, h')
                  | (Throw err, h') =>
                      (respond 500 (ErrorBody "Server error"
                                      (if debug_errors env then Some err else None)), h')
                  end) = snd o) as Hsnd by (intros [[?|?] ?]; reflexivity).
  unfold flow_order_created. rewrite Hsnd.
  destruct (order_created_try_resolution req h)
    as [(s & r & Hs & Hp & Hr)|(_ & [E|[(name & E)|(e & E)]])].
  2-4: rewrite E; exists []; rewrite app_nil_r; split; [reflexivity|now left].
  rewrite (resolved_shop_route req h s r Hs Hp Hr).
  destruct (secret_accepted r req) eqn:Ha; cbn [negb].
  2:{ exists []. rewrite app_nil_r. split; [reflexivity|now left]. }
  destruct (configured (sealToken r)) eqn:Hc1; cbn [negb].
  2:{ exists []. rewrite app_nil_r. split; [reflexivity|now left]. }
  destruct (configured (shopifyToken r)) eqn:Hc2; cbn [negb].
  2:{ exists []. rewrite app_nil_r. split; [reflexivity|now left]. }
  destruct (lookup_and_tag_routes (routed s r) s (default "" (sealToken r))
              (default "" (shopifyToken r))) with (req_ctx := request_context req) (h := h)
    as [new [E F]].
  - intros q x. unfold routed. simpl. now apply configured_default.
  - intros i x. unfold routed. simpl. now apply configured_default.
  - intros op x. unfold routed. simpl. repeat split. now apply configured_default.
  - exact Hs.
  - exists new. split; [exact E|]. right. exists s, r. split; [|exact F].
    unfold admitted. now repeat split.
Qed.

(** X17: the handler of the route, which runs once [express.json] has
    parsed the body, answers with one of four status codes: 200, 400, 401
    or 500; an upstream status is never forwarded.  It answers 401 only
    for a recognised shop whose secret check failed, and then without a
    call; it answers 200 only for a request it has admitted. *)
Theorem route_status_codes (req : request) (h : list exchange) :
  (http_status (fst (flow_order_created req h)) = 200
   \/ http_status (fst (flow_order_created req h)) = 400
   \/ http_status (fst (flow_order_created req h)) = 401
   \/ http_status (fst (flow_order_created req h)) = 500)
  /\ (http_status (fst (flow_order_created req h)) = 401 ->
      snd (flow_order_created req h) = h
      /\ exists s r, body_field req "shopDomain" = VStr s /\ shop_pattern s
                     /\ byShop env !! s = Some r
                     /\ secret_accepted r req = false)
  /\ (http_status (fst (flow_order_created req h)) = 200 ->
      exists s r, admitted req s r).
Proof.
  unfold flow_order_created.
  destruct (order_created_try_resolution req h)
    as [(s & r & Hs & Hp & Hr)|(_ & [E|[(name & E)|(e & E)]])].
  2-4: rewrite E; cbn [fst snd respond invalid_shop_response unknown_shop_response
                       http_status];
       (split; [auto|split; discriminate]).
  rewrite (resolved_shop_route req h s r Hs Hp Hr).
  destruct (secret_accepted r req) eqn:Ha; cbn [negb].
  2:{ cbn [fst snd respond http_status]. split; [auto|]. split; [|discriminate].
      intros _. split; [reflexivity|]. now exists s, r. }
  destruct (configured (sealToken r)) eqn:Hc1; cbn [negb];
    [|cbn [fst snd respond http_status]; split; [auto|split; discriminate]].
  destruct (configured (shopifyToken r)) eqn:Hc2; cbn [negb];
    [|cbn [fst snd respond http_status]; split; [auto|split; discriminate]].
  destruct (lookup_and_tag _ _ _ h) as [[res|e] h'] eqn:El;
    [|cbn [fst snd respond http_status]; split; [auto|split; discriminate]].
  cbn [fst snd].
  destruct (lookup_and_tag_status (request_context req) (default "" (sealToken r))
              (default "" (shopifyToken r)) h res) as [E|E];
    [now rewrite El|rewrite E..].
  - split; [auto|split; discriminate].
  - split; [auto|]. split; [discriminate|]. intros _. exists s, r.
    split; [exact Hs|]. split; [exact Hp|]. split; [exact Hr|]. now split.
Qed.

(** *** The order of the calls *)

Lemma sealSearchByEmail_log (email : value) (sealToken : string) (h : list exchange) :
  exists q, snd (sealSearchByEmail email sealToken h) = h ++ q
            /\ (length q <= 1)%nat /\ Forall (fun x => is_seal_search (fst x)) q.
Proof.
  unfold sealSearchByEmail, bind, lift, fetch_text, throw, ret.
  destruct (to_string email) as [query|].
  2:{ exists []. rewrite app_nil_r. repeat split; [simpl; lia|constructor]. }
  exists [(SealSearch query sealToken, fetch h (SealSearch query sealToken))].
  split; [|split; [simpl; lia|repeat constructor]].
  destruct (fetch h _) as [|r]; [reflexivity|].
  destruct (negb (ok r)); reflexivity.
Qed.

Lemma tagsAdd_log (shop : value) (token : string) (gid : value) (tags : list string)
    (h : list exchange) :
  exists q, snd (tagsAdd shop token gid (Some tags) h) = h ++ q
            /\ (length q <= 1)%nat /\ Forall is_tag_write q.
Proof.
  unfold tagsAdd. destruct tags as [|t tags].
  { exists []. simpl. rewrite app_nil_r. repeat split; [lia|constructor]. }
  unfold bind, ret.
  destruct (shopifyGraphQL_log shop token (TagsAdd gid (Array_from_Set (t :: tags))) h)
    as [E|(host & r & E)];
    destruct (shopifyGraphQL shop token _ h) as [[resp|e] h1]; simpl in E; subst h1.
  - exists []. rewrite app_nil_r. repeat split; [simpl; lia|constructor].
  - exists []. rewrite app_nil_r. repeat split; [simpl; lia|constructor].
  - eexists [_]. repeat split; [simpl; lia|]. repeat constructor.
  - eexists [_]. repeat split; [simpl; lia|]. repeat constructor.
Qed.

Lemma write_tags_log (shopDomain : value) (token : string) (ensured : context)
    (minimal : list summary) (tags : list string) (h : list exchange) :
  exists q, snd (write_tags shopDomain token ensured minimal tags h) = h ++ q
            /\ (length q <= 2)%nat /\ Forall is_tag_write q.
Proof.
  rewrite write_tags_result. cbv zeta.
  destruct (tagsAdd_log shopDomain token (orderId ensured) tags h) as (q1 & E1 & L1 & F1).
  destruct (truthy (customerId ensured)); cbn [snd].
  - rewrite E1.
    destruct (tagsAdd_log shopDomain token (customerId ensured) tags (h ++ q1))
      as (q2 & E2 & L2 & F2).
    exists (q1 ++ q2). rewrite E2, app_assoc. split; [reflexivity|].
    split; [rewrite length_app; lia|now apply Forall_app].
  - exists q1. split; [exact E1|]. split; [lia|exact F1].
Qed.

Lemma in_phases_queries (queries : list exchange) :
  Forall (fun x => is_order_query (fst x)) queries -> (length queries <= 2)%nat ->
  in_phases queries.
Proof.
  intros F L. exists queries, [], [], []. rewrite !app_nil_r.
  repeat split; try assumption; try constructor; simpl; lia.
Qed.

Lemma by_name_is_order_query (x : exchange) : is_by_name x -> is_order_query (fst x).
Proof.
  clear env JSON_parse fetch.
  destruct x as [[| |? ? ? []] ?]; simpl; tauto.
Qed.

Lemma by_id_is_order_query (x : exchange) : is_by_id x -> is_order_query (fst x).
Proof.
  clear env JSON_parse fetch.
  destruct x as [[| |? ? ? []] ?]; simpl; tauto.
Qed.

Lemma lookup_and_tag_in_phases (req_ctx : context) (sealToken shopifyToken : string)
    (h : list exchange) :
  exists new, snd (lookup_and_tag req_ctx sealToken shopifyToken h) = h ++ new
              /\ in_phases new.
Proof.
  unfold lookup_and_tag, bind, lift, ret.
  destruct (ensureOrderContext_log req_ctx shopifyToken h)
    as (q1 & q2 & E & L1 & L2 & F1 & F2 & _).
  assert (Forall (fun x => is_order_query (fst x)) (q1 ++ q2)) as Fq.
  { apply Forall_app. split; (eapply Forall_impl; [eassumption|]).
    - apply by_name_is_order_query.
    - apply by_id_is_order_query. }
  assert (length (q1 ++ q2) <= 2)%nat as Lq by (rewrite length_app; lia).
  revert E Fq Lq. generalize (q1 ++ q2). clear q1 q2 L1 L2 F1 F2. intros qs E Fq Lq.
  destruct (ensureOrderContext req_ctx shopifyToken h) as [[ensured|e] h1];
    simpl in E; subst h1.
  2:{ exists qs. split; [reflexivity|now apply in_phases_queries]. }
  destruct (negb (truthy (orderId ensured)));
    [exists qs; split; [reflexivity|now apply in_phases_queries]|].
  destruct (negb (truthy (email ensured)));
    [exists qs; split; [reflexivity|now apply in_phases_queries]|].
  destruct (sealSearchByEmail_log (email ensured) sealToken (h ++ qs)) as (ss & Es & Ls & Fs).
  destruct (sealSearchByEmail (email ensured) sealToken (h ++ qs)) as [[subs|e] h2];
    simpl in Es; subst h2.
  2:{ exists (qs ++ ss). rewrite app_assoc. split; [reflexivity|].
      exists qs, ss, [], []. rewrite !app_nil_r.
      repeat split; try assumption; try constructor; simpl; lia. }
  destruct (fetch_details_extends (fun x => is_seal_get (fst x)) subs sealToken
              (fun c r Hc => Hc) ((h ++ qs) ++ ss)) as (ds & Ed & Fd).
  destruct (fetch_details subs sealToken ((h ++ qs) ++ ss)) as [[details|e] h3];
    simpl in Ed; subst h3.
  2:{ exists (qs ++ ss ++ ds). rewrite !app_assoc. split; [reflexivity|].
      exists qs, ss, ds, []. rewrite !app_nil_r, !app_assoc.
      repeat split; try assumption; try constructor; simpl; lia. }
  assert (in_phases (qs ++ ss ++ ds)) as Hthree.
  { exists qs, ss, ds, []. rewrite !app_nil_r.
    repeat split; try assumption; try constructor; simpl; lia. }
  destruct (omap minimal_of details) as [minimal|e];
    [|exists (qs ++ ss ++ ds); rewrite !app_assoc; split; [reflexivity|];
      now rewrite <- !app_assoc].
  destruct (deriveTags minimal) as [tags|e];
    [|exists (qs ++ ss ++ ds); rewrite !app_assoc; split; [reflexivity|];
      now rewrite <- !app_assoc].
  destruct (write_tags_log (shopDomain req_ctx) shopifyToken ensured minimal tags
              (((h ++ qs) ++ ss) ++ ds)) as (ws & Ew & Lw & Fw).
  exists (qs ++ ss ++ ds ++ ws). rewrite Ew, <- !app_assoc. split; [reflexivity|].
  exists qs, ss, ds, ws. now repeat split.
Qed.

(** X18: the calls of one request come in phases, in this order: at most
    two order queries to the admin API, at most one subscription search,
    the detail requests, at most two tag writes.  Nothing is written before
    every look-up is done, and no look-up follows a write. *)
Theorem calls_come_in_phases (req : request) (h : list exchange) :
  exists new, snd (flow_order_created req h) = h ++ new /\ in_phases new.
Proof.
  assert (in_phases []) as Hnil by (apply in_phases_queries; [constructor|simpl; lia]).
  assert (forall o : outcome response * list exchange,
             snd (match o with
                  | (Return res, h') => (res, h')
                  | (Throw err, h') =>
                      (respond 500 (ErrorBody "Server error"
                                      (if debug_errors env then Some err else None)), h')
                  end) = snd o) as Hsnd by (intros [[?|?] ?]; reflexivity).
  unfold flow_order_created. rewrite Hsnd.
  destruct (order_created_try_resolution req h)
    as [(s & r & Hs & Hp & Hr)|(_ & [E|[(name & E)|(e & E)]])].
  2-4: rewrite E; exists []; rewrite app_nil_r; split; [reflexivity|exact Hnil].
  rewrite (resolved_shop_route req h s r Hs Hp Hr).
  destruct (negb (secret_accepted r req));
    [exists []; rewrite app_nil_r; split; [reflexivity|exact Hnil]|].
  destruct (negb (configured (sealToken r)));
    [exists []; rewrite app_nil_r; split; [reflexivity|exact Hnil]|].
  destruct (negb (configured (shopifyToken r)));
    [exists []; rewrite app_nil_r; split; [reflexivity|exact Hnil]|].
  apply lookup_and_tag_in_phases.
Qed.

(** *** Requests that cannot be resolved *)

Lemma ensureOrderContext_nothing_to_go_on (partial : context) (token : string)
    (h : list exchange) :
  truthy (orderId partial) = false -> truthy (orderName partial) = false ->
  exists out, ensureOrderContext partial token h = (Return out, h)
              /\ orderId out = orderId partial.
Proof.
  intros Hoi Hon. unfold ensureOrderContext, bind, ret.
  rewrite Hoi, Hon. cbn [andb negb]. cbv beta iota. rewrite Hoi, andb_false_r.
  eexists. split; reflexivity.
Qed.

(** X19: an admitted request with neither an order id nor an order name
    is answered 400 ("orderId (gid) required or resolvable") without any
    call, whatever else it carries. *)
Theorem unresolvable_order_is_refused
    (req : request) (h : list exchange) (s : string) (r : region) :
  admitted req s r ->
  truthy (body_field req "orderId") = false ->
  truthy (body_field req "orderName") = false ->
  flow_order_created req h
  = (respond 400 (ErrorBody "orderId (gid) required or resolvable" None), h).
Proof.
  intros (Hs & Hp & Hr & Ha & Hc1 & Hc2) Hoi Hon. unfold flow_order_created.
  rewrite (resolved_shop_route req h s r Hs Hp Hr), Ha, Hc1, Hc2. cbn [negb].
  unfold lookup_and_tag, bind.
  destruct (ensureOrderContext_nothing_to_go_on (request_context req)
              (default "" (shopifyToken r)) h Hoi Hon) as (out & -> & Eo).
  rewrite Eo. cbn [request_context orderId]. now rewrite Hoi.
Qed.

(** X20: an admitted request without an order id whose order name is not
    a string (a number, say) is answered with the generic 500, before any
    call: looking the name up throws a [TypeError]. *)
Theorem non_string_order_name_gets_500
    (req : request) (h : list exchange) (s : string) (r : region) :
  admitted req s r ->
  truthy (body_field req "orderId") = false ->
  truthy (body_field req "orderName") = true ->
  (forall name, body_field req "orderName" <> VStr name) ->
  flow_order_created req h
  = (respond 500 (ErrorBody "Server error"
                    (if debug_errors env then Some TypeError else None)), h).
Proof.
  intros (Hs & Hp & Hr & Ha & Hc1 & Hc2) Hoi Hon Hn. unfold flow_order_created.
  rewrite (resolved_shop_route req h s r Hs Hp Hr), Ha, Hc1, Hc2. cbn [negb].
  unfold lookup_and_tag, bind, ensureOrderContext, bind.
  cbn [request_context orderId orderName customerId email shopDomain].
  rewrite Hoi, Hon. cbn [andb negb].
  unfold findOrderByName.
  destruct (body_field req "orderName"); try reflexivity. now destruct (Hn s0).
Qed.

(** *** The success answer *)

Lemma lookup_and_tag_success (req_ctx : context) (sealToken shopifyToken : string)
    (h : list exchange) (sd oi on ci em : value) (subs : list summary)
    (order : tag_result) (customer : option tag_result) :
  fst (lookup_and_tag req_ctx sealToken shopifyToken h)
  = Return (respond 200 (OkBody sd oi on ci em subs order customer)) ->
  sd = shopDomain req_ctx
  /\ truthy oi = true /\ truthy em = true
  /\ (customer = None <-> ci = VNull)
  /\ (ci = VNull \/ truthy ci = true).
Proof.
  unfold lookup_and_tag, bind, lift, ret.
  destruct (ensureOrderContext req_ctx shopifyToken h) as [[ensured|e] h1];
    [|discriminate].
  destruct (truthy (orderId ensured)) eqn:Hoi; cbn [negb]; [|discriminate].
  destruct (truthy (email ensured)) eqn:Hem; cbn [negb]; [|discriminate].
  destruct (sealSearchByEmail _ _ h1) as [[ss|e] h2]; [|discriminate].
  destruct (fetch_details _ _ h2) as [[details|e] h3]; [|discriminate].
  destruct (omap minimal_of details) as [minimal|e]; [|discriminate].
  destruct (deriveTags minimal) as [tags|e]; [|discriminate].
  rewrite write_tags_result. cbn [fst]. intros E. injection E as <- <- <- <- <- <- <- <-.
  split; [reflexivity|]. split; [exact Hoi|]. split; [exact Hem|].
  unfold js_or. destruct (truthy (customerId ensured)) eqn:Hc.
  - split; [|now right]. split; [discriminate|].
    intros E. rewrite E in Hc. discriminate.
  - split; [|now left]. now split.
Qed.

(** X21: a success answer echoes the request's shop domain, always has a
    truthy order id and a truthy email, and a customer id that is [null] or
    truthy.  With a [null] customer id no customer tag write was attempted;
    with a truthy one it was, and its result is assigned.  The written
    answer has a [tagResults.customer] only when the customer id is not
    [null] -- but not always then: a result of [undefined] is left out. *)
Theorem success_answer_shape
    (req : request) (h : list exchange) (sd oi on ci em : value) (subs : list summary)
    (order : tag_result) (customer : option tag_result) :
  fst (flow_order_created req h) = respond 200 (OkBody sd oi on ci em subs order customer) ->
  sd = body_field req "shopDomain"
  /\ (exists s, sd = VStr s /\ is_Some (byShop env !! s))
  /\ truthy oi = true /\ truthy em = true
  /\ (ci = VNull \/ truthy ci = true)
  /\ (ci = VNull -> customer = None)
  /\ (truthy ci = true -> exists t, customer = Some t)
  /\ (customer_entry_written customer = true -> truthy ci = true)
  /\ (customer_entry_written customer = false ->
      ci = VNull \/ customer = Some (Written VUndef)).
Proof.
  unfold flow_order_created.
  destruct (order_created_try_resolution req h)
    as [(s & r & Hs & Hp & Hr)|(_ & [E|[(name & E)|(e & E)]])].
  2-4: rewrite E; simpl; discriminate.
  rewrite (resolved_shop_route req h s r Hs Hp Hr).
  destruct (negb (secret_accepted r req)); [discriminate|].
  destruct (negb (configured (sealToken r))); [discriminate|].
  destruct (negb (configured (shopifyToken r))); [discriminate|].
  destruct (lookup_and_tag _ _ _ h) as [[res|e] h'] eqn:El; [|discriminate].
  cbn [fst]. intros ->.
  destruct (lookup_and_tag_success (request_context req) (default "" (sealToken r))
              (default "" (shopifyToken r)) h sd oi on ci em subs order customer)
    as (Hsd & Hoi & Hem & Hc & Hci); [now rewrite El|].
  cbn [request_context shopDomain] in Hsd.
  split; [exact Hsd|]. split.
  { exists s. split; [congruence|now exists r]. }
  split; [exact Hoi|]. split; [exact Hem|]. split; [exact Hci|].
  split; [apply Hc|].
  assert (truthy ci = true -> exists t, customer = Some t) as Hsome.
  { intros Ht. destruct customer as [t|]; [now exists t|].
    rewrite (proj1 Hc eq_refl) in Ht. discriminate. }
  split; [exact Hsome|]. split.
  - intros Hw. destruct Hci as [->|Ht]; [|exact Ht].
    rewrite (proj2 Hc eq_refl) in Hw. discriminate.
  - intros Hw. destruct Hci as [->|Ht]; [now left|]. right.
    destruct (Hsome Ht) as [t ->].
    destruct t as [[]|]; try discriminate Hw. reflexivity.
Qed.

(** *** The shops of [/health] and the shops the route serves *)

Lemma lookup_and_tag_never_refuses_shop (req_ctx : context)
    (sealToken shopifyToken : string) (h : list exchange) (res : response) :
  fst (lookup_and_tag req_ctx sealToken shopifyToken h) = Return res ->
  ~ shop_refusal res.
Proof.
  unfold lookup_and_tag, bind, lift, ret.
  destruct (ensureOrderContext req_ctx shopifyToken h) as [[ensured|e] h1];
    [|discriminate].
  destruct (negb _);
    [intros E; injection E as <-; intros [H|[name H]]; cbv in H; discriminate H|].
  destruct (negb _);
    [intros E; injection E as <-; intros [H|[name H]]; cbv in H; discriminate H|].
  destruct (sealSearchByEmail _ _ h1) as [[ss|e] h2]; [|discriminate].
  destruct (fetch_details _ _ h2) as [[details|e] h3]; [|discriminate].
  destruct (omap minimal_of details) as [minimal|e]; [|discriminate].
  destruct (deriveTags minimal) as [tags|e]; [|discriminate].
  rewrite write_tags_result. cbn [fst]. intros E. injection E as <-.
  intros [H|[name H]]; discriminate H.
Qed.

Lemma resolved_shop_is_not_refused (req : request) (h : list exchange)
    (s : string) (r : region) :
  body_field req "shopDomain" = VStr s ->
  shop_pattern s ->
  byShop env !! s = Some r ->
  ~ shop_refusal (fst (flow_order_created req h)).
Proof.
  intros Hs Hp Hr. unfold flow_order_created.
  rewrite (resolved_shop_route req h s r Hs Hp Hr).
  destruct (negb (secret_accepted r req));
    [intros [H|[name H]]; discriminate H|].
  destruct (negb (configured (sealToken r)));
    [intros [H|[name H]]; discriminate H|].
  destruct (negb (configured (shopifyToken r)));
    [intros [H|[name H]]; discriminate H|].
  destruct (lookup_and_tag _ _ _ h) as [[res|e] h'] eqn:El.
  - cbn [fst]. eapply lookup_and_tag_never_refuses_shop. now rewrite El.
  - intros [H|[name H]]; discriminate H.
Qed.

(** X2: [/health] lists exactly the shops of the registry; none of them
    is unset or empty, and the two flag lists have one entry per listed
    shop.  Being listed is not yet being served: for a request whose
    [shopDomain] is a string, the route gets past its two shop checks
    exactly when the shop is listed and matches the domain pattern.  An
    unlisted shop and a listed shop that fails the pattern are refused
    with one of the two 400 answers, and a refusal makes no call. *)
Theorem health_lists_the_recognised_shops :
  (forall s, Some s ∈ health_shops (health env) <-> is_Some (byShop env !! s))
  /\ (None ∉ health_shops (health env))
  /\ (Some "" ∉ health_shops (health env))
  /\ length (health_sealConfigured (health env)) = length (health_shops (health env))
  /\ length (health_shopifyConfigured (health env)) = length (health_shops (health env))
  /\ (forall (req : request) (h : list exchange) (s : string),
        body_field req "shopDomain" = VStr s ->
        (shop_refusal (fst (flow_order_created req h))
         <-> ~ (Some s ∈ health_shops (health env) /\ shop_pattern s))
        /\ (~ shop_pattern s -> fst (flow_order_created req h) = invalid_shop_response)
        /\ (shop_pattern s -> Some s ∉ health_shops (health env) ->
            fst (flow_order_created req h) = unknown_shop_response s))
  /\ (forall (req : request) (h : list exchange),
        shop_refusal (fst (flow_order_created req h)) ->
        http_status (fst (flow_order_created req h)) = 400
        /\ snd (flow_order_created req h) = h).
Proof.
  assert (forall s, Some s ∈ health_shops (health env) <-> is_Some (byShop env !! s))
    as Hlisted.
  { intros s. unfold health. cbn [health_shops]. rewrite byShop_lookup_spec_aux. split.
    - intros Hs. apply list_elem_of_fmap in Hs as [r [Hr Hin]].
      apply last_filter_is_Some. now exists r.
    - intros Hs. apply last_filter_is_Some in Hs as [r [Hin Hr]].
      apply list_elem_of_fmap. now exists r. }
  split; [exact Hlisted|].
  split.
  { unfold health. cbn [health_shops]. intros Hs.
    apply list_elem_of_fmap in Hs as [r [Hr Hin]].
    apply regions_configured in Hin. rewrite <- Hr in Hin. discriminate. }
  split.
  { unfold health. cbn [health_shops]. intros Hs.
    apply list_elem_of_fmap in Hs as [r [Hr Hin]].
    apply regions_configured in Hin. rewrite <- Hr in Hin. discriminate. }
  split; [unfold health; cbn; now rewrite !length_map|].
  split; [unfold health; cbn; now rewrite !length_map|].
  split.
  - intros req h s Hs.
    assert (to_string (body_field req "shopDomain") = Return s) as Hts
      by now rewrite Hs.
    assert (~ shop_pattern s -> fst (flow_order_created req h) = invalid_shop_response)
      as Hbad.
    { intros Hn. now rewrite (malformed_shop_is_refused req h s Hts Hn). }
    assert (shop_pattern s -> Some s ∉ health_shops (health env) ->
            fst (flow_order_created req h) = unknown_shop_response s) as Hunknown.
    { intros Hp Hn. rewrite (unknown_shop_is_refused req h s Hts Hp); [reflexivity|].
      rewrite Hs. cbn [byShop_get].
      destruct (byShop env !! s) as [r|] eqn:Hr; [|reflexivity].
      exfalso. apply Hn, Hlisted. now exists r. }
    split; [|split; [exact Hbad|exact Hunknown]].
    split.
    + intros Href [Hin Hp]. apply Hlisted in Hin as [r Hr].
      exact (resolved_shop_is_not_refused req h s r Hs Hp Hr Href).
    + intros Hn. destruct (shop_regex_test s) eqn:Hre.
      * apply shop_regex_test_spec in Hre. right. exists s.
        apply Hunknown; [exact Hre|]. intros Hin. apply Hn. now split.
      * left. apply Hbad. intros Hp. apply shop_regex_test_spec in Hp. congruence.
  - intros req h Href.
    destruct (order_created_try_resolution req h)
      as [(s & r & Hs & Hp & Hr)|(_ & Hcases)].
    { destruct (resolved_shop_is_not_refused req h s r Hs Hp Hr Href). }
    revert Href. unfold flow_order_created.
    destruct Hcases as [E|[(name & E)|(e & E)]]; rewrite E; cbn [fst snd].
    + now split.
    + now split.
    + intros [H|[name H]]; discriminate H.
Qed.

(** *** What debug mode gates *)

Lemma lookup_and_tag_no_details (req_ctx : context) (sealToken shopifyToken : string)
    (h : list exchange) (res : response) (msg : string) (d : option exn) :
  fst (lookup_and_tag req_ctx sealToken shopifyToken h) = Return res ->
  body res = ErrorBody msg d -> d = None.
Proof.
  unfold lookup_and_tag, bind, lift, ret.
  destruct (ensureOrderContext req_ctx shopifyToken h) as [[ensured|e] h1];
    [|discriminate].
  destruct (negb _); [intros E; injection E as <-; simpl; congruence|].
  destruct (negb _); [intros E; injection E as <-; simpl; congruence|].
  destruct (sealSearchByEmail _ _ h1) as [[ss|e] h2]; [|discriminate].
  destruct (fetch_details _ _ h2) as [[details|e] h3]; [|discriminate].
  destruct (omap minimal_of details) as [minimal|e]; [|discriminate].
  destruct (deriveTags minimal) as [tags|e]; [|discriminate].
  rewrite write_tags_result. cbn [fst]. intros E. injection E as <-. discriminate.
Qed.

(** X22: an error answer of the route carries the caught exception only
    when [DEBUG_ERRORS] is exactly ["true"]; in every other configuration
    no error answer has details. *)
Theorem no_details_without_debug (req : request) (h : list exchange)
    (msg : string) (d : option exn) :
  DEBUG_ERRORS env <> Some "true" ->
  body (fst (flow_order_created req h)) = ErrorBody msg d ->
  d = None.
Proof.
  intros Hdbg.
  assert (debug_errors env = false) as Hd.
  { unfold debug_errors. destruct (DEBUG_ERRORS env) as [v|]; [|reflexivity].
    destruct (String.eqb v "true") eqn:E; [|reflexivity].
    apply String.eqb_eq in E. congruence. }
  unfold flow_order_created. rewrite Hd.
  destruct (order_created_try_resolution req h)
    as [(s & r & Hs & Hp & Hr)|(_ & [E|[(name & E)|(e & E)]])].
  2-4: rewrite E; simpl; congruence.
  rewrite (resolved_shop_route req h s r Hs Hp Hr).
  destruct (negb (secret_accepted r req)); [simpl; congruence|].
  destruct (negb (configured (sealToken r))); [simpl; congruence|].
  destruct (negb (configured (shopifyToken r))); [simpl; congruence|].
  destruct (lookup_and_tag _ _ _ h) as [[res|e] h'] eqn:El; [|simpl; congruence].
  cbn [fst]. intros Hb. eapply lookup_and_tag_no_details; [|exact Hb]. now rewrite El.
Qed.

(** ** The tag writes of the route *)

(** With a tag to add, the tagging step writes to the order and then,
    when there is a customer, to the customer, and makes no other call. *)
Lemma write_tags_sends (shopDomain : value) (host token : string) (ensured : context)
    (minimal : list summary) (t : string) (tags : list string) (h : list exchange) :
  to_string shopDomain = Return host ->
  exists r rest,
    snd (write_tags shopDomain token ensured minimal (t :: tags) h)
    = h ++ (ShopifyGraphQL host (api_version env) token
              (TagsAdd (orderId ensured) (Array_from_Set (t :: tags))), r) :: rest
    /\ (truthy (customerId ensured) = true ->
        exists r', rest = [(ShopifyGraphQL host (api_version env) token
                              (TagsAdd (customerId ensured) (Array_from_Set (t :: tags))),
                            r')])
    /\ (truthy (customerId ensured) = false -> rest = []).
Proof.
  intros Hs.
  destruct (tagsAdd_with_tags_calls shopDomain token (orderId ensured) t tags h host Hs)
    as [r E1].
  exists r. unfold write_tags, bind, caught, ret.
  destruct (tagsAdd shopDomain token (orderId ensured) (Some (t :: tags)) h)
    as [o1 h1] eqn:Eo.
  cbn [snd] in E1. subst h1.
  destruct (truthy (customerId ensured)) eqn:Hc.
  - destruct (tagsAdd_with_tags_calls shopDomain token (customerId ensured) t tags
                (h ++ [(ShopifyGraphQL host (api_version env) token
                          (TagsAdd (orderId ensured) (Array_from_Set (t :: tags))), r)])
                host Hs) as [r' E2].
    exists [(ShopifyGraphQL host (api_version env) token
               (TagsAdd (customerId ensured) (Array_from_Set (t :: tags))), r')].
    split.
    { destruct o1 as [v1|e1]; cbn [fst snd];
        destruct (tagsAdd shopDomain token (customerId ensured) (Some (t :: tags)) _)
          as [[v2|e2] h2]; cbn [fst snd] in *; subst h2;
        now rewrite <- app_assoc. }
    split; [intros _; now exists r'|discriminate].
  - exists []. split; [destruct o1 as [v1|e1]; reflexivity|].
    split; [discriminate|reflexivity].
Qed.

(** A success answer comes out of the tagging step, run on the resolved
    context and the tags derived from the answer's subscriptions, after
    calls none of which is a tag write. *)
Lemma lookup_and_tag_success_log (req_ctx : context) (sealToken shopifyToken : string)
    (h : list exchange) (sd oi on ci em : value) (subs : list summary)
    (order : tag_result) (customer : option tag_result) :
  fst (lookup_and_tag req_ctx sealToken shopifyToken h)
  = Return (respond 200 (OkBody sd oi on ci em subs order customer)) ->
  exists ensured before tags,
    deriveTags subs = Return tags
    /\ sd = shopDomain req_ctx
    /\ oi = orderId ensured
    /\ ci = js_or (customerId ensured) VNull
    /\ Forall (fun x => ~ is_tag_write x) before
    /\ snd (lookup_and_tag req_ctx sealToken shopifyToken h)
       = snd (write_tags (shopDomain req_ctx) shopifyToken ensured subs tags (h ++ before)).
Proof.
  unfold lookup_and_tag, bind, lift, ret.
  destruct (ensureOrderContext_extends (fun x => ~ is_tag_write x) req_ctx shopifyToken
              order_query_not_tag_write h) as (q0 & E0 & F0).
  destruct (ensureOrderContext req_ctx shopifyToken h) as [[ensured|e] h1];
    [|discriminate].
  cbn [snd] in E0. subst h1.
  destruct (negb (truthy (orderId ensured))); [discriminate|].
  destruct (negb (truthy (email ensured))); [discriminate|].
  destruct (sealSearchByEmail_extends (fun x => ~ is_tag_write x) (email ensured) sealToken
              seal_search_not_tag_write (h ++ q0)) as (q1 & E1 & F1).
  destruct (sealSearchByEmail _ _ (h ++ q0)) as [[ss|e] h2]; [|discriminate].
  cbn [snd] in E1. subst h2.
  destruct (fetch_details_extends (fun x => ~ is_tag_write x) ss sealToken
              seal_get_not_tag_write ((h ++ q0) ++ q1)) as (q2 & E2 & F2).
  destruct (fetch_details _ _ ((h ++ q0) ++ q1)) as [[details|e] h3]; [|discriminate].
  cbn [snd] in E2. subst h3.
  destruct (omap minimal_of details) as [minimal|e]; [|discriminate].
  destruct (deriveTags minimal) as [tags|e] eqn:Et; [|discriminate].
  rewrite write_tags_result. cbn [fst snd]. intros E.
  injection E as <- <- <- <- <- <- <- <-.
  exists ensured, (q0 ++ q1 ++ q2), tags.
  split; [exact Et|]. split; [reflexivity|]. split; [reflexivity|]. split; [reflexivity|].
  split; [repeat (apply Forall_app; split); assumption|].
  rewrite write_tags_result. cbn [snd]. now rewrite !app_assoc.
Qed.

(** C6: the tags are deduplicated before use.  Every tag write the route
    logs carries a tag list without duplicates.  When two subscription
    summaries share [billing_min_cycles = 3], the tagging step does write:
    first to the order and then, when there is a customer, to the customer
    and nothing else, each write with the same duplicate-free list of the
    derived tags, in which [seal_min_cycles_3] occurs exactly once.  So
    does the route: a success answer with two such subscriptions has
    those writes as the last calls of its log. *)
Theorem tags_sent_without_duplicates :
  (forall (req : request) (h : list exchange),
      exists new, snd (flow_order_created req h) = h ++ new /\ Forall distinct_tags new)
  /\ (forall (shopDomain : value) (host token : string) (ensured : context)
             (minimal : list summary) (tags : list string) (h : list exchange)
             (i j : nat) (a b : summary),
        to_string shopDomain = Return host ->
        minimal !! i = Some a -> minimal !! j = Some b -> i <> j ->
        billing_min_cycles a = VNum 3 -> billing_min_cycles b = VNum 3 ->
        deriveTags minimal = Return tags ->
        exists sent r rest,
          snd (write_tags shopDomain token ensured minimal tags h)
          = h ++ (ShopifyGraphQL host (api_version env) token
                    (TagsAdd (orderId ensured) sent), r) :: rest
          /\ occurrences "seal_min_cycles_3" sent = 1%nat
          /\ NoDup sent
          /\ (forall t, t ∈ sent <-> t ∈ tags)
          /\ (truthy (customerId ensured) = true ->
              exists r', rest = [(ShopifyGraphQL host (api_version env) token
                                    (TagsAdd (customerId ensured) sent), r')])
          /\ (truthy (customerId ensured) = false -> rest = []))
  /\ (forall (req : request) (h : list exchange) (sd oi on ci em : value)
             (subs : list summary) (order : tag_result) (customer : option tag_result)
             (i j : nat) (a b : summary),
        fst (flow_order_created req h)
        = respond 200 (OkBody sd oi on ci em subs order customer) ->
        subs !! i = Some a -> subs !! j = Some b -> i <> j ->
        billing_min_cycles a = VNum 3 -> billing_min_cycles b = VNum 3 ->
        exists host token before sent r rest,
          sd = VStr host
          /\ snd (flow_order_created req h)
             = h ++ before
                 ++ (ShopifyGraphQL host (api_version env) token (TagsAdd oi sent), r)
                    :: rest
          /\ Forall (fun x => ~ is_tag_write x) before
          /\ occurrences "seal_min_cycles_3" sent = 1%nat
          /\ NoDup sent
          /\ (ci = VNull -> rest = [])
          /\ (ci <> VNull ->
              exists r', rest = [(ShopifyGraphQL host (api_version env) token
                                    (TagsAdd ci sent), r')])).
Proof.
  assert (forall (minimal : list summary) (tags : list string) (i : nat) (a : summary),
             minimal !! i = Some a -> billing_min_cycles a = VNum 3 ->
             deriveTags minimal = Return tags ->
             exists t tags', tags = t :: tags'
                             /\ "seal_min_cycles_3" ∈ Array_from_Set (t :: tags'))
    as Hshared.
  { intros minimal tags i a Ha Ea Et.
    assert ("seal_min_cycles_3" ∈ tags) as Hin.
    { apply (deriveTags_elem _ _ _ Et). right.
      exists a. destruct (cycles_tag_3 a Ea) as [Hn Hc].
      split; [now apply list_elem_of_lookup_2 in Ha|]. now split. }
    destruct tags as [|t tags']; [inversion Hin|].
    exists t, tags'. split; [reflexivity|]. now apply Array_from_Set_elem. }
  split; [|split].
  - intros req h. apply flow_order_created_extends.
    + intros [| |? ? ? []] r; simpl; intros []; exact I.
    + intros [| |? ? ? []] r; simpl; intros []; exact I.
    + intros [| |? ? ? []] r; simpl; intros []; exact I.
    + intros tags [| |? ? ? []] r; simpl; intros E; try contradiction.
      unfold distinct_tags. simpl. subst. apply Array_from_Set_NoDup.
  - intros shopDomain host token ensured minimal tags h i j a b Hs Ha Hb Hij Ea Eb Et.
    destruct (Hshared minimal tags i a Ha Ea Et) as (t & tags' & -> & Hin).
    destruct (write_tags_sends shopDomain host token ensured minimal t tags' h Hs)
      as (r & rest & Hlog & Hcust & Hnone).
    exists (Array_from_Set (t :: tags')), r, rest.
    split; [exact Hlog|].
    split; [apply occurrences_NoDup; [apply Array_from_Set_NoDup|exact Hin]|].
    split; [apply Array_from_Set_NoDup|].
    split; [intros u; apply Array_from_Set_elem|].
    split; [exact Hcust|exact Hnone].
  - intros req h sd oi on ci em subs order customer i j a b Hres Ha Hb Hij Ea Eb.
    revert Hres. unfold flow_order_created.
    destruct (order_created_try_resolution req h)
      as [(s & r & Hs & Hp & Hr)|(_ & [E|[(name & E)|(e & E)]])].
    2-4: rewrite E; simpl; discriminate.
    rewrite (resolved_shop_route req h s r Hs Hp Hr).
    destruct (negb (secret_accepted r req)); [discriminate|].
    destruct (negb (configured (sealToken r))); [discriminate|].
    destruct (negb (configured (shopifyToken r))); [discriminate|].
    destruct (lookup_and_tag _ _ _ h) as [[res|e] h'] eqn:El; [|discriminate].
    cbn [fst snd]. intros ->.
    destruct (lookup_and_tag_success_log (request_context req) (default "" (sealToken r))
                (default "" (shopifyToken r)) h sd oi on ci em subs order customer)
      as (ensured & before & tags & Et & Hsd & Hoi & Hci & Hbefore & Hlog);
      [now rewrite El|].
    rewrite El in Hlog. cbn [snd request_context shopDomain] in Hlog, Hsd.
    rewrite Hs in Hlog, Hsd.
    destruct (Hshared subs tags i a Ha Ea Et) as (t & tags' & -> & Hin).
    destruct (write_tags_sends (VStr s) s (default "" (shopifyToken r)) ensured subs
                t tags' (h ++ before) eq_refl) as (r0 & rest & Hw & Hcust & Hnone).
    exists s, (default "" (shopifyToken r)), before, (Array_from_Set (t :: tags')), r0, rest.
    split; [exact Hsd|].
    split; [rewrite Hlog, Hw, Hoi; now rewrite <- app_assoc|].
    split; [exact Hbefore|].
    split; [apply occurrences_NoDup; [apply Array_from_Set_NoDup|exact Hin]|].
    split; [apply Array_from_Set_NoDup|].
    rewrite Hci. unfold js_or. destruct (truthy (customerId ensured)) eqn:Hc.
    + split; [intros Hn; rewrite Hn in Hc; discriminate|]. intros _. now apply Hcust.
    + split; [intros _; now apply Hnone|]. intros Hn. now destruct Hn.
Qed.

(** ** The seal-only variant *)

Lemma SealOnly_resolution (req : request) (h : list exchange) :
  (exists s r, body_field req "shopDomain" = VStr s /\ shop_pattern s
               /\ byShop env !! s = Some r)
  \/ ((exists msg d, SealOnly_try req h = (Return (errRes env 400 msg d), h))
      \/ (exists e, SealOnly_try req h = (Throw e, h))).
Proof.
  destruct (truthy (body_field req "shopDomain")) eqn:Ht.
  2:{ right. left. eexists _, _. unfold SealOnly_try, bind, lift, ret.
      fold (body_field req "shopDomain"). now rewrite Ht. }
  destruct (to_string (body_field req "shopDomain")) as [str|e] eqn:Ts.
  2:{ right. right. exists e. unfold SealOnly_try, bind, lift, ret.
      fold (body_field req "shopDomain"). rewrite Ht. unfold SealOnly_isValidShop.
      now rewrite (js_or_left _ _ Ht), Ts. }
  destruct (shop_regex_test str) eqn:Hre.
  2:{ right. left. eexists _, _. unfold SealOnly_try, bind, lift, ret.
      fold (body_field req "shopDomain"). rewrite Ht. unfold SealOnly_isValidShop.
      now rewrite (js_or_left _ _ Ht), Ts; simpl; rewrite Hre. }
  destruct (byShop_get env (body_field req "shopDomain")) as [r|] eqn:Hb.
  - left. destruct (body_field req "shopDomain") as [| |b|n|s|l|f]; try discriminate.
    injection Ts as ->. exists str, r. split; [reflexivity|].
    split; [now apply shop_regex_test_spec|exact Hb].
  - right. left. eexists _, _. unfold SealOnly_try, bind, lift, ret.
    fold (body_field req "shopDomain"). rewrite Ht. unfold SealOnly_isValidShop.
    rewrite (js_or_left _ _ Ht), Ts; simpl; rewrite Hre; simpl. now rewrite Hb.
Qed.

Lemma SealOnly_resolved_route (req : request) (h : list exchange) (s : string) (r : region) :
  body_field req "shopDomain" = VStr s ->
  shop_pattern s ->
  byShop env !! s = Some r ->
  SealOnly_try req h =
  if negb (SealOnly_secret_accepted r req)
  then (Return (errRes env 401 "Bad X-Flow-Secret" None), h)
  else if negb (truthy (body_field req "email"))
  then (Return (errRes env 400 "Missing email" None), h)
  else if negb (configured (sealToken r))
  then (Return (errRes env 500 "Seal token not configured for shop"
                  (Some (DetailValue (VStr (code r))))), h)
  else SealOnly_search (VStr s) (body_field req "orderId") (body_field req "email")
         (default "" (sealToken r)) h.
Proof.
  intros Hs Hp Hr. unfold SealOnly_try, bind, lift, ret.
  fold (body_field req "shopDomain") (body_field req "orderId") (body_field req "email").
  rewrite Hs.
  assert (truthy (VStr s) = true) as Ht.
  { destruct Hp as (label & Hl & _ & ->). destruct label; [contradiction|reflexivity]. }
  rewrite Ht. unfold SealOnly_isValidShop. rewrite (js_or_left _ _ Ht). simpl to_string.
  cbn [obind]. apply shop_regex_test_spec in Hp. rewrite Hp. cbn [negb byShop_get].
  rewrite Hr. unfold SealOnly_secret_accepted. rewrite tscEq_spec.
  destruct (configured (flowSecret r)); cbn [obind negb orb];
    [destruct (bool_decide _); cbn [negb]|];
    (try reflexivity);
    destruct (negb (truthy (body_field req "email"))); try reflexivity;
    destruct (negb (configured (sealToken r))); reflexivity.
Qed.

(** X23: in the seal-only variant a region with a secret admits exactly
    the requests whose [X-Flow-Secret] header is that secret: with a missing
    or a different header the answer is 401 and nothing is called --
    whatever the secret is. *)
Theorem SealOnly_wrong_or_missing_header_gets_401
    (req : request) (h : list exchange) (s : string) (r : region) :
  body_field req "shopDomain" = VStr s ->
  shop_pattern s ->
  byShop env !! s = Some r ->
  configured (flowSecret r) = true ->
  x_flow_secret req <> flowSecret r ->
  SealOnly_flow_order_created req h = (errRes env 401 "Bad X-Flow-Secret" None, h).
Proof.
  intros Hs Hp Hr Hc Hne. unfold SealOnly_flow_order_created.
  rewrite (SealOnly_resolved_route req h s r Hs Hp Hr).
  assert (SealOnly_secret_accepted r req = false) as ->; [|reflexivity].
  unfold SealOnly_secret_accepted. rewrite Hc. cbn [negb orb].
  apply bool_decide_eq_false. intros E.
  destruct (flowSecret r) as [secret|]; [|discriminate]. simpl in *.
  destruct (x_flow_secret req) as [hdr|]; simpl in E; [congruence|].
  subst secret. discriminate.
Qed.

Lemma SealOnly_search_log (sd oi em : value) (token : string) (h : list exchange) :
  snd (SealOnly_search sd oi em token h) = h
  \/ exists query r,
       to_string em = Return query
       /\ snd (SealOnly_search sd oi em token h) = h ++ [(SealSearch query token, r)].
Proof.
  unfold SealOnly_search, timedFetch, bind, lift, fetch_text, throw, ret.
  destruct (to_string em) as [query|]; [|now left].
  right. exists query, (fetch h (SealSearch query token)). split; [reflexivity|].
  destruct (fetch h _) as [|r]; [reflexivity|].
  destruct (negb (ok r)); reflexivity.
Qed.

(** X24: the seal-only route makes at most one call per request: a
    subscription search for the text of the request's email, with the token
    of the region of the request's shop, and only once the shop domain
    matched the pattern, the secret was accepted, the email was found
    present and the token configured, that is, set and not empty. *)
Theorem SealOnly_calls_once_at_most (req : request) (h : list exchange) :
  snd (SealOnly_flow_order_created req h) = h
  \/ exists s r query token answer,
       body_field req "shopDomain" = VStr s
       /\ shop_pattern s
       /\ byShop env !! s = Some r
       /\ SealOnly_secret_accepted r req = true
       /\ truthy (body_field req "email") = true
       /\ to_string (body_field req "email") = Return query
       /\ configured (sealToken r) = true
       /\ sealToken r = Some token /\ token <> ""
       /\ snd (SealOnly_flow_order_created req h)
          = h ++ [(SealSearch query token, answer)].
Proof.
  assert (forall o : outcome seal_response * list exchange,
             snd (match o with
                  | (Return res, h') => (res, h')
                  | (Throw e, h') => (errRes env 500 "Server error" (Some (DetailStack e)), h')
                  end) = snd o) as Hsnd by (intros [[?|?] ?]; reflexivity).
  unfold SealOnly_flow_order_created. rewrite Hsnd.
  destruct (SealOnly_resolution req h)
    as [(s & r & Hs & Hp & Hr)|[(msg & d & E)|(e & E)]];
    [|rewrite E; now left..].
  rewrite (SealOnly_resolved_route req h s r Hs Hp Hr).
  destruct (SealOnly_secret_accepted r req) eqn:Ha; cbn [negb]; [|now left].
  destruct (truthy (body_field req "email")) eqn:Hem; cbn [negb]; [|now left].
  destruct (configured (sealToken r)) eqn:Hc; cbn [negb]; [|now left].
  destruct (SealOnly_search_log (VStr s) (body_field req "orderId") (body_field req "email")
              (default "" (sealToken r)) h) as [E|(query & answer & Hq & E)];
    [now left|].
  right. destruct (sealToken r) as [token|] eqn:Ht; [|discriminate Hc].
  exists s, r, query, token, answer. cbn [default] in E.
  assert (token <> "") as Hne.
  { intros ->. discriminate Hc. }
  rewrite ?Ht.
  do 9 (split; [first [assumption|reflexivity]|]). exact E.
Qed.

(** X25: the seal-only route forwards the status of a failed search: a
    search answered outside 2xx with status [c] is answered [c] with the
    message "Seal search error" (where the full server answers 500). *)
Theorem SealOnly_forwards_upstream_status
    (req : request) (h : list exchange) (s query : string) (r : region)
    (answer : http_response) :
  body_field req "shopDomain" = VStr s ->
  shop_pattern s ->
  byShop env !! s = Some r ->
  SealOnly_secret_accepted r req = true ->
  configured (sealToken r) = true ->
  truthy (body_field req "email") = true ->
  to_string (body_field req "email") = Return query ->
  fetch h (SealSearch query (default "" (sealToken r))) = Response answer ->
  ok answer = false ->
  SealOnly_flow_order_created req h
  = (errRes env (status answer) "Seal search error" (Some (DetailUpstream (text answer))),
     h ++ [(SealSearch query (default "" (sealToken r)), Response answer)]).
Proof.
  intros Hs Hp Hr Ha Hc Hem Hq Hf Hok. unfold SealOnly_flow_order_created.
  rewrite (SealOnly_resolved_route req h s r Hs Hp Hr), Ha, Hem, Hc. cbn [negb].
  unfold SealOnly_search, timedFetch, bind, lift, fetch_text, throw, ret.
  now rewrite Hq, Hf, Hok.
Qed.

Lemma SealOnly_search_success (sd oi em : value) (token : string) (h : list exchange)
    (sd' oi' em' count subs : value) :
  fst (SealOnly_search sd oi em token h)
  = Return {| seal_status := 200; seal_payload := SealOk sd' oi' em' count subs |} ->
  sd' = sd /\ oi' = oi /\ em' = em
  /\ count = js_length subs /\ not_nullish subs = true.
Proof.
  unfold SealOnly_search, timedFetch, bind, lift, fetch_text, throw, ret.
  destruct (to_string em) as [query|]; [|discriminate].
  destruct (fetch h _) as [|r]; [discriminate|].
  destruct (ok r) eqn:Hok; cbn [negb fst].
  2:{ unfold errRes. intros E. injection E as _ E. discriminate. }
  intros E. injection E as <- <- <- <- <-. repeat split.
  unfold SealOnly_safeJson. destruct (JSON_parse (text r)) as [[| |b|n|t|l|f]|];
    try reflexivity.
  simpl. destruct (assoc "payload" f) as [[]|]; reflexivity.
Qed.

(** X26: a success answer of the seal-only route echoes shop domain, order
    id and email as the request gave them (the order id unchecked), its
    email is truthy, its [subscriptions] are never [null] or [undefined],
    and its [count] is their [length]: the number of elements when they are
    an array. *)
Theorem SealOnly_success_answer_shape
    (req : request) (h : list exchange) (sd oi em count subs : value) :
  fst (SealOnly_flow_order_created req h)
  = {| seal_status := 200; seal_payload := SealOk sd oi em count subs |} ->
  sd = body_field req "shopDomain"
  /\ oi = body_field req "orderId"
  /\ em = body_field req "email" /\ truthy em = true
  /\ not_nullish subs = true
  /\ count = js_length subs
  /\ (forall l, subs = VArr l -> count = VNum (Z.of_nat (length l))).
Proof.
  unfold SealOnly_flow_order_created.
  destruct (SealOnly_resolution req h)
    as [(s & r & Hs & Hp & Hr)|[(msg & d & E)|(e & E)]].
  2-3: rewrite E; unfold errRes; simpl; intros E'; injection E' as E'; discriminate.
  rewrite (SealOnly_resolved_route req h s r Hs Hp Hr).
  destruct (negb (SealOnly_secret_accepted r req));
    [unfold errRes; simpl; intros E'; injection E' as E'; discriminate|].
  destruct (truthy (body_field req "email")) eqn:Hem; cbn [negb];
    [|unfold errRes; simpl; intros E'; injection E' as E'; discriminate].
  destruct (negb (configured (sealToken r)));
    [unfold errRes; simpl; intros E'; injection E' as E'; discriminate|].
  destruct (SealOnly_search _ _ _ _ h) as [[res|e] h'] eqn:Es;
    [|unfold errRes; simpl; intros E'; injection E' as E'; discriminate].
  cbn [fst]. intros ->.
  destruct (SealOnly_search_success (VStr s) (body_field req "orderId")
              (body_field req "email") (default "" (sealToken r)) h sd oi em count subs)
    as (-> & -> & -> & -> & Hn); [now rewrite Es|].
  repeat split; try assumption; try congruence.
  intros l ->. reflexivity.
Qed.

(** X27: in the seal-only variant no answer carries [details] unless
    [DEBUG_ERRORS] reads ["true"] in some mix of upper and lower case. *)
Theorem SealOnly_no_details_without_debug (req : request) (h : list exchange)
    (msg : string) (d : option seal_details) :
  SealOnly_debug env = false ->
  seal_payload (fst (SealOnly_flow_order_created req h)) = SealError msg d ->
  d = None.
Proof.
  intros Hd.
  assert (forall code m o p, seal_payload (errRes env code m o) = SealError msg p -> p = None)
    as Herr.
  { intros code m o p. unfold errRes. rewrite Hd. cbn [andb seal_payload].
    destruct o; intros E; now injection E as _ <-. }
  unfold SealOnly_flow_order_created.
  destruct (SealOnly_resolution req h)
    as [(s & r & Hs & Hp & Hr)|[(m & o & E)|(e & E)]].
  2-3: rewrite E; cbn [fst]; apply Herr.
  rewrite (SealOnly_resolved_route req h s r Hs Hp Hr).
  destruct (negb (SealOnly_secret_accepted r req)); [apply Herr|].
  destruct (negb (truthy (body_field req "email"))); [apply Herr|].
  destruct (negb (configured (sealToken r))); [apply Herr|].
  unfold SealOnly_search, timedFetch, bind, lift, fetch_text, throw, ret.
  destruct (to_string (body_field req "email")) as [query|]; [|apply Herr].
  destruct (fetch h _) as [|r']; [apply Herr|].
  destruct (negb (ok r')); [apply Herr|]. cbn [fst seal_payload]. discriminate.
Qed.

End Server.

(** * The properties on the sample data *)

(** C1, refuted as stated: the input has a truthy [customerId], [email] and
    [orderName], [orderId] is absent, the lookup by name returns a record
    -- and the returned context has the record's customer id, email and
    name, not the input's. *)
Lemma truthy_customer_id_is_replaced :
  truthy (orderId partial_by_name) = false
  /\ truthy (orderName partial_by_name) = true
  /\ truthy (customerId partial_by_name) = true
  /\ truthy (email partial_by_name) = true
  /\ findOrderByName sample_env sample_parse sample_fetch
       (shopDomain partial_by_name) "shpat-uk" (orderName partial_by_name) []
     = (Return found_order, by_name_log)
  /\ ensureOrderContext sample_env sample_parse sample_fetch partial_by_name "shpat-uk" []
     = (Return resolved_by_name, by_name_log)
  /\ customerId resolved_by_name <> customerId partial_by_name
  /\ email resolved_by_name <> email partial_by_name
  /\ orderName resolved_by_name <> orderName partial_by_name.
Proof. repeat split; try (vm_compute; reflexivity); discriminate. Qed.

Lemma lookup_by_name_wins_when_truthy_witness :
  truthy (orderId partial_by_name) = false
  /\ truthy (orderName partial_by_name) = true
  /\ truthy (prop (prop found_order "customer") "id") = true
  /\ customerId resolved_by_name = prop (prop found_order "customer") "id"
  /\ ensureOrderContext sample_env renamed_parse renamed_fetch partial_without_customer
       "shpat-uk" []
     = (Return resolved_and_renamed, renamed_log)
  /\ orderName resolved_and_renamed = VStr "#1001-A".
Proof.
  split; [reflexivity|]. split; [reflexivity|]. split; [reflexivity|]. split.
  - refine (proj1 (proj2
              (lookup_by_name_wins_when_truthy sample_env sample_parse sample_fetch
                 partial_by_name "shpat-uk" [] by_name_log by_name_log
                 found_order resolved_by_name eq_refl eq_refl _ _)) eq_refl);
      vm_compute; reflexivity.
  - assert (ensureOrderContext sample_env renamed_parse renamed_fetch
              partial_without_customer "shpat-uk" []
            = (Return resolved_and_renamed, renamed_log)) as E by (vm_compute; reflexivity).
    split; [exact E|].
    assert (findOrderByName sample_env renamed_parse renamed_fetch
              (shopDomain partial_without_customer) "shpat-uk"
              (orderName partial_without_customer) []
            = (Return found_bare, [(ShopifyGraphQL "shop-uk.myshopify.com" "2025-07"
                                      "shpat-uk" (OrderByName "name:#1001"),
                                    answer 200 text_bare)])) as Ef
      by (vm_compute; reflexivity).
    destruct (proj2 (proj2 (proj2 (proj2 (proj2 (proj2
                (lookup_by_name_wins_when_truthy sample_env renamed_parse renamed_fetch
                   partial_without_customer "shpat-uk" [] _ renamed_log
                   found_bare resolved_and_renamed eq_refl eq_refl Ef E))))))
                (or_introl eq_refl) eq_refl) as (got & Eg & Ht & _).
    vm_compute in Eg. injection Eg as <-. apply Ht. reflexivity.
Defined.

Lemma ensureOrderContext_keeps_known_fields_witness :
  ensureOrderContext sample_env sample_parse sample_fetch partial_by_name "shpat-uk" []
  = (Return resolved_by_name, by_name_log)
  /\ shopDomain resolved_by_name = shopDomain partial_by_name
  /\ truthy (customerId resolved_by_name) = true.
Proof.
  assert (ensureOrderContext sample_env sample_parse sample_fetch partial_by_name "shpat-uk" []
          = (Return resolved_by_name, by_name_log)) as E by (vm_compute; reflexivity).
  split; [exact E|].
  destruct (ensureOrderContext_keeps_known_fields sample_env sample_parse sample_fetch
              partial_by_name "shpat-uk" [] by_name_log resolved_by_name E)
    as (Hsd & _ & _ & Hci & _).
  split; [exact Hsd|]. apply Hci. reflexivity.
Defined.

(** C2, refuted as stated: the subscription search is answered 200 with a
    page that is not JSON, and the request is answered 200. *)
Lemma unparseable_search_page_gets_200 :
  snd (flow_order_created sample_env sample_parse html_search_fetch sample_request [])
  = [(SealSearch "a@b.com" "seal-uk", answer 200 "<html>Bad gateway</html>")]
  /\ sample_parse "<html>Bad gateway</html>" = None
  /\ http_status
       (fst (flow_order_created sample_env sample_parse html_search_fetch sample_request []))
     = 200.
Proof. repeat split; vm_compute; reflexivity. Qed.

Lemma malformed_bodies_witness :
  server_error
    (fst (flow_order_created sample_env sample_parse html_admin_fetch named_order_request []))
  /\ returns_empty_success
       (Return (fst (flow_order_created sample_env sample_parse html_search_fetch
                       sample_request []))).
Proof.
  split.
  - destruct (malformed_bodies sample_env sample_parse html_admin_fetch named_order_request [])
      as (new & E & H & _ & _).
    apply H. vm_compute in E. rewrite <- E. apply Exists_cons_hd. vm_compute. reflexivity.
  - destruct (malformed_bodies sample_env sample_parse html_search_fetch sample_request [])
      as (new & E & _ & H & _).
    apply H. vm_compute in E. rewrite <- E. apply Exists_cons_hd. vm_compute. split; reflexivity.
Defined.

Lemma missing_header_passes_for_secret_undefined_witness :
  byShop undefined_secret_env !! "shop-uk.myshopify.com" = Some undefined_secret_region
  /\ http_status
       (fst (flow_order_created undefined_secret_env sample_parse sample_fetch
               headerless_request []))
     <> 401.
Proof.
  assert (byShop undefined_secret_env !! "shop-uk.myshopify.com"
          = Some undefined_secret_region) as Hr by (vm_compute; reflexivity).
  split; [exact Hr|].
  apply (missing_header_passes_for_secret_undefined undefined_secret_env sample_parse
           sample_fetch headerless_request [] "shop-uk.myshopify.com"
           undefined_secret_region);
    [reflexivity| |exact Hr|reflexivity|reflexivity].
  exists "shop-uk". split; [discriminate|]. split; reflexivity.
Defined.

(** The request without the header is in fact served: 200, tags written. *)
Example missing_header_served :
  http_status
    (fst (flow_order_created undefined_secret_env sample_parse sample_fetch
            headerless_request [])) = 200.
Proof. vm_compute. reflexivity. Qed.

Lemma tag_writes_are_independent_witness :
  success
    (fst (flow_order_created sample_env sample_parse broken_customer_fetch sample_request [])).
Proof.
  destruct (proj2 (tag_writes_are_independent sample_env sample_parse broken_customer_fetch)
              sample_request []) as (new & E & H).
  apply H. vm_compute in E. rewrite <- E.
  do 2 apply Exists_cons_tl. apply Exists_cons_hd. exact I.
Defined.

(** With the customer's write rejected, the order's result is in the
    response next to the captured error. *)
Example rejected_customer_write :
  fst (flow_order_created sample_env sample_parse broken_customer_fetch sample_request [])
  = respond 200
      (OkBody (VStr "shop-uk.myshopify.com") (VStr "gid://Order/1") (VStr "#1001")
              (VStr "gid://Customer/9") (VStr "a@b.com") [sub_77]
              (Written (VObj [("userErrors", VArr [])]))
              (Some (Failed FetchRejected))).
Proof. vm_compute. reflexivity. Qed.

Lemma failed_detail_fails_request_witness :
  server_error
    (fst (flow_order_created sample_env sample_parse broken_detail_fetch sample_request [])).
Proof.
  destruct (failed_detail_fails_request sample_env sample_parse broken_detail_fetch
              sample_request []) as (new & E & H).
  apply H. vm_compute in E. rewrite <- E.
  apply Exists_cons_tl, Exists_cons_hd. vm_compute. reflexivity.
Defined.

Lemma tags_sent_without_duplicates_witness :
  deriveTags [sub_77; sub_78]
  = Return ["seal_sub_id_77"; "seal_sub_id_78"; "seal_min_cycles_3"; "seal_min_cycles_3"]
  /\ (exists sent r rest,
        snd (write_tags sample_env sample_parse sample_fetch (VStr "shop-uk.myshopify.com")
               "shpat-uk" resolved_by_name [sub_77; sub_78]
               ["seal_sub_id_77"; "seal_sub_id_78"; "seal_min_cycles_3"; "seal_min_cycles_3"]
               [])
        = [] ++ (ShopifyGraphQL "shop-uk.myshopify.com" (api_version sample_env) "shpat-uk"
                   (TagsAdd (orderId resolved_by_name) sent), r) :: rest
        /\ occurrences "seal_min_cycles_3" sent = 1%nat
        /\ length rest = 1%nat)
  /\ (exists host token before sent r rest,
        snd (flow_order_created sample_env two_subs_parse two_subs_fetch sample_request [])
        = [] ++ before
             ++ (ShopifyGraphQL host (api_version sample_env) token
                   (TagsAdd (VStr "gid://Order/1") sent), r) :: rest
        /\ occurrences "seal_min_cycles_3" sent = 1%nat
        /\ length rest = 1%nat).
Proof.
  assert (deriveTags [sub_77; sub_78]
          = Return ["seal_sub_id_77"; "seal_sub_id_78"; "seal_min_cycles_3";
                    "seal_min_cycles_3"]) as E by (vm_compute; reflexivity).
  split; [exact E|]. split.
  - destruct (proj1 (proj2 (tags_sent_without_duplicates sample_env sample_parse
                              sample_fetch))
                (VStr "shop-uk.myshopify.com") "shop-uk.myshopify.com" "shpat-uk"
                resolved_by_name [sub_77; sub_78] _ [] 0%nat 1%nat sub_77 sub_78
                eq_refl eq_refl eq_refl (O_S 0) eq_refl eq_refl E)
      as (sent & r & rest & Hlog & Hocc & _ & _ & Hcust & _).
    exists sent, r, rest. split; [exact Hlog|]. split; [exact Hocc|].
    destruct (Hcust eq_refl) as [r' ->]. reflexivity.
  - destruct (proj2 (proj2 (tags_sent_without_duplicates sample_env two_subs_parse
                              two_subs_fetch))
                sample_request [] (VStr "shop-uk.myshopify.com") (VStr "gid://Order/1")
                (VStr "#1001") (VStr "gid://Customer/9") (VStr "a@b.com")
                [sub_77; sub_78]
                (Written (VObj [("userErrors", VArr [])]))
                (Some (Written (VObj [("userErrors", VArr [])])))
                0%nat 1%nat sub_77 sub_78)
      as (host & token & before & sent & r & rest & _ & Hlog & _ & Hocc & _ & _ & Hcust);
      [vm_compute; reflexivity|reflexivity|reflexivity|exact (O_S 0)
      |reflexivity|reflexivity|].
    exists host, token, before, sent, r, rest. split; [exact Hlog|]. split; [exact Hocc|].
    destruct Hcust as [r' ->]; [discriminate|reflexivity].
Defined.

Lemma deriveTags_order_independent_witness :
  (forall t, t ∈ ["seal_sub_id_77"; "seal_sub_id_79"; "seal_min_cycles_3"]
             <-> t ∈ ["seal_sub_id_79"; "seal_sub_id_77"; "seal_min_cycles_3"])
  /\ exists i others,
       to_string (sub_id sub_79) = Return i
       /\ deriveTags [sub_77] = Return others
       /\ ["seal_sub_id_79"; "seal_sub_id_77"; "seal_min_cycles_3"]
          = ("seal_sub_id_" +:+ i) :: others.
Proof.
  split.
  - exact (proj1 (proj1 deriveTags_order_independent [sub_77; sub_79] [sub_79; sub_77]
                   (perm_swap sub_79 sub_77 []))).
  - apply (proj2 deriveTags_order_independent (VObj [("id", VNum 79)]) sub_79 [sub_77]);
      [left; reflexivity|reflexivity|vm_compute; reflexivity].
Defined.

(** The end-to-end example of the specification: one subscription with
    three minimum cycles, tags written to the order and the customer. *)
Example end_to_end :
  flow_order_created sample_env sample_parse sample_fetch sample_request []
  = (respond 200
       (OkBody (VStr "shop-uk.myshopify.com") (VStr "gid://Order/1") (VStr "#1001")
               (VStr "gid://Customer/9") (VStr "a@b.com") [sub_77]
               (Written (VObj [("userErrors", VArr [])]))
               (Some (Written (VObj [("userErrors", VArr [])])))),
     [(SealSearch "a@b.com" "seal-uk", answer 200 text_stubs);
      (SealGet "77" "seal-uk", answer 200 text_detail);
      (ShopifyGraphQL "shop-uk.myshopify.com" "2025-07" "shpat-uk"
         (TagsAdd (VStr "gid://Order/1") ["seal_sub_id_77"; "seal_min_cycles_3"]),
       answer 200 text_tagged);
      (ShopifyGraphQL "shop-uk.myshopify.com" "2025-07" "shpat-uk"
         (TagsAdd (VStr "gid://Customer/9") ["seal_sub_id_77"; "seal_min_cycles_3"]),
       answer 200 text_tagged)]).
Proof. vm_compute. reflexivity. Qed.

(** Without an order id and an order name the order cannot be resolved:
    400, and no call. *)
Example unresolvable_order :
  flow_order_created sample_env sample_parse sample_fetch
    {| req_body := VObj [("shopDomain", VStr "shop-uk.myshopify.com");
                         ("email", VStr "a@b.com")];
       x_flow_secret := Some "S" |} []
  = (respond 400 (ErrorBody "orderId (gid) required or resolvable" None), []).
Proof. vm_compute. reflexivity. Qed.

(** ** Further properties on the sample data *)

(** A domain configured for two regions is served with the later one's
    tokens. *)
Example shared_domain_goes_to_us :
  byShop shared_domain_env !! "shop.myshopify.com" = Some us_region.
Proof. vm_compute. reflexivity. Qed.

Lemma accepted_shop_is_a_plain_host_witness :
  isValidShop (VStr "shop-uk.myshopify.com") = Return true
  /\ length (filter (fun c => c = "."%char)
               (list_ascii_of_string "shop-uk.myshopify.com")) = 2%nat.
Proof.
  split; [reflexivity|].
  exact (proj1 (proj2 (accepted_shop_is_a_plain_host "shop-uk.myshopify.com" eq_refl))).
Defined.

Lemma tagsAdd_sends_each_tag_once_in_order_witness :
  exists sent r,
    snd (tagsAdd sample_env sample_parse sample_fetch (VStr "shop-uk.myshopify.com")
           "shpat-uk" (VStr "gid://Order/1") (Some ["a"; "b"; "a"]) [])
    = [] ++ [(ShopifyGraphQL "shop-uk.myshopify.com" (api_version sample_env) "shpat-uk"
                (TagsAdd (VStr "gid://Order/1") sent), r)]
    /\ NoDup sent
    /\ (forall k u, sent !! k = Some u ->
          exists pre post,
            ["a"; "b"; "a"] = pre ++ u :: post /\ (u ∉ pre)
            /\ (forall v, v ∈ take k sent <-> v ∈ pre)).
Proof.
  destruct (tagsAdd_sends_each_tag_once_in_order sample_env sample_parse sample_fetch
              (VStr "shop-uk.myshopify.com") "shpat-uk" (VStr "gid://Order/1")
              "a" ["b"; "a"] [] "shop-uk.myshopify.com" eq_refl)
    as (sent & r & E & _ & Hnd & _ & Hord & _).
  exists sent, r. split; [exact E|]. split; [exact Hnd|exact Hord].
Defined.

(** The tags of the sample in the order sent. *)
Example repeated_tag_keeps_its_first_place :
  Array_from_Set ["a"; "b"; "a"] = ["a"; "b"].
Proof. vm_compute. reflexivity. Qed.

Lemma deriveTags_layout_witness :
  exists ids cycles,
    ["seal_sub_id_77"; "seal_sub_id_79"; "seal_min_cycles_3"] = ids ++ cycles
    /\ Forall2 (fun m t => id_tag m = Return t) [sub_77; sub_79] ids.
Proof.
  destruct (deriveTags_layout [sub_77; sub_79]
              ["seal_sub_id_77"; "seal_sub_id_79"; "seal_min_cycles_3"] eq_refl)
    as (ids & cycles & E & Hids & _).
  exists ids, cycles. split; [exact E|exact Hids].
Defined.

Lemma distinct_ids_keep_their_tags_witness :
  exists ids cycles,
    ["seal_sub_id_77"; "seal_sub_id_78"; "seal_min_cycles_3"; "seal_min_cycles_3"]
    = ids ++ cycles
    /\ length ids = 2%nat
    /\ Array_from_Set
         ["seal_sub_id_77"; "seal_sub_id_78"; "seal_min_cycles_3"; "seal_min_cycles_3"]
       = ids ++ Array_from_Set cycles.
Proof.
  apply (distinct_ids_keep_their_tags [sub_77; sub_78]).
  - repeat constructor; eexists; reflexivity.
  - simpl. apply NoDup_cons. split.
    + intros H. inversion H as [|? ? ? H']. inversion H'.
    + apply NoDup_singleton.
  - reflexivity.
Defined.

Lemma sealSearchByEmail_result_witness :
  snd (sealSearchByEmail sample_parse sample_fetch (VStr "a@b.com") "seal-uk" [])
  = [] ++ [(SealSearch "a@b.com" "seal-uk", answer 200 text_stubs)].
Proof.
  exact (proj1 (sealSearchByEmail_result sample_parse sample_fetch (VStr "a@b.com")
                  "seal-uk" "a@b.com" [] {| status := 200; text := text_stubs |}
                  eq_refl eq_refl)).
Defined.

Lemma detail_without_id_is_tagged_undefined_witness :
  exists d,
    sealGetById sample_parse empty_detail_fetch (VNum 77) "seal-uk" []
    = (Return d, [] ++ [(SealGet "77" "seal-uk", answer 200 "")])
    /\ minimal_of d = Return nameless_summary
    /\ deriveTags [nameless_summary] = Return ["seal_sub_id_undefined"].
Proof.
  apply (detail_without_id_is_tagged_undefined sample_parse empty_detail_fetch
           (VNum 77) "seal-uk" "77" [] {| status := 200; text := "" |});
    [reflexivity|reflexivity|reflexivity|left; reflexivity].
Defined.

Lemma ensureOrderContext_with_order_id_only_fills_gaps_witness :
  truthy (orderId partial_by_id) = true
  /\ truthy (email partial_by_id) = true
  /\ email (match fst (ensureOrderContext sample_env sample_parse sample_fetch
                         partial_by_id "shpat-uk" []) with
            | Return out => out
            | Throw _ => partial_by_id
            end) = VStr "a@b.com".
Proof.
  split; [reflexivity|]. split; [reflexivity|].
  destruct (ensureOrderContext sample_env sample_parse sample_fetch partial_by_id
              "shpat-uk" []) as [[out|e] h'] eqn:E; [|reflexivity].
  exact (proj1 (proj2 (proj2
           (ensureOrderContext_with_order_id_only_fills_gaps sample_env sample_parse
              sample_fetch partial_by_id "shpat-uk" [] h' out eq_refl E))) eq_refl).
Defined.

Lemma fetch_details_complete_and_ordered_witness :
  exists new,
    [(SealGet "77" "seal-uk", answer 200 text_detail)] = [] ++ new
    /\ length [VObj [("id", VNum 77); ("billing_min_cycles", VNum 3)]]
       = length [VObj [("id", VNum 77)]].
Proof.
  destruct (fetch_details_complete_and_ordered sample_parse sample_fetch
              [VObj [("id", VNum 77)]] "seal-uk" []
              [(SealGet "77" "seal-uk", answer 200 text_detail)]
              [VObj [("id", VNum 77); ("billing_min_cycles", VNum 3)]])
    as (new & E & Hl & _); [vm_compute; reflexivity|].
  exists new. split; [exact E|exact Hl].
Defined.

Lemma non_string_shop_is_never_served_witness :
  snd (flow_order_created sample_env sample_parse sample_fetch array_shop_request []) = [].
Proof.
  apply (non_string_shop_is_never_served sample_env sample_parse sample_fetch
           array_shop_request []).
  intros s. discriminate.
Defined.

(** The text of the array is a recognised domain, the array is no key of
    the registry. *)
Example array_shop_is_not_recognised :
  isValidShop (body_field array_shop_request "shopDomain") = Return true
  /\ flow_order_created sample_env sample_parse sample_fetch array_shop_request []
     = (respond 400 (ErrorBody "Shop not recognized: shop-uk.myshopify.com" None), []).
Proof. split; vm_compute; reflexivity. Qed.

Lemma sample_admitted (req : request) :
  body_field req "shopDomain" = VStr "shop-uk.myshopify.com" ->
  x_flow_secret req = Some "S" ->
  admitted sample_env req "shop-uk.myshopify.com" sample_region.
Proof.
  intros Hs Hh. split; [exact Hs|]. split.
  - exists "shop-uk". split; [discriminate|]. split; reflexivity.
  - split; [reflexivity|]. split; [|split; reflexivity].
    unfold secret_accepted. rewrite Hh. reflexivity.
Defined.

Lemma unresolvable_order_is_refused_witness :
  flow_order_created sample_env sample_parse sample_fetch unnamed_order_request []
  = (respond 400 (ErrorBody "orderId (gid) required or resolvable" None), []).
Proof.
  apply (unresolvable_order_is_refused sample_env sample_parse sample_fetch
           unnamed_order_request [] "shop-uk.myshopify.com" sample_region);
    [apply sample_admitted; reflexivity|reflexivity|reflexivity].
Defined.

Lemma non_string_order_name_gets_500_witness :
  flow_order_created sample_env sample_parse sample_fetch numeric_name_request []
  = (respond 500 (ErrorBody "Server error"
                    (if debug_errors sample_env then Some TypeError else None)), []).
Proof.
  apply (non_string_order_name_gets_500 sample_env sample_parse sample_fetch
           numeric_name_request [] "shop-uk.myshopify.com" sample_region);
    [apply sample_admitted; reflexivity|reflexivity|reflexivity|intros name; discriminate].
Defined.

Lemma success_answer_shape_witness :
  VStr "shop-uk.myshopify.com" = body_field sample_request "shopDomain"
  /\ (exists s, VStr "shop-uk.myshopify.com" = VStr s /\ is_Some (byShop sample_env !! s))
  /\ truthy (VStr "gid://Customer/9") = true.
Proof.
  destruct (success_answer_shape sample_env sample_parse sample_fetch sample_request []
              (VStr "shop-uk.myshopify.com") (VStr "gid://Order/1") (VStr "#1001")
              (VStr "gid://Customer/9") (VStr "a@b.com") [sub_77]
              (Written (VObj [("userErrors", VArr [])]))
              (Some (Written (VObj [("userErrors", VArr [])]))))
    as (Hsd & Hs & _ & _ & _ & _ & _ & Hw & _); [vm_compute; reflexivity|].
  split; [exact Hsd|]. split; [exact Hs|]. apply Hw. reflexivity.
Defined.

(** A tag write answered 200 without [data] gives [undefined]: the answer
    has a customer id, and no [tagResults.customer] is written. *)
Example undefined_tag_result_is_left_out :
  exists (subs : list summary) (order : tag_result) (customer : option tag_result),
    fst (flow_order_created sample_env dataless_parse dataless_fetch sample_request [])
    = respond 200
        (OkBody (VStr "shop-uk.myshopify.com") (VStr "gid://Order/1") (VStr "#1001")
                (VStr "gid://Customer/9") (VStr "a@b.com") subs order customer)
    /\ customer = Some (Written VUndef)
    /\ customer_entry_written customer = false.
Proof. eexists _, _, _. split; [vm_compute; reflexivity|]. split; reflexivity. Qed.

Lemma no_details_without_debug_witness :
  DEBUG_ERRORS sample_env <> Some "true"
  /\ exists msg,
       body (fst (flow_order_created sample_env sample_parse broken_detail_fetch
                    sample_request []))
       = ErrorBody msg None.
Proof.
  split; [discriminate|].
  destruct (body (fst (flow_order_created sample_env sample_parse broken_detail_fetch
                         sample_request []))) as [msg d|] eqn:E; [|discriminate E].
  exists msg. f_equal.
  apply (no_details_without_debug sample_env sample_parse broken_detail_fetch
           sample_request [] msg d); [discriminate|exact E].
Defined.

Lemma SealOnly_wrong_or_missing_header_gets_401_witness :
  SealOnly_flow_order_created sample_env sample_parse sample_fetch headerless_request []
  = (errRes sample_env 401 "Bad X-Flow-Secret" None, []).
Proof.
  apply (SealOnly_wrong_or_missing_header_gets_401 sample_env sample_parse sample_fetch
           headerless_request [] "shop-uk.myshopify.com" sample_region);
    [reflexivity| |reflexivity|reflexivity|discriminate].
  exists "shop-uk". split; [discriminate|]. split; reflexivity.
Defined.

(** The same request under the secret [undefined]: the full server lets it
    through, the seal-only variant answers 401. *)
Example missing_header_refused_by_seal_only :
  seal_status
    (fst (SealOnly_flow_order_created undefined_secret_env sample_parse sample_fetch
            headerless_request [])) = 401.
Proof. vm_compute. reflexivity. Qed.

Lemma SealOnly_forwards_upstream_status_witness :
  SealOnly_flow_order_created sample_env sample_parse limited_search_fetch sample_request []
  = (errRes sample_env 429 "Seal search error"
       (Some (DetailUpstream "Too many requests")),
     [] ++ [(SealSearch "a@b.com" "seal-uk", answer 429 "Too many requests")]).
Proof.
  apply (SealOnly_forwards_upstream_status sample_env sample_parse limited_search_fetch
           sample_request [] "shop-uk.myshopify.com" "a@b.com" sample_region
           {| status := 429; text := "Too many requests" |});
    try reflexivity.
  exists "shop-uk". split; [discriminate|]. split; reflexivity.
Defined.

(** The full server answers the same failed search with 500. *)
Example failed_search_gets_500_from_the_full_server :
  http_status
    (fst (flow_order_created sample_env sample_parse limited_search_fetch sample_request []))
  = 500.
Proof. vm_compute. reflexivity. Qed.

Lemma SealOnly_success_answer_shape_witness :
  VNum 1 = js_length (VArr [VObj [("id", VNum 77)]])
  /\ VStr "gid://Order/1" = body_field sample_request "orderId".
Proof.
  destruct (SealOnly_success_answer_shape sample_env sample_parse sample_fetch
              sample_request [] (VStr "shop-uk.myshopify.com") (VStr "gid://Order/1")
              (VStr "a@b.com") (VNum 1) (VArr [VObj [("id", VNum 77)]]))
    as (_ & Hoi & _ & _ & _ & Hc & _); [vm_compute; reflexivity|].
  split; [exact Hc|exact Hoi].
Defined.

Lemma SealOnly_no_details_without_debug_witness :
  SealOnly_debug sample_env = false
  /\ exists msg,
       seal_payload (fst (SealOnly_flow_order_created sample_env sample_parse
                            limited_search_fetch sample_request []))
       = SealError msg None.
Proof.
  split; [reflexivity|].
  destruct (seal_payload (fst (SealOnly_flow_order_created sample_env sample_parse
                                 limited_search_fetch sample_request [])))
    as [msg d|] eqn:E; [|discriminate E].
  exists msg. f_equal.
  apply (SealOnly_no_details_without_debug sample_env sample_parse limited_search_fetch
           sample_request [] msg d); [reflexivity|exact E].
Defined.

Lemma byShop_later_region_wins_witness :
  shop us_region = Some "shop.myshopify.com"
  /\ "shop.myshopify.com" <> ""
  /\ us_region ∈ regions shared_domain_env.
Proof.
  apply (proj2 (byShop_later_region_wins shared_domain_env "shop.myshopify.com") us_region).
  vm_compute. reflexivity.
Defined.

Lemma tscEquals_is_exact_witness :
  tscEquals (Some "S") "S" = Return true.
Proof.
  exact (proj2 (proj2 (tscEquals_is_exact (Some "S") "S") "S" eq_refl) eq_refl).
Defined.

Lemma shopifyGraphQL_returns_iff_witness :
  exists host r json,
    to_string (VStr "shop-uk.myshopify.com") = Return host
    /\ sample_fetch [] (ShopifyGraphQL host (api_version sample_env) "shpat-uk"
                          (OrderByName "name:#1001")) = Response r
    /\ ok r = true
    /\ sample_parse (text r) = Some json
    /\ not_nullish json = true
    /\ truthy (prop json "errors") = false
    /\ prop (VObj [("orders", VObj [("nodes", VArr [found_order])])]) "orders"
       = prop (prop json "data") "orders"
    /\ by_name_log
       = [] ++ [(ShopifyGraphQL host (api_version sample_env) "shpat-uk"
                   (OrderByName "name:#1001"), Response r)].
Proof.
  destruct (proj1 (shopifyGraphQL_returns_iff sample_env sample_parse sample_fetch
                     (VStr "shop-uk.myshopify.com") "shpat-uk" (OrderByName "name:#1001")
                     [] by_name_log
                     (VObj [("orders", VObj [("nodes", VArr [found_order])])])))
    as (host & r & json & H1 & H2 & H3 & H4 & H5 & H6 & H7 & H8);
    [vm_compute; reflexivity|].
  exists host, r, json. rewrite <- H7. tauto.
Defined.

Lemma findOrderByName_normalises_the_name_witness :
  findOrderByName sample_env sample_parse sample_fetch (VStr "shop-uk.myshopify.com")
    "shpat-uk" (VStr "1001") []
  = findOrderByName sample_env sample_parse sample_fetch (VStr "shop-uk.myshopify.com")
      "shpat-uk" (VStr "#1001") [].
Proof.
  apply (proj1 (findOrderByName_normalises_the_name sample_env sample_parse sample_fetch
                  (VStr "shop-uk.myshopify.com") "shpat-uk" []) "1001").
  reflexivity.
Defined.

Lemma ensureOrderContext_asks_at_most_twice_witness :
  exists byName byId,
    snd (ensureOrderContext sample_env sample_parse sample_fetch resolved_by_name
           "shpat-uk" []) = [] ++ byName ++ byId
    /\ byName = [] /\ byId = [].
Proof.
  destruct (ensureOrderContext_asks_at_most_twice sample_env sample_parse sample_fetch
              resolved_by_name "shpat-uk" [])
    as (byName & byId & E & _ & _ & _ & _ & Hall & _).
  exists byName, byId. split; [exact E|]. apply Hall. reflexivity.
Defined.

(** A configured shop outside [myshopify.com] is listed by [/health] and
    refused by the route. *)
Lemma health_lists_the_recognised_shops_witness :
  Some "shop.example.com" ∈ health_shops (health custom_domain_env)
  /\ fst (flow_order_created custom_domain_env sample_parse sample_fetch
            custom_domain_request [])
     = invalid_shop_response.
Proof.
  destruct (health_lists_the_recognised_shops custom_domain_env sample_parse sample_fetch)
    as (Hlisted & _ & _ & _ & _ & Hroute & _).
  split.
  - apply Hlisted. vm_compute. eexists. reflexivity.
  - apply (proj1 (proj2 (Hroute custom_domain_request [] "shop.example.com" eq_refl))).
    intros Hp. apply shop_regex_test_spec in Hp. vm_compute in Hp. discriminate Hp.
Defined.
